(** * forecast_transformer: the table parser and row transformer of
      [src/lib/parsers.ts], embedded in Rocq.

    The file has three layers.
    - A model of the part of the JavaScript runtime the parsers call:
      strings as lists of UTF-16 code units, the regular expressions of the
      source as deterministic matchers, IEEE-754 binary64 numbers with exact
      rounding, and the [Date] object as a time value in milliseconds.
    - The functions of [parsers.ts], one definition per source function,
      under the source's names.
    - The properties of the specification, stated and proved on these
      definitions. *)

From Stdlib Require Import ZArith List Lia Ascii String Bool Sorted.
From stdpp Require Import gmap list.
Import ListNotations.
Open Scope Z_scope.

(* ===================================================================== *)
(** ** Strings *)
(* ===================================================================== *)

(** A JavaScript string is a sequence of UTF-16 code units. *)
Definition jsstring := list Z.

(** [str "abc"] is the JavaScript string with the code units of an ASCII
    literal. *)
Definition str (s : string) : jsstring :=
  map (fun a => Z.of_N (N_of_ascii a)) (list_ascii_of_string s).

Definition en_dash : Z := 8211.  (* U+2013 *)
Definition em_dash : Z := 8212.  (* U+2014 *)

Module JsString.

(** WhiteSpace and LineTerminator of ECMA-262: the characters removed by
    [trim] and matched by the class [\s]. *)
Definition is_ws (c : Z) : bool :=
  ((9 <=? c) && (c <=? 13)) || (c =? 32) || (c =? 160) || (c =? 5760)
  || ((8192 <=? c) && (c <=? 8202)) || (c =? 8232) || (c =? 8233)
  || (c =? 8239) || (c =? 8287) || (c =? 12288) || (c =? 65279).

(** The class [\d]. *)
Definition is_digit (c : Z) : bool := (48 <=? c) && (c <=? 57).

Fixpoint trimStart (s : jsstring) : jsstring :=
  match s with
  | c :: r => if is_ws c then trimStart r else s
  | [] => []
  end.

Definition trimEnd (s : jsstring) : jsstring := rev (trimStart (rev s)).

Definition trim (s : jsstring) : jsstring := trimEnd (trimStart s).

(** [s.replace(/\s+/g, ' ')]; [in_run] says that the previous code unit
    belonged to a whitespace run that has already been replaced. *)
Fixpoint collapse_from (in_run : bool) (s : jsstring) : jsstring :=
  match s with
  | [] => []
  | c :: r =>
      if is_ws c
      then (if in_run then collapse_from true r else 32 :: collapse_from true r)
      else c :: collapse_from false r
  end.

Definition collapse_ws (s : jsstring) : jsstring := collapse_from false s.

(** [s.replace(/[–—]/g, '-')]. *)
Definition is_dash (c : Z) : bool := (c =? 45) || (c =? en_dash) || (c =? em_dash).

Definition normalize_dashes (s : jsstring) : jsstring :=
  map (fun c => if (c =? en_dash) || (c =? em_dash) then 45 else c) s.

(** [s.replace(a, b)] with a one-character string pattern: only the first
    occurrence is replaced. *)
Fixpoint replace_first (a b : Z) (s : jsstring) : jsstring :=
  match s with
  | [] => []
  | c :: r => if c =? a then b :: r else c :: replace_first a b r
  end.

(** [s.split(sep)] with a one-character separator; the result is never
    empty. *)
Fixpoint split (sep : Z) (s : jsstring) : list jsstring :=
  match s with
  | [] => [[]]
  | c :: r =>
      if c =? sep then [] :: split sep r
      else match split sep r with
           | p :: ps => (c :: p) :: ps
           | [] => [[c]]
           end
  end.

(** [parts.join(sep)]. *)
Fixpoint join (sep : jsstring) (parts : list jsstring) : jsstring :=
  match parts with
  | [] => []
  | [p] => p
  | p :: ps => p ++ sep ++ join sep ps
  end.

(** [s.padStart(n, '0')]. *)
Definition padStart0 (n : nat) (s : jsstring) : jsstring :=
  repeat 48 (n - length s) ++ s.

(** [toLowerCase] on the ASCII letters.  JavaScript also lowers letters
    outside ASCII, but that does not show where this program lowers a
    string: the only such letter lowered to an ASCII one is the Kelvin
    sign, to [k], the label "category" has no [k], and month names are
    lowered after the pattern has matched ASCII letters. *)
Definition lower (c : Z) : Z := if (65 <=? c) && (c <=? 90) then c + 32 else c.

Definition toLowerCase (s : jsstring) : jsstring := map lower s.

(** [toUpperCase] on the ASCII letters (used by the multi-entity
    transformer on the currency cell); JavaScript also maps the letters
    outside ASCII, which are left as they are here. *)
Definition upper (c : Z) : Z := if (97 <=? c) && (c <=? 122) then c - 32 else c.

Definition toUpperCase (s : jsstring) : jsstring := map upper s.

(** Decimal digits of a natural number, most significant first. *)
Fixpoint digits_fuel (fuel : nat) (n : Z) (acc : jsstring) : jsstring :=
  match fuel with
  | O => acc
  | S f =>
      let acc' := (48 + n mod 10) :: acc in
      if n <? 10 then acc' else digits_fuel f (n / 10) acc'
  end.

Definition digits (n : Z) : jsstring := digits_fuel (S (Z.to_nat (Z.log2 n))) n [].

(** [String(z)] for an integer [z]. *)
Definition of_Z (z : Z) : jsstring :=
  if z <? 0 then 45 :: digits (- z) else digits z.

(** Value of a run of decimal digits. *)
Definition digits_value (s : jsstring) : Z :=
  fold_left (fun acc c => 10 * acc + (c - 48)) s 0.

End JsString.

Export JsString.

(* ===================================================================== *)
(** ** Regular expressions of the source, as deterministic matchers *)
(* ===================================================================== *)

(** Each matcher consumes a prefix of the input and returns what is left.
    The patterns of [parsers.ts] never put two overlapping classes next to
    each other (a digit run is followed by a separator, a whitespace run by
    a letter, a digit or a dash), so the greedy reading below accepts the
    same strings, with the same groups, as the backtracking matcher. *)
Module Re.

(** [\d{n}] *)
Fixpoint digitsN (n : nat) (s : jsstring) : option (jsstring * jsstring) :=
  match n with
  | O => Some ([], s)
  | S k =>
      match s with
      | c :: r =>
          if is_digit c
          then '(d, rest) ← digitsN k r; Some (c :: d, rest)
          else None
      | [] => None
      end
  end.

(** [\d{1,2}] *)
Definition digits12 (s : jsstring) : option (jsstring * jsstring) :=
  match s with
  | c1 :: c2 :: r =>
      if is_digit c1
      then (if is_digit c2 then Some ([c1; c2], r) else Some ([c1], c2 :: r))
      else None
  | [c1] => if is_digit c1 then Some ([c1], []) else None
  | [] => None
  end.

(** [^\d+$] *)
Definition all_digits (s : jsstring) : bool :=
  match s with
  | [] => false
  | _ => forallb is_digit s
  end.

(** A single given character. *)
Definition char (c : Z) (s : jsstring) : option jsstring :=
  match s with
  | x :: r => if x =? c then Some r else None
  | [] => None
  end.

(** [\s*] *)
Definition ws0 (s : jsstring) : jsstring := trimStart s.

(** [\s+] *)
Definition ws1 (s : jsstring) : option jsstring :=
  match s with
  | c :: r => if is_ws c then Some (trimStart r) else None
  | [] => None
  end.

(** [[-–—]] *)
Definition dash (s : jsstring) : option jsstring :=
  match s with
  | c :: r => if is_dash c then Some r else None
  | [] => None
  end.

(** The alternatives of the month group; with the flag [i] the listed
    upper- and lower-case spellings collapse to these thirteen. *)
Definition month_names : list jsstring :=
  map str ["jan"; "feb"; "mar"; "apr"; "may"; "jun"; "jul"; "aug"; "sep";
           "oct"; "nov"; "dec"; "okt"]%string.

(** [(Jan|Feb|...|okt|nov|dec)] under the flag [i]: the group captures
    the three characters as they are written in the input. *)
Definition month (s : jsstring) : option (jsstring * jsstring) :=
  match s with
  | a :: b :: c :: r =>
      if bool_decide (toLowerCase [a; b; c] ∈ month_names)
      then Some ([a; b; c], r)
      else None
  | _ => None
  end.

(** [$] *)
Definition eos (s : jsstring) : bool :=
  match s with [] => true | _ => false end.

(** [regex.test(s)] for a matcher that returns its groups. *)
Definition test {A} (m : option A) : bool :=
  match m with Some _ => true | None => false end.

(** [^(\d{4})-(\d{2})-(\d{2})$] *)
Definition iso_date (s : jsstring) : option (jsstring * jsstring * jsstring) :=
  '(y, s) ← digitsN 4 s;
  s ← char 45 s;
  '(m, s) ← digitsN 2 s;
  s ← char 45 s;
  '(d, s) ← digitsN 2 s;
  if eos s then Some (y, m, d) else None.

End Re.

(* ===================================================================== *)
(** ** Numbers *)
(* ===================================================================== *)

(** An integer-valued Number, or NaN ([None]): what [parseInt], the [Date]
    getters and the month table return. *)
Definition intnum := option Z.

(** A Number: an IEEE-754 binary64 value.  [Finite neg m e] is
    (-1)^neg * m * 2^e, in the normal form the operations below return:
    2^52 <= m < 2^53 and -1074 <= e <= 971, or m < 2^52 and e = -1074
    (subnormal), or zero, [Finite neg 0 0]. *)
Inductive number :=
| NaN
| Infinity (neg : bool)
| Finite (neg : bool) (m : Z) (e : Z).

Module JsNumber.

(** Round the non-negative rational [num / den] to the nearest binary64
    value, ties to even. *)
Definition round_ratio (neg : bool) (num den : Z) : number :=
  if num =? 0 then Finite neg 0 0 else
  let e0 := Z.log2 num - Z.log2 den - 52 in
  let q0 := if 0 <=? e0 then num / (den * 2 ^ e0) else (num * 2 ^ (- e0)) / den in
  let e1 := if q0 <? 2 ^ 52 then e0 - 1 else e0 in
  let e := Z.max e1 (-1074) in
  let n := if 0 <=? e then num else num * 2 ^ (- e) in
  let d := if 0 <=? e then den * 2 ^ e else den in
  let q := n / d in
  let r := n mod d in
  let m := if (d <? 2 * r) || ((d =? 2 * r) && Z.odd q) then q + 1 else q in
  let m' := if m =? 2 ^ 53 then 2 ^ 52 else m in
  let e' := if m =? 2 ^ 53 then e + 1 else e in
  if m' =? 0 then Finite neg 0 0
  else if 971 <? e' then Infinity neg
  else Finite neg m' e'.

(** The Number nearest to an integer. *)
Definition of_Z (z : Z) : number := round_ratio (z <? 0) (Z.abs z) 1.

Definition of_intnum (n : intnum) : number :=
  match n with Some z => of_Z z | None => NaN end.

(** The exact value of a finite Number as a signed numerator over a
    power of two: [m * 2^e = fst / 2^snd]. *)
Definition signed (neg : bool) (m : Z) : Z := if neg then - m else m.

Definition fmul (a b : number) : number :=
  match a, b with
  | NaN, _ | _, NaN => NaN
  | Infinity s, Infinity t => Infinity (xorb s t)
  | Infinity s, Finite t m _ | Finite t m _, Infinity s =>
      if m =? 0 then NaN else Infinity (xorb s t)
  | Finite s m1 e1, Finite t m2 e2 =>
      let e := e1 + e2 in
      if 0 <=? e then round_ratio (xorb s t) (m1 * m2 * 2 ^ e) 1
      else round_ratio (xorb s t) (m1 * m2) (2 ^ (- e))
  end.

Definition fadd (a b : number) : number :=
  match a, b with
  | NaN, _ | _, NaN => NaN
  | Infinity s, Infinity t => if eqb s t then Infinity s else NaN
  | Infinity s, Finite _ _ _ | Finite _ _ _, Infinity s => Infinity s
  | Finite s m1 e1, Finite t m2 e2 =>
      let e := Z.min e1 e2 in
      let v := signed s m1 * 2 ^ (e1 - e) + signed t m2 * 2 ^ (e2 - e) in
      if v =? 0 then Finite (s && t) 0 0
      else if 0 <=? e then round_ratio (v <? 0) (Z.abs v * 2 ^ e) 1
      else round_ratio (v <? 0) (Z.abs v) (2 ^ (- e))
  end.

Definition isNaN (x : number) : bool :=
  match x with NaN => true | _ => false end.

(** Truthiness of a Number: neither zero nor NaN. *)
Definition truthy (x : number) : bool :=
  match x with
  | NaN => false
  | Infinity _ => true
  | Finite _ m _ => negb (m =? 0)
  end.

(** [x > 0]. *)
Definition positive (x : number) : bool :=
  match x with
  | NaN => false
  | Infinity s => negb s
  | Finite s m _ => negb s && negb (m =? 0)
  end.

(** The integer part of a finite Number, truncated towards zero. *)
Definition trunc (neg : bool) (m e : Z) : Z :=
  signed neg (if 0 <=? e then m * 2 ^ e else m / 2 ^ (- e)).

(** Whether [m * 2^e] is an integer. *)
Definition is_integer (m e : Z) : bool :=
  (0 <=? e) || (m mod 2 ^ (- e) =? 0).

(** [10^(n-1) <= num / den < 10^n], searched from an estimate by the
    binary logarithms. *)
Definition le_ratio_pow10 (n num den : Z) : bool :=
  (* 10^n <= num / den *)
  if 0 <=? n then den * 10 ^ n <=? num else den <=? num * 10 ^ (- n).

Fixpoint dec_exp_up (fuel : nat) (n num den : Z) : Z :=
  match fuel with
  | O => n
  | S f => if le_ratio_pow10 n num den then dec_exp_up f (n + 1) num den else n
  end.

Fixpoint dec_exp_down (fuel : nat) (n num den : Z) : Z :=
  match fuel with
  | O => n
  | S f => if le_ratio_pow10 (n - 1) num den then n else dec_exp_down f (n - 1) num den
  end.

Definition dec_exp (num den : Z) : Z :=
  let guess := (Z.log2 num - Z.log2 den) * 30103 / 100000 in
  dec_exp_up 4 (dec_exp_down 4 guess num den) num den.

(** The value [s * 10^p] rounded to binary64. *)
Definition round_dec (neg : bool) (s p : Z) : number :=
  if 0 <=? p then round_ratio neg (s * 10 ^ p) 1 else round_ratio neg s (10 ^ (- p)).

(** Number::toString, steps 5 onwards: the shortest digit string [s]
    (of [k] digits) and exponent [n] with [s * 10^(n-k)] rounding to the
    given positive value [num / den = m * 2^e]. *)
Definition number_eqb (a b : number) : bool :=
  match a, b with
  | Finite s m e, Finite t m' e' => eqb s t && (m =? m') && (e =? e')
  | _, _ => false
  end.

Definition shortest_at (x : number) (num den n k : Z) : option (Z * Z) :=
  let p := n - k in
  (* lo = floor (x / 10^p) *)
  let lo := if 0 <=? p then num / (den * 10 ^ p) else (num * 10 ^ (- p)) / den in
  let hi := lo + 1 in
  let ok c := (10 ^ (k - 1) <=? c) && (c <=? 10 ^ k) && number_eqb (round_dec false c p) x in
  (* distance of c * 10^p to x, scaled by den * 10^max(0,-p) *)
  let dist c :=
    if 0 <=? p then Z.abs (c * 10 ^ p * den - num)
    else Z.abs (c * den - num * 10 ^ (- p)) in
  match ok lo, ok hi with
  | true, true =>
      if dist lo <? dist hi then Some (lo, n)
      else if dist hi <? dist lo then Some (hi, n)
      else if Z.even lo then Some (lo, n) else Some (hi, n)
  | true, false => Some (lo, n)
  | false, true => Some (hi, n)
  | false, false => None
  end.

Fixpoint shortest_from (fuel : nat) (x : number) (num den n k : Z) : Z * Z * Z :=
  match fuel with
  | O => (0, n, k)
  | S f =>
      match shortest_at x num den n k with
      | Some (s, n') =>
          (* a candidate equal to 10^k is the one-digit-shorter 10^(k-1)
             of the next decade *)
          if s =? 10 ^ k then (10 ^ (k - 1), n' + 1, k) else (s, n', k)
      | None => shortest_from f x num den n (k + 1)
      end
  end.

Definition zeros (n : Z) : jsstring := repeat 48 (Z.to_nat n).

(** Number::toString for a positive finite value.  For an integer below
    2^53 the shortest digit string is the decimal expansion itself; other
    values go through the search. *)
Definition toString_pos (m e : Z) : jsstring :=
  if is_integer m e && (trunc false m e <? 2 ^ 53) then digits (trunc false m e)
  else
    let num := if 0 <=? e then m * 2 ^ e else m in
    let den := if 0 <=? e then 1 else 2 ^ (- e) in
    let '(s, n, k) := shortest_from 17 (Finite false m e) num den (dec_exp num den) 1 in
    let ds := digits s in
    if (k <=? n) && (n <=? 21) then ds ++ zeros (n - k)
    else if (0 <? n) && (n <=? 21) then
      take (Z.to_nat n) ds ++ [46] ++ drop (Z.to_nat n) ds
    else if (-6 <? n) && (n <=? 0) then
      [48; 46] ++ zeros (- n) ++ ds
    else
      let ex := n - 1 in
      let exs := (if ex <? 0 then 45 else 43) :: digits (Z.abs ex) in
      match ds with
      | [d] => d :: 101 :: exs
      | d :: rest => d :: 46 :: rest ++ 101 :: exs
      | [] => []
      end.

(** [String(x)], [x.toString()]. *)
Definition toString (x : number) : jsstring :=
  match x with
  | NaN => str "NaN"
  | Infinity neg => if neg then str "-Infinity" else str "Infinity"
  | Finite neg m e =>
      if m =? 0 then str "0"
      else if neg then 45 :: toString_pos m e else toString_pos m e
  end.

(** [x.toFixed(2)]. *)
Definition toFixed2 (x : number) : jsstring :=
  match x with
  | Finite neg m e =>
      let num := if 0 <=? e then m * 2 ^ e else m in
      let den := if 0 <=? e then 1 else 2 ^ (- e) in
      let sign := if neg && negb (m =? 0) then [45] else [] in
      if den * 10 ^ 21 <=? num then sign ++ toString_pos m e
      else
        (* the integer n with n / 100 nearest to x, the larger on a tie *)
        let n := (200 * num + den) / (2 * den) in
        let ds := if n =? 0 then [48] else digits n in
        let ds := repeat 48 (3 - length ds) ++ ds in
        let k := length ds in
        sign ++ take (k - 2) ds ++ [46] ++ drop (k - 2) ds
  | _ => toString x
  end.

(** [String(n)] for an integer-or-NaN. *)
Definition string_of_intnum (n : intnum) : jsstring :=
  match n with Some z => JsString.of_Z z | None => str "NaN" end.

(** StrDecimalLiteral prefix for [parseFloat]: the digits before and
    after the point and the decimal exponent.  [int_part] and
    [frac_part] are digit runs; the exponent is taken only when it is
    well formed. *)
Fixpoint span_digits (s : jsstring) : jsstring * jsstring :=
  match s with
  | c :: r => if is_digit c then let '(d, rest) := span_digits r in (c :: d, rest)
              else ([], s)
  | [] => ([], [])
  end.

Definition exponent_part (s : jsstring) : Z :=
  match s with
  | c :: r =>
      if (c =? 101) || (c =? 69) then
        let '(sgn, r') :=
          match r with
          | x :: r' => if x =? 45 then (-1, r') else if x =? 43 then (1, r') else (1, r)
          | [] => (1, r)
          end in
        let '(d, _) := span_digits r' in
        match d with [] => 0 | _ => sgn * digits_value d end
      else 0
  | [] => 0
  end.

Definition is_prefix (p s : jsstring) : bool :=
  bool_decide (take (length p) s = p).

(** [parseFloat(s)]. *)
Definition parseFloat (s : jsstring) : number :=
  let t := trimStart s in
  let '(neg, u) :=
    match t with
    | c :: r => if c =? 45 then (true, r) else if c =? 43 then (false, r) else (false, t)
    | [] => (false, t)
    end in
  if is_prefix (str "Infinity") u then Infinity neg
  else
    let '(ip, r1) := span_digits u in
    let '(fp, r2) :=
      match r1 with
      | c :: r => if c =? 46 then span_digits r else ([], r1)
      | [] => ([], r1)
      end in
    match ip, fp with
    | [], [] => NaN
    | _, _ =>
        let ex := exponent_part r2 in
        round_dec neg (digits_value (ip ++ fp)) (ex - Z.of_nat (length fp))
    end.

(** [parseInt(s, 10)]: optional sign and the leading digit run; NaN when
    there is none.  (Beyond twenty significant digits ECMA-262 lets an
    engine approximate; the exact integer is kept here, and the
    conversion to binary64 happens in [of_intnum].) *)
Definition parseInt (s : jsstring) : intnum :=
  let t := trimStart s in
  let '(neg, u) :=
    match t with
    | c :: r => if c =? 45 then (true, r) else if c =? 43 then (false, r) else (false, t)
    | [] => (false, t)
    end in
  let '(d, _) := span_digits u in
  match d with
  | [] => None
  | _ => Some (signed neg (digits_value d))
  end.

End JsNumber.

Import JsNumber.

(* ===================================================================== *)
(** ** Dates *)
(* ===================================================================== *)

(** A [Date] object holds a time value, milliseconds since 1970-01-01 UTC,
    or NaN ([None], an invalid date). *)
Definition Date := option Z.

Module JsDate.

Definition msPerDay : Z := 86400000.
Definition msPerMinute : Z := 60000.

Definition Day (t : Z) : Z := t / msPerDay.
Definition TimeWithinDay (t : Z) : Z := t mod msPerDay.

(** Day number of the proleptic Gregorian date [y]-[m]-[d] ([m] from 1),
    counted from 1970-01-01.  The calendar repeats every 400 years
    (146097 days); years are counted from 1 March, so that the leap day
    is the last day of its year. *)
Definition doe_of_civil (yoe m d : Z) : Z :=
  let doy := (153 * (if 2 <? m then m - 3 else m + 9) + 2) / 5 + d - 1 in
  yoe * 365 + yoe / 4 - yoe / 100 + doy.

Definition days_from_civil (y m d : Z) : Z :=
  let y' := if m <=? 2 then y - 1 else y in
  let era := y' / 400 in
  era * 146097 + doe_of_civil (y' - era * 400) m d - 719468.

(** The year of the era (from 1 March), month (from 1) and day of month of
    a day of the 400-year era. *)
Definition civil_of_doe (doe : Z) : Z * Z * Z :=
  let yoe := (doe - doe / 1460 + doe / 36524 - doe / 146096) / 365 in
  let doy := doe - (365 * yoe + yoe / 4 - yoe / 100) in
  let mp := (5 * doy + 2) / 153 in
  let d := doy - (153 * mp + 2) / 5 + 1 in
  let m := if mp <? 10 then mp + 3 else mp - 9 in
  (yoe, m, d).

(** The calendar date (year, month from 1, day of month) of a day
    number. *)
Definition civil_from_days (z : Z) : Z * Z * Z :=
  let z' := z + 719468 in
  let era := z' / 146097 in
  let '(yoe, m, d) := civil_of_doe (z' - era * 146097) in
  (if m <=? 2 then yoe + era * 400 + 1 else yoe + era * 400, m, d).

Definition YearFromTime (t : Z) : Z := fst (fst (civil_from_days (Day t))).
(** Months count from zero, as in ECMA-262. *)
Definition MonthFromTime (t : Z) : Z := snd (fst (civil_from_days (Day t))) - 1.
Definition DateFromTime (t : Z) : Z := snd (civil_from_days (Day t)).

Definition is_leap (y : Z) : bool :=
  ((y mod 4 =? 0) && negb (y mod 100 =? 0)) || (y mod 400 =? 0).

(** Days of month [m] (from 1) in year [y]. *)
Definition DaysInMonth (y m : Z) : Z :=
  if m =? 2 then (if is_leap y then 29 else 28)
  else if (m =? 4) || (m =? 6) || (m =? 9) || (m =? 11) then 30 else 31.

(** MakeDay(year, month, date) with a zero-based month; a month outside
    0..11 and a date outside the month carry over. *)
Definition MakeDay (year month date : Z) : Z :=
  let ym := year + month / 12 in
  let mn := month mod 12 in
  days_from_civil ym (mn + 1) 1 + date - 1.

Definition MakeDate (day time : Z) : Z := day * msPerDay + time.

Definition TimeClip (t : Z) : Date :=
  if Z.abs t <=? 8640000000000000 then Some t else None.

(** [Date.UTC(y, m, d)]. *)
Definition UTC_ms (y m d : Z) : Z := MakeDate (MakeDay y m d) 0.

(** [new Date(x)] for a Number. *)
Definition of_number (x : number) : Date :=
  match x with
  | Finite neg m e => TimeClip (JsNumber.trunc neg m e)
  | _ => None
  end.

(** Local time.  [tz] is the offset of the local zone from UTC in
    minutes (60 for UTC+1, -300 for UTC-5), taken as constant: a zone
    without daylight saving.  Zones with transitions are modelled by
    [Zoned] further down. *)
Definition LocalTime (tz t : Z) : Z := t + tz * msPerMinute.
Definition UTC (tz t : Z) : Z := t - tz * msPerMinute.

(** [new Date(year, month, day)]: midnight local time. *)
Definition of_local (tz : Z) (year month day : intnum) : Date :=
  y ← year; m ← month; d ← day;
  TimeClip (UTC tz (MakeDate (MakeDay y m d) 0)).

(** Whether [y]-[m]-[d] is a date of the calendar. *)
Definition validDate (y m d : Z) : bool :=
  (1 <=? m) && (m <=? 12) && (1 <=? d) && (d <=? DaysInMonth y m).

(** [new Date(s)] for the date-only form [YYYY-MM-DD], the only strings
    this program builds a date from.  The date-only form denotes midnight
    UTC, and the time value is built from the elements by MakeDay.  A
    month outside 1..12 is an invalid date.  For a day beyond the length
    of the month engines differ: some carry a day up to 31 into the next
    month, others give an invalid date; the second reading is taken here.
    The properties below either hold for any result of this function or
    are stated for dates on which both readings agree. *)
Definition of_string (s : jsstring) : Date :=
  '(y, m, d) ← Re.iso_date s;
  let yv := digits_value y in
  let mv := digits_value m in
  let dv := digits_value d in
  if validDate yv mv dv
  then TimeClip (MakeDate (MakeDay yv (mv - 1) dv) 0)
  else None.

Definition getTime (d : Date) : Date := d.

Definition getUTCFullYear (d : Date) : intnum := YearFromTime <$> d.
Definition getUTCMonth (d : Date) : intnum := MonthFromTime <$> d.
Definition getUTCDate (d : Date) : intnum := DateFromTime <$> d.

Definition getFullYear (tz : Z) (d : Date) : intnum :=
  (fun t => YearFromTime (LocalTime tz t)) <$> d.
Definition getMonth (tz : Z) (d : Date) : intnum :=
  (fun t => MonthFromTime (LocalTime tz t)) <$> d.
Definition getDate (tz : Z) (d : Date) : intnum :=
  (fun t => DateFromTime (LocalTime tz t)) <$> d.

(** [d.setDate(dt)]: the date with the day of the month replaced, in
    local time. *)
Definition setDate (tz : Z) (d : Date) (dt : intnum) : Date :=
  t ← d; v ← dt;
  let lt := LocalTime tz t in
  TimeClip (UTC tz (MakeDate (MakeDay (YearFromTime lt) (MonthFromTime lt) v)
                             (TimeWithinDay lt))).

(** [a <= b] on dates: on the time values, false when one is NaN. *)
Definition le (a b : Date) : bool :=
  match a, b with
  | Some x, Some y => x <=? y
  | _, _ => false
  end.

Definition pad (n : nat) (z : Z) : jsstring := padStart0 n (digits z).

(** [d.toISOString()] for a valid date with time value [t]. *)
Definition toISOString (t : Z) : jsstring :=
  let y := YearFromTime t in
  let ys := if (0 <=? y) && (y <=? 9999) then pad 4 y
            else (if y <? 0 then 45 else 43) :: pad 6 (Z.abs y) in
  let w := TimeWithinDay t in
  ys ++ [45] ++ pad 2 (MonthFromTime t + 1) ++ [45] ++ pad 2 (DateFromTime t)
     ++ [84] ++ pad 2 (w / 3600000) ++ [58] ++ pad 2 (w / 60000 mod 60)
     ++ [58] ++ pad 2 (w / 1000 mod 60) ++ [46] ++ pad 3 (w mod 1000) ++ [90].

End JsDate.

Import JsDate.

(* ===================================================================== *)
(** ** The data model of [parsers.ts] *)
(* ===================================================================== *)

(** A raw cell of the decoded grid ([any] in the source): delimited text
    gives strings only, a workbook read with [raw: true] also gives
    numbers and booleans; [CNull] stands for [null] and [undefined]. *)
Inductive cell :=
| CStr (s : jsstring)
| CNum (x : number)
| CBool (b : bool)
| CNull.

(** [interface ParsedData] *)
Record ParsedData := mkParsedData {
  headers : list jsstring;
  data : list (list jsstring);
  categoryIndex : nat;
  dateIndices : list nat;
  (* maps a column index to the expanded dates of a week-range header *)
  expandedDates : gmap nat (list jsstring)
}.

(** [interface TransformOptions] *)
Record TransformOptions := mkOptions {
  currency : jsstring;
  parentId : jsstring;
  periodicity : option jsstring
}.

(** [interface TransformedRow]; the fields are in the order in which the
    object literals of [transformData] list their keys. *)
Record TransformedRow := mkRow {
  amount_currency : jsstring;
  amount_stringValue : jsstring;
  date : jsstring;
  parent_id : jsstring;
  parent_type : jsstring;
  description : jsstring;
  metadata_atlar_category : jsstring
}.

(** The errors thrown by [parseArrayData]. *)
Inductive ParseError :=
| EmptyFile               (* 'File is empty' *)
| MissingCategoryColumn   (* 'No "Category" column found. ...' *)
| NoDateColumns           (* 'No valid date columns found to the right of Category column. ...' *)
| EmptyDataset.           (* 'No data rows found. ...' *)

(* ===================================================================== *)
(** ** The functions of [parsers.ts] *)
(* ===================================================================== *)

(** [formatIsoDate(year, monthZeroBased, day)] *)
Definition formatIsoDate (year monthZeroBased day : intnum) : jsstring :=
  let yyyy := string_of_intnum year in
  let mm := padStart0 2 (string_of_intnum (Z.succ <$> monthZeroBased)) in
  let dd := padStart0 2 (string_of_intnum day) in
  yyyy ++ [45] ++ mm ++ [45] ++ dd.

(** [excelSerialToIso(serial)] *)
Definition excelSerialToIso (serial : number) : jsstring :=
  let MS_PER_DAY := JsNumber.of_Z (24 * 60 * 60 * 1000) in
  let originUtcMs := JsNumber.of_Z (UTC_ms 1899 11 30) in
  let dateUtcMs := fadd originUtcMs (fmul serial MS_PER_DAY) in
  let d := JsDate.of_number dateUtcMs in
  formatIsoDate (getUTCFullYear d) (getUTCMonth d) (getUTCDate d).

(** Truthiness of a raw cell. *)
Definition cell_truthy (c : cell) : bool :=
  match c with
  | CStr s => negb (bool_decide (s = []))
  | CNum x => truthy x
  | CBool b => b
  | CNull => false
  end.

(** [c?.toString() || ''] *)
Definition cell_string (c : cell) : jsstring :=
  match c with
  | CStr s => s
  | CNum x => JsNumber.toString x
  | CBool b => if b then str "true" else str "false"
  | CNull => []
  end.

(** [findCategoryIndex(headers)]; [None] is the source's -1. *)
Fixpoint findIndex {A} (p : A -> bool) (l : list A) : option nat :=
  match l with
  | [] => None
  | x :: r => if p x then Some 0%nat else S <$> findIndex p r
  end.

Definition is_category (header : jsstring) : bool :=
  negb (bool_decide (header = []))
  && bool_decide (trim (toLowerCase header) = str "category").

Definition findCategoryIndex (headers : list jsstring) : option nat :=
  findIndex is_category headers.

(** The header normalization shared by [findDateIndices],
    [parseWeekRange] and [isValidDateHeader]:
    [s.trim().replace(/\s+/g, ' ').replace(/[–—]/g, '-')]. *)
Definition normalize (s : jsstring) : jsstring :=
  normalize_dashes (collapse_ws (trim s)).

(** The [monthMap] object of [parseWeekRange] and [parseDate]. *)
Definition monthMap (key : jsstring) : option Z :=
  snd <$> List.find (fun kv => bool_decide (fst kv = key))
    [ (str "jan", 0); (str "feb", 1); (str "mar", 2); (str "apr", 3);
      (str "may", 4); (str "jun", 5); (str "jul", 6); (str "aug", 7);
      (str "sep", 8); (str "oct", 9); (str "okt", 9); (str "nov", 10);
      (str "dec", 11) ].

(** [rangePattern1]: "Mon DD - Mon DD". *)
Definition rangePattern1 (s : jsstring)
  : option (jsstring * jsstring * jsstring * jsstring) :=
  '(m1, s) ← Re.month s;
  s ← Re.ws1 s;
  '(d1, s) ← Re.digits12 s;
  s ← Re.dash (Re.ws0 s);
  '(m2, s) ← Re.month (Re.ws0 s);
  s ← Re.ws1 s;
  '(d2, s) ← Re.digits12 s;
  if Re.eos s then Some (m1, d1, m2, d2) else None.

(** [rangePattern2]: "Mon DD-DD". *)
Definition rangePattern2 (s : jsstring)
  : option (jsstring * jsstring * jsstring) :=
  '(m1, s) ← Re.month s;
  s ← Re.ws1 s;
  '(d1, s) ← Re.digits12 s;
  s ← Re.dash (Re.ws0 s);
  '(d2, s) ← Re.digits12 (Re.ws0 s);
  if Re.eos s then Some (m1, d1, d2) else None.

(** The first half of [parseWeekRange]: the months and days read from the
    header, [(startMonth, startDay, endMonth, endDay)]; a month is [None]
    when [monthMap] has no entry for it ([undefined]). *)
Definition weekRangeBounds (trimmed : jsstring)
  : option (option Z * intnum * option Z * intnum) :=
  let match1 := rangePattern1 trimmed in
  let match2 := rangePattern2 trimmed in
  match match1, match2 with
  | Some (m1, d1, m2, d2), _ =>
      Some (monthMap (toLowerCase m1), parseInt d1,
            monthMap (toLowerCase m2), parseInt d2)
  | None, Some (m1, d1, d2) =>
      let startMonth := monthMap (toLowerCase m1) in
      Some (startMonth, parseInt d1, startMonth, parseInt d2)
  | None, None => None
  end.

(** The loop [for (d = new Date(start); d <= end; d.setDate(d.getDate() + 1))]
    of [parseWeekRange].  [fuel] bounds the number of iterations. *)
Fixpoint weekRangeLoop (tz : Z) (fuel : nat) (d end_ : Date) : list jsstring :=
  match fuel with
  | O => []
  | S f =>
      if JsDate.le d end_
      then formatIsoDate (getFullYear tz d) (getMonth tz d) (getDate tz d)
           :: weekRangeLoop tz f (setDate tz d (Z.succ <$> getDate tz d)) end_
      else []
  end.

(** One iteration per day from [start] to [end_], and one more to leave. *)
Definition weekRangeFuel (start end_ : Date) : nat :=
  match start, end_ with
  | Some s, Some e => Z.to_nat ((e - s) / msPerDay + 2)
  | _, _ => 1
  end.

(** [parseWeekRange(rangeStr)] *)
Definition parseWeekRange (tz : Z) (rangeStr : jsstring) : option (list jsstring) :=
  let trimmed := normalize rangeStr in
  let year := Some 2025 in
  match weekRangeBounds trimmed with
  | None => None
  | Some (startMonth, startDay, endMonth, endDay) =>
      match startMonth, endMonth with
      | Some _, Some _ =>
          let start := JsDate.of_local tz year startMonth startDay in
          let end_ := JsDate.of_local tz year endMonth endDay in
          let dates := weekRangeLoop tz (weekRangeFuel start end_) start end_ in
          match dates with
          | [] => None
          | _ => Some dates
          end
      | _, _ => None
      end
  end.

(** The [dateFormats] of [isValidDateHeader]. *)
Definition isoShape (s : jsstring) : bool :=        (* /^\d{4}-\d{2}-\d{2}$/ *)
  Re.test (Re.iso_date s).

Definition slashShape (s : jsstring) : bool :=      (* /^\d{2}\/\d{2}\/\d{4}$/ *)
  Re.test ('(_, s) ← Re.digitsN 2 s;
           s ← Re.char 47 s;
           '(_, s) ← Re.digitsN 2 s;
           s ← Re.char 47 s;
           '(_, s) ← Re.digitsN 4 s;
           if Re.eos s then Some () else None).

Definition monthDay (s : jsstring) : option (jsstring * jsstring) :=
  (* /^(Jan|...|dec)\s+(\d{1,2})$/i *)
  '(m, s) ← Re.month s;
  s ← Re.ws1 s;
  '(d, s) ← Re.digits12 s;
  if Re.eos s then Some (m, d) else None.

Definition dateFormats : list (jsstring -> bool) :=
  [ isoShape;                      (* YYYY-MM-DD *)
    slashShape;                    (* DD/MM/YYYY *)
    slashShape;                    (* MM/DD/YYYY *)
    Re.all_digits;                 (* Excel serial number *)
    fun s => Re.test (monthDay s) ].  (* Mon XX *)

(** [isValidDateHeader(header)] *)
Definition isValidDateHeader (tz : Z) (header : jsstring) : bool :=
  if bool_decide (header = []) then false
  else
    let normalized := normalize header in
    match parseWeekRange tz normalized with
    | Some _ => true
    | None => existsb (fun format => format normalized) dateFormats
    end.

(** [findDateIndices(headers, categoryIndex)].  [scanHeaders i hs] is the
    loop from column [i] on, [hs] being the headers from that column; the
    source's [continue] goes on with the next column and its [break]
    returns what has been collected. *)
Fixpoint scanHeaders (tz : Z) (i : nat) (hs : list jsstring)
  : list nat * gmap nat (list jsstring) :=
  match hs with
  | [] => ([], ∅)
  | header :: rest =>
      if bool_decide (header = []) then scanHeaders tz (S i) rest
      else
        let normalizedHeader := normalize header in
        if bool_decide (normalizedHeader = []) then scanHeaders tz (S i) rest
        else if isValidDateHeader tz normalizedHeader then
          let '(indices, expanded) := scanHeaders tz (S i) rest in
          (i :: indices,
           match parseWeekRange tz normalizedHeader with
           | Some weekRange => <[i := weekRange]> expanded
           | None => expanded
           end)
        else ([], ∅)
  end.

Definition findDateIndices (tz : Z) (headers : list jsstring) (categoryIndex : nat)
  : list nat * gmap nat (list jsstring) :=
  scanHeaders tz (S categoryIndex) (drop (S categoryIndex) headers).

(** The header conversion of [parseArrayData]: a numeric header cell is
    rendered as an ISO date when the first four characters of that date
    read as a year in 1900..2100, and as [h?.toString() || ''] otherwise. *)
Definition convertHeader (h : cell) : jsstring :=
  let plain := cell_string h in
  match h with
  | CNum x =>
      if truthy x then
        let iso := excelSerialToIso x in
        match parseInt (take 4 iso) with
        | Some yr => if (1900 <=? yr) && (yr <=? 2100) then iso else plain
        | None => plain
        end
      else plain
  | _ => plain
  end.

(** [parseArrayData(data)] *)
Definition parseArrayData (tz : Z) (grid : list (list cell))
  : ParseError + ParsedData :=
  match grid with
  | [] => inl EmptyFile
  | row0 :: rows =>
      let headers := map convertHeader row0 in
      match findCategoryIndex headers with
      | None => inl MissingCategoryColumn
      | Some categoryIndex =>
          let '(dateIndices, expandedDates) := findDateIndices tz headers categoryIndex in
          match dateIndices with
          | [] => inl NoDateColumns
          | _ =>
              let nonEmptyRows :=
                List.filter (fun row =>
                  existsb (fun c => cell_truthy c
                                    && negb (bool_decide (trim (cell_string c) = []))) row)
                  rows in
              match nonEmptyRows with
              | [] => inl EmptyDataset
              | _ =>
                  inr {| headers := headers;
                         data := map (map cell_string) nonEmptyRows;
                         categoryIndex := categoryIndex;
                         dateIndices := dateIndices;
                         expandedDates := expandedDates |}
              end
          end
      end
  end.

(** [parseDate(dateStr)], the branch for [A/B/YYYY]. *)
Definition slashDate (s : jsstring) : option (jsstring * jsstring * jsstring) :=
  (* /^\d{1,2}\/\d{1,2}\/\d{4}$/ and [split('/')] *)
  '(a, s) ← Re.digits12 s;
  s ← Re.char 47 s;
  '(b, s) ← Re.digits12 s;
  s ← Re.char 47 s;
  '(year, s) ← Re.digitsN 4 s;
  if Re.eos s then Some (a, b, year) else None.

(** [d.toISOString().split('T')[0]] *)
Definition isoDatePart (t : Z) : jsstring :=
  default [] (head (split 84 (toISOString t))).

(** [!isNaN(d.getTime()) && d.getFullYear() == parseInt(year)], and the
    string returned when it holds. *)
Definition acceptDate (tz : Z) (d : Date) (year : jsstring) : option jsstring :=
  match getTime d, getFullYear tz d, parseInt year with
  | Some t, Some y, Some y' => if y =? y' then Some (isoDatePart t) else None
  | _, _, _ => None
  end.

(** [parseDate(dateStr)] *)
Definition parseDate (tz : Z) (dateStr : jsstring) : option jsstring :=
  if bool_decide (dateStr = []) then None
  else
    let trimmed := trim dateStr in
    (* YYYY-MM-DD format (already in correct format) *)
    if isoShape trimmed then Some trimmed
    else
      (* DD/MM/YYYY or MM/DD/YYYY format *)
      let slash :=
        '(a, b, year) ← slashDate trimmed;
        let mmdd := JsDate.of_string (year ++ [45] ++ padStart0 2 a ++ [45] ++ padStart0 2 b) in
        let ddmm := JsDate.of_string (year ++ [45] ++ padStart0 2 b ++ [45] ++ padStart0 2 a) in
        match acceptDate tz mmdd year with
        | Some r => Some r
        | None => acceptDate tz ddmm year
        end in
      match slash with
      | Some r => Some r
      | None =>
          (* Month name + day format *)
          let monthName :=
            '(monthName, day) ← monthDay trimmed;
            monthNum ← monthMap (toLowerCase monthName);
            Some (formatIsoDate (Some 2025) (Some monthNum) (parseInt day)) in
          match monthName with
          | Some r => Some r
          | None =>
              (* Excel serial number *)
              if Re.all_digits trimmed then
                let serialNumber := JsNumber.of_intnum (parseInt trimmed) in
                if positive serialNumber then Some (excelSerialToIso serialNumber)
                else None
              else None
          end
      end.

(** [parseAmount(amountStr)] *)
Definition parseAmount (amountStr : jsstring) : option number :=
  if bool_decide (amountStr = []) then None
  else
    let trimmed := trim amountStr in
    if bool_decide (trimmed = []) then None
    else
      let normalized := replace_first 44 46 trimmed in
      let parsed := parseFloat normalized in
      if isNaN parsed then None else Some parsed.

(** [getCategoryLeaf(category)] *)
Definition getCategoryLeaf (category : jsstring) : jsstring :=
  let parts := split 62 category in
  trim (default [] (last parts)).

(** The body of the inner loop of [transformData]: the records pushed for
    one row and one date column.  A cell or header beyond the end of its
    array reads [undefined], for which [parseAmount] and [parseDate] return
    null. *)
Definition cellRecords (tz : Z) (parsedData : ParsedData) (options : TransformOptions)
    (description : jsstring) (row : list jsstring) (dateIndex : nat)
  : list TransformedRow :=
  match row !! dateIndex ≫= parseAmount with
  | None => []
  | Some parsedAmount =>
      let record d :=
        {| amount_currency := currency options;
           amount_stringValue := toFixed2 parsedAmount;
           date := d;
           parent_id := parentId options;
           parent_type := str "ENTITY";
           description := description;
           metadata_atlar_category := description |} in
      match expandedDates parsedData !! dateIndex with
      | Some (d0 :: ds) => [record (List.last ds d0)]
      | _ =>
          (* Single-date column *)
          match headers parsedData !! dateIndex ≫= parseDate tz with
          | Some (c :: parsedDate) => [record (c :: parsedDate)]
          | _ => []
          end
      end
  end.

(** The body of the outer loop of [transformData]. *)
Definition rowRecords (tz : Z) (parsedData : ParsedData) (options : TransformOptions)
    (row : list jsstring) : list TransformedRow :=
  match trim <$> row !! categoryIndex parsedData with
  | Some (c :: category) =>
      let description := getCategoryLeaf (c :: category) in
      flat_map (cellRecords tz parsedData options description row)
               (dateIndices parsedData)
  | _ => []
  end.

(** [transformData(parsedData, options)] *)
Definition transformData (tz : Z) (parsedData : ParsedData) (options : TransformOptions)
  : list TransformedRow :=
  flat_map (rowRecords tz parsedData options) (data parsedData).

(** The multi-entity mode: currency and entity id are read from columns
    of the grid. *)
Module Multi.

(** [interface ParsedDataMulti] *)
Record ParsedDataMulti := mkParsedDataMulti {
  headers : list jsstring;
  data : list (list jsstring);
  entityIdIndex : nat;
  currencyIndex : nat;
  categoryIndex : nat;
  dateIndices : list nat
}.

(** The body of the inner loop of [transformDataMulti]. *)
Definition cellRecords (tz : Z) (parsed : ParsedDataMulti)
    (currency parentId description : jsstring) (row : list jsstring) (dateIndex : nat)
  : list TransformedRow :=
  let parsedDate := headers parsed !! dateIndex ≫= parseDate tz in
  let parsedAmount := row !! dateIndex ≫= parseAmount in
  match parsedDate, parsedAmount with
  | Some (c :: d), Some amount =>
      [ {| amount_currency := currency;
           amount_stringValue := toFixed2 amount;
           date := c :: d;
           parent_id := parentId;
           parent_type := str "ENTITY";
           description := description;
           metadata_atlar_category := description |} ]
  | _, _ => []
  end.

(** The body of the outer loop of [transformDataMulti]: a row without
    category, currency or entity id is skipped.  ([toUpperCase] is the
    ASCII one of [JsString].) *)
Definition rowRecords (tz : Z) (parsed : ParsedDataMulti) (row : list jsstring)
  : list TransformedRow :=
  match trim <$> row !! categoryIndex parsed with
  | Some (c :: category) =>
      let description := getCategoryLeaf (c :: category) in
      let currency := (fun s => trim (toUpperCase s)) <$> row !! currencyIndex parsed in
      let parentId := trim <$> row !! entityIdIndex parsed in
      match currency, parentId with
      | Some (c1 :: cur), Some (c2 :: pid) =>
          flat_map (cellRecords tz parsed (c1 :: cur) (c2 :: pid) description row)
                   (dateIndices parsed)
      | _, _ => []
      end
  | _ => []
  end.

(** [transformDataMulti(parsed)] *)
Definition transformDataMulti (tz : Z) (parsed : ParsedDataMulti) : list TransformedRow :=
  flat_map (rowRecords tz parsed) (data parsed).

End Multi.

(** [Object.keys(data[0])] for a record built by [transformData]. *)
Definition outputHeaders : list jsstring :=
  map str [ "amount.currency"; "amount.stringValue"; "date"; "parent.id";
            "parent.type"; "description"; "metadata.atlar.category" ]%string.

(** [parseDate(String(row['date'])) || String(row['date'])] *)
Definition normalizedDate (tz : Z) (row : TransformedRow) : jsstring :=
  match parseDate tz (date row) with
  | Some (c :: d) => c :: d
  | _ => date row
  end.

(** The [values] array of one line of [generateCSV]. *)
Definition csvValues (tz : Z) (row : TransformedRow) : list jsstring :=
  [ amount_currency row; amount_stringValue row; normalizedDate tz row;
    parent_id row; parent_type row; description row;
    metadata_atlar_category row ].

(** The array joined with newlines by [generateCSV]: the header line and
    one line of values per record, before the fields are joined. *)
Definition csvTable (tz : Z) (data : list TransformedRow) : list (list jsstring) :=
  outputHeaders :: map (csvValues tz) data.

(** [generateCSV(data)] *)
Definition generateCSV (tz : Z) (data : list TransformedRow) : jsstring :=
  match data with
  | [] => []
  | _ => join [10] (map (join [44]) (csvTable tz data))
  end.

(** [generateExcel(data)], up to [worksheetData]: the rows handed to
    [XLSX.utils.aoa_to_sheet].  The bytes of the workbook are produced from
    them by the xlsx library, which is outside this model; an empty record
    list gives an empty buffer and no sheet ([None]). *)
Definition worksheetData (data : list TransformedRow) : list (list jsstring) :=
  outputHeaders ::
  map (fun row => [ amount_currency row; amount_stringValue row; date row;
                    parent_id row; parent_type row; description row;
                    metadata_atlar_category row ]) data.

Definition generateExcel (data : list TransformedRow) : option (list (list jsstring)) :=
  match data with
  | [] => None
  | _ => Some (worksheetData data)
  end.

(* ===================================================================== *)
(** ** Worked example of the specification *)
(* ===================================================================== *)

Definition exampleGrid : list (list cell) :=
  map (map (fun s => CStr (str s)))
    [ ["Category"; "2025-01-01"; "2025-01-02"; "2025-01-03"];
      ["Marketing>Ads"; "1200"; "800"; ""];
      ["Ops>Office"; "150"; ""; ""];
      ["R&D>Hosting"; ""; "100,50"; "200"] ]%string.

Definition exampleOptions : TransformOptions :=
  {| currency := str "SEK"; parentId := str "ENTITY_ID"; periodicity := None |}.

(** A record written the way the specification lists it. *)
Definition record (cur amount day parent ptype descr cat : string) : TransformedRow :=
  mkRow (str cur) (str amount) (str day) (str parent) (str ptype) (str descr) (str cat).


(** A header row with two columns labelled "Category". *)
Definition duplicateCategoryGrid : list (list cell) :=
  map (map (fun s => CStr (str s)))
    [ ["Category"; "2025-01-01"; " CATEGORY "];
      ["Ops>Office"; "150"; "x"] ]%string.

(* ===================================================================== *)
(** ** Notions used in the statements *)
(* ===================================================================== *)

(** The three outcomes of a header in the scan of [findDateIndices]: a
    header that is empty after normalization is a gap, one that
    [isValidDateHeader] accepts is a date column, any other ends the
    scan. *)
Definition blankHeader (h : jsstring) : bool := bool_decide (normalize h = []).

Definition dateHeader (tz : Z) (h : jsstring) : bool :=
  negb (blankHeader h) && isValidDateHeader tz (normalize h).

Definition terminator (tz : Z) (h : jsstring) : bool :=
  negb (blankHeader h) && negb (isValidDateHeader tz (normalize h)).

Definition digitsOnly (s : jsstring) : Prop := Forall (fun c => is_digit c = true) s.
Definition spaceOnly (s : jsstring) : Prop := Forall (fun c => is_ws c = true) s.

(** The characters of a month abbreviation are ASCII letters. *)
Definition is_letter (c : Z) : bool :=
  ((65 <=? c) && (c <=? 90)) || ((97 <=? c) && (c <=? 122)).

(** The seven field values of a record, in output order. *)
Definition recordValues (row : TransformedRow) : list jsstring :=
  [ amount_currency row; amount_stringValue row; date row; parent_id row;
    parent_type row; description row; metadata_atlar_category row ].

(** Number of commas in a string, and in a list of fields. *)
Definition commas (s : jsstring) : nat := length (List.filter (Z.eqb 44) s).

Definition commasIn (fields : list jsstring) : nat :=
  fold_right (fun f n => (commas f + n)%nat) 0%nat fields.

(** A date string as the transformer emits it: it contains a hyphen and
    no whitespace. *)
Definition noSpace (s : jsstring) : Prop := Forall (fun c => is_ws c = false) s.

Definition canonicalDate (s : jsstring) : Prop := 45 ∈ s /\ noSpace s.

(** The schema invariant used by the serializers: every expansion stored
    for a column consists of emitted-style dates. *)
Definition expansionsCanonical (parsed : ParsedData) : Prop :=
  forall j ds, expandedDates parsed !! j = Some ds -> Forall canonicalDate ds.

(** A number below one hundred as two decimal digits. *)
Definition twoDigits (n : Z) : jsstring := [48 + n / 10; 48 + n mod 10].

(** The example grid as [parseArrayData] returns it. *)
Definition exampleParsed : ParsedData :=
  {| headers := map str ["Category"; "2025-01-01"; "2025-01-02"; "2025-01-03"]%string;
     data := map (map str)
               [ ["Marketing>Ads"; "1200"; "800"; ""];
                 ["Ops>Office"; "150"; ""; ""];
                 ["R&D>Hosting"; ""; "100,50"; "200"] ]%string;
     categoryIndex := 0;
     dateIndices := [1; 2; 3]%nat;
     expandedDates := ∅ |}.

(** The ISO text of a day number (days since 1970-01-01). *)
Definition isoOfDay (z : Z) : jsstring :=
  let '(y, m, d) := civil_from_days z in
  formatIsoDate (Some y) (Some (m - 1)) (Some d).

(** The calendar successor of a date (year, month from 1, day). *)
Definition nextDay (ymd : Z * Z * Z) : Z * Z * Z :=
  let '(y, m, d) := ymd in
  if d <? DaysInMonth y m then (y, m, d + 1)
  else if m <? 12 then (y, m + 1, 1)
  else (y + 1, 1, 1).

(** The day numbers a week-range header can reach: [new Date(2025, m, d)]
    with a month 0..11 and a day 0..99 lies between 2024-12-31 and
    2026-03-09. *)
Definition weekLo : Z := 20088.
Definition weekHi : Z := 20521.

(** A grid with week-range, month-name and serial headers. *)
Definition weekGrid : list (list cell) :=
  map (map (fun s => CStr (str s)))
    [ ["Category"; "Oct 27 - Nov 2"; "Nov 3-9"; "Oct 30"; "45658"];
      ["Ops>Office"; "10"; "20,5"; "30"; "40"] ]%string.

(** The year test of the header conversion in [parseArrayData]:
    [yr >= 1900 && yr <= 2100] with [yr = parseInt(iso.slice(0, 4), 10)]. *)
Definition headerYearInRange (x : number) : bool :=
  match parseInt (take 4 (excelSerialToIso x)) with
  | Some yr => (1900 <=? yr) && (yr <=? 2100)
  | None => false
  end.

(** A header row with a numeric serial that composes to the year 2173. *)
Definition serialGrid : list (list cell) :=
  [ [CStr (str "Category"); CNum (JsNumber.of_Z 100000)];
    [CStr (str "Ops>Office"); CStr (str "5")] ].

(** The zero-padded ISO text of a calendar date. *)
Definition isoText (y m d : Z) : jsstring :=
  JsDate.pad 4 y ++ [45] ++ JsDate.pad 2 m ++ [45] ++ JsDate.pad 2 d.

(** A slash date [A/B/YYYY] written from its three digit groups. *)
Definition slashText (a b y : jsstring) : jsstring := a ++ 47 :: b ++ 47 :: y.

(** One or two digits. *)
Definition oneOrTwoDigits (d : jsstring) : Prop :=
  digitsOnly d /\ (length d = 1 \/ length d = 2)%nat.

(* ===================================================================== *)
(** ** The multi-entity parser and the file dispatch *)
(* ===================================================================== *)

(** The row filter of [parseArrayData] and [parseArrayDataMulti]:
    [row.some(cell => cell && cell.toString().trim() !== '')]. *)
Definition isNonEmptyRow (row : list cell) : bool :=
  existsb (fun c => cell_truthy c && negb (bool_decide (trim (cell_string c) = []))) row.

Module MultiParser.

(** The errors thrown by [parseArrayDataMulti]. *)
Inductive ParseError :=
| EmptyFile               (* 'File is empty' *)
| MissingEntityIdColumn   (* 'No "Entity ID" column found.' *)
| MissingCurrencyColumn   (* 'No "Currency" column found.' *)
| MissingCategoryColumn   (* 'No "Category" column found.' *)
| NoDateColumns           (* 'No valid date columns found to the right of Category column.' *)
| EmptyDataset.           (* 'No data rows found.' *)

(** The three label tests, on a header already lowered and trimmed.  (As
    for "category", no label has a [k], so the lowering of letters outside
    ASCII does not show.) *)
Definition is_entity_id (h : jsstring) : bool :=
  bool_decide (h = str "entity id") || bool_decide (h = str "entity_id")
  || bool_decide (h = str "parent.id").

Definition is_currency (h : jsstring) : bool :=
  bool_decide (h = str "currency") || bool_decide (h = str "amount.currency").

Definition is_category_label (h : jsstring) : bool :=
  bool_decide (h = str "category").

(** [headers.map(h => h.toLowerCase().trim())] *)
Definition lowerHeaders (headers : list jsstring) : list jsstring :=
  map (fun h => trim (toLowerCase h)) headers.

(** [parseArrayDataMulti(data)] *)
Definition parseArrayDataMulti (tz : Z) (grid : list (list cell))
  : ParseError + Multi.ParsedDataMulti :=
  match grid with
  | [] => inl EmptyFile
  | row0 :: rows =>
      let headers := map convertHeader row0 in
      let lower := lowerHeaders headers in
      let entityIdIndex := findIndex is_entity_id lower in
      let currencyIndex := findIndex is_currency lower in
      let categoryIndex := findIndex is_category_label lower in
      match entityIdIndex, currencyIndex, categoryIndex with
      | None, _, _ => inl MissingEntityIdColumn
      | Some _, None, _ => inl MissingCurrencyColumn
      | Some _, Some _, None => inl MissingCategoryColumn
      | Some entityIdIndex, Some currencyIndex, Some categoryIndex =>
          let dateIndices := (findDateIndices tz headers categoryIndex).1 in
          match dateIndices with
          | [] => inl NoDateColumns
          | _ =>
              let nonEmptyRows := List.filter isNonEmptyRow rows in
              match nonEmptyRows with
              | [] => inl EmptyDataset
              | _ =>
                  inr (Multi.mkParsedDataMulti
                         headers
                         (map (map cell_string) nonEmptyRows)
                         entityIdIndex currencyIndex categoryIndex dateIndices)
              end
          end
      end
  end.

End MultiParser.

(** [s.endsWith(p)] *)
Definition endsWith (s p : jsstring) : bool :=
  (length p <=? length s)%nat && bool_decide (drop (length s - length p) s = p).

(** The parser [parseFile] and [parseFileMulti] choose from the file name:
    the workbook reader, the delimited-text reader, or none ('Unsupported
    file format. Please use CSV or XLSX files.').  Reading the file and
    decoding it into a grid (FileReader, xlsx, papaparse) is outside this
    model. *)
Inductive FileFormat := Workbook | Delimited.

Definition fileFormat (name : jsstring) : option FileFormat :=
  if endsWith name (str ".xlsx") || endsWith name (str ".xls") then Some Workbook
  else if endsWith name (str ".csv") then Some Delimited
  else None.

(** [validateFile(file)] of [FileUpload.tsx], with the default
    [acceptedTypes] and [maxSize] (in MB) of the component, which is how
    the page uses it.  [None] is the source's [true]; an error is what
    [onError] is called with before [false] is returned. *)
Inductive UploadError :=
| InvalidFileType   (* 'Invalid file type. Please upload a ... file.' *)
| FileTooLarge.     (* 'File too large. Please upload a file smaller than ...MB.' *)

Definition acceptedTypes : list jsstring := map str [".csv"; ".xlsx"; ".xls"]%string.

Definition maxSize : Z := 10.

Definition validateFile (name : jsstring) (size : Z) : option UploadError :=
  let fileExtension := 46 :: toLowerCase (default [] (last (split 46 name))) in
  if negb (bool_decide (fileExtension ∈ acceptedTypes)) then Some InvalidFileType
  else if maxSize * 1024 * 1024 <? size then Some FileTooLarge
  else None.

(* ===================================================================== *)
(** ** Further notions used in the statements *)
(* ===================================================================== *)

(** A raw cell that counts as empty for the row filter: [null], the empty
    or a whitespace-only string, [false], and the numbers zero and NaN. *)
Definition blankCell (c : cell) : bool :=
  match c with
  | CStr s => bool_decide (trim s = [])
  | CNum NaN => true
  | CNum (Infinity _) => false
  | CNum (Finite _ m _) => m =? 0
  | CBool b => negb b
  | CNull => true
  end.

(** The value [m * 2^e] of a finite Number is below [10^21]. *)
Definition below1e21 (m e : Z) : bool :=
  if 0 <=? e then m * 2 ^ e <? 10 ^ 21 else m <? 10 ^ 21 * 2 ^ (- e).

(** A delimited text read back the plain way: lines at line feeds, fields
    at commas. *)
Definition readBack (text : jsstring) : list (list jsstring) :=
  map (split 44) (split 10 text).

(** A field that can be written without quoting: no comma and no line
    feed. *)
Definition plainField (f : jsstring) : Prop := (44 ∉ f) /\ (10 ∉ f).

(** One or more whitespace characters. *)
Definition someSpace (w : jsstring) : Prop := w <> [] /\ spaceOnly w.

(** The last day serial whose date is in the year 2100 (2100-12-31), and
    the last one within the range of [Date] (+275760-09-13). *)
Definition lastSerial2100 : Z := 73415.
Definition lastSerial : Z := 100025569.

(** A string that does not start with whitespace. *)
Definition headOk (s : jsstring) : Prop :=
  match s with c :: _ => is_ws c = false | [] => True end.

(** The character map of [normalize_dashes]. *)
Definition undash (c : Z) : Z := if (c =? en_dash) || (c =? em_dash) then 45 else c.

(** A multi-entity sheet: identifying columns left of the category column,
    a single-date column and a week-range column. *)
Definition exampleMultiGrid : list (list cell) :=
  map (map (fun s => CStr (str s)))
    [ ["Entity ID"; "Currency"; "Category"; "2025-01-01"; "Nov 3-9"];
      ["ACME "; " sek"; "Ops>Office"; "150"; "7"] ]%string.

Definition exampleMultiParsed : Multi.ParsedDataMulti :=
  Multi.mkParsedDataMulti
    (map str ["Entity ID"; "Currency"; "Category"; "2025-01-01"; "Nov 3-9"]%string)
    [map str ["ACME "; " sek"; "Ops>Office"; "150"; "7"]%string]
    0 1 2 [3; 4]%nat.

(** The same sheet with the identifying columns between the category
    column and the date columns. *)
Definition misplacedMultiGrid : list (list cell) :=
  map (map (fun s => CStr (str s)))
    [ ["Category"; "Entity ID"; "Currency"; "2025-01-01"];
      ["Ops>Office"; "ACME"; "SEK"; "150"] ]%string.

(** The characters of a month-and-day text: letters, whitespace, digits. *)
Definition monthDayChar (c : Z) : Prop := is_letter c || is_ws c || is_digit c = true.

(** [P] holds on the [fuel] integers from [lo] on (a check that runs in
    linear time). *)
Fixpoint allFrom (P : Z -> bool) (lo : Z) (fuel : nat) : bool :=
  match fuel with
  | O => true
  | S f => P lo && allFrom P (lo + 1) f
  end.

(** The year of a day of the 400-year era, counted from January. *)
Definition yearOfDoe (doe : Z) : Z :=
  let '(yoe, m, _) := civil_of_doe doe in if m <=? 2 then yoe + 1 else yoe.

(** The year of the day before is the same year, except on 1 January. *)
Definition yearBefore (doe : Z) : bool :=
  let '(_, m, d) := civil_of_doe doe in
  yearOfDoe (doe - 1) =? (if (m =? 1) && (d =? 1) then yearOfDoe doe - 1 else yearOfDoe doe).

(** Midnight UTC of 1 January is still the old year west of UTC. *)
Definition oldYearInZone (tz M D : Z) : bool := (tz <? 0) && (M =? 1) && (D =? 1).

(* ===================================================================== *)
(** ** Local time in a zone with daylight saving *)
(* ===================================================================== *)

(** A time zone as ECMA-262 reads it from the host: the offset from UTC
    (in minutes) in force before the first transition, and the
    transitions in ascending order, each the time value at which a new
    offset begins.  A zone without transitions is the constant offset of
    [JsDate.LocalTime]. *)
Record Zone := mkZone {
  baseOffset : Z;
  transitions : list (Z * Z)
}.

Definition fixedZone (tz : Z) : Zone := mkZone tz [].

Module Zoned.

Fixpoint offsetFrom (o : Z) (ts : list (Z * Z)) (t : Z) : Z :=
  match ts with
  | [] => o
  | (start, o') :: rest => if t <? start then o else offsetFrom o' rest t
  end.

(** The offset in force at the time value [t]. *)
Definition offsetAt (z : Zone) (t : Z) : Z :=
  offsetFrom (baseOffset z) (transitions z) t.

(** LocalTime(t) *)
Definition LocalTime (z : Zone) (t : Z) : Z := t + offsetAt z t * msPerMinute.

(** The time values whose local time is [lt]: one for a plain local time,
    two for a local time repeated when the clock is set back, none for a
    local time skipped when it is set forward. *)
Definition possibleInstants (z : Zone) (lt : Z) : list Z :=
  List.filter (fun u => LocalTime z u =? lt)
    (map (fun o => lt - o * msPerMinute) (baseOffset z :: map snd (transitions z))).

(** The offset in force before the transition that skips the local time
    [lt]. *)
Fixpoint skippedOffset (o : Z) (ts : list (Z * Z)) (lt : Z) : Z :=
  match ts with
  | [] => o
  | (start, o') :: rest =>
      if (start + o * msPerMinute <=? lt) && (lt <? start + o' * msPerMinute) then o
      else skippedOffset o' rest lt
  end.

(** UTC(t) for a local time value: the earliest of its time values; a
    skipped local time is read with the offset in force before the
    transition, which lands after the gap. *)
Definition UTC (z : Zone) (lt : Z) : Z :=
  match possibleInstants z lt with
  | u :: us => fold_right Z.min u us
  | [] => lt - skippedOffset (baseOffset z) (transitions z) lt * msPerMinute
  end.

(** [new Date(year, month, day)] *)
Definition of_local (z : Zone) (year month day : intnum) : Date :=
  y ← year; m ← month; d ← day;
  TimeClip (UTC z (MakeDate (MakeDay y m d) 0)).

Definition getFullYear (z : Zone) (d : Date) : intnum :=
  (fun t => YearFromTime (LocalTime z t)) <$> d.
Definition getMonth (z : Zone) (d : Date) : intnum :=
  (fun t => MonthFromTime (LocalTime z t)) <$> d.
Definition getDate (z : Zone) (d : Date) : intnum :=
  (fun t => DateFromTime (LocalTime z t)) <$> d.

(** [d.setDate(dt)] *)
Definition setDate (z : Zone) (d : Date) (dt : intnum) : Date :=
  t ← d; v ← dt;
  let lt := LocalTime z t in
  TimeClip (UTC z (MakeDate (MakeDay (YearFromTime lt) (MonthFromTime lt) v)
                            (TimeWithinDay lt))).

(** The loop of [parseWeekRange]. *)
Fixpoint weekRangeLoop (z : Zone) (fuel : nat) (d end_ : Date) : list jsstring :=
  match fuel with
  | O => []
  | S f =>
      if JsDate.le d end_
      then formatIsoDate (getFullYear z d) (getMonth z d) (getDate z d)
           :: weekRangeLoop z f (setDate z d (Z.succ <$> getDate z d)) end_
      else []
  end.

(** [parseWeekRange(rangeStr)] *)
Definition parseWeekRange (z : Zone) (rangeStr : jsstring) : option (list jsstring) :=
  let trimmed := normalize rangeStr in
  let year := Some 2025 in
  match weekRangeBounds trimmed with
  | None => None
  | Some (startMonth, startDay, endMonth, endDay) =>
      match startMonth, endMonth with
      | Some _, Some _ =>
          let start := of_local z year startMonth startDay in
          let end_ := of_local z year endMonth endDay in
          let dates := weekRangeLoop z (weekRangeFuel start end_) start end_ in
          match dates with
          | [] => None
          | _ => Some dates
          end
      | _, _ => None
      end
  end.

(** [isValidDateHeader(header)] *)
Definition isValidDateHeader (z : Zone) (header : jsstring) : bool :=
  if bool_decide (header = []) then false
  else
    let normalized := normalize header in
    match parseWeekRange z normalized with
    | Some _ => true
    | None => existsb (fun format => format normalized) dateFormats
    end.

(** The loop of [findDateIndices]. *)
Fixpoint scanHeaders (z : Zone) (i : nat) (hs : list jsstring)
  : list nat * gmap nat (list jsstring) :=
  match hs with
  | [] => ([], ∅)
  | header :: rest =>
      if bool_decide (header = []) then scanHeaders z (S i) rest
      else
        let normalizedHeader := normalize header in
        if bool_decide (normalizedHeader = []) then scanHeaders z (S i) rest
        else if isValidDateHeader z normalizedHeader then
          let '(indices, expanded) := scanHeaders z (S i) rest in
          (i :: indices,
           match parseWeekRange z normalizedHeader with
           | Some weekRange => <[i := weekRange]> expanded
           | None => expanded
           end)
        else ([], ∅)
  end.

(** [findDateIndices(headers, categoryIndex)] *)
Definition findDateIndices (z : Zone) (headers : list jsstring) (categoryIndex : nat)
  : list nat * gmap nat (list jsstring) :=
  scanHeaders z (S categoryIndex) (drop (S categoryIndex) headers).

(** [parseArrayData(data)] *)
Definition parseArrayData (z : Zone) (grid : list (list cell))
  : ParseError + ParsedData :=
  match grid with
  | [] => inl EmptyFile
  | row0 :: rows =>
      let headers := map convertHeader row0 in
      match findCategoryIndex headers with
      | None => inl MissingCategoryColumn
      | Some categoryIndex =>
          let '(dateIndices, expandedDates) := findDateIndices z headers categoryIndex in
          match dateIndices with
          | [] => inl NoDateColumns
          | _ =>
              let nonEmptyRows := List.filter isNonEmptyRow rows in
              match nonEmptyRows with
              | [] => inl EmptyDataset
              | _ =>
                  inr {| headers := headers;
                         data := map (map cell_string) nonEmptyRows;
                         categoryIndex := categoryIndex;
                         dateIndices := dateIndices;
                         expandedDates := expandedDates |}
              end
          end
      end
  end.

End Zoned.

(** Africa/Cairo in 2025: UTC+2, with daylight saving (UTC+3) from
    Friday 25 April, 00:00 local time (2025-04-24T22:00Z), when the clock
    goes to 01:00, until Thursday 30 October, 24:00 local time
    (2025-10-30T21:00Z). *)
Definition cairo : Zone :=
  mkZone 120 [ (UTC_ms 2025 3 24 + 22 * 3600000, 180);
               (UTC_ms 2025 9 30 + 21 * 3600000, 120) ].

(** A sheet with one week-range column, for the week of 21 April. *)
Definition aprilGrid : list (list cell) :=
  map (map (fun s => CStr (str s)))
    [ ["Category"; "Apr 21 - Apr 27"];
      ["Ops>Office"; "10"] ]%string.

(** A sheet whose category leaf contains a comma. *)
Definition commaGrid : list (list cell) :=
  map (map (fun s => CStr (str s)))
    [ ["Category"; "2025-01-01"];
      ["Costs>Rent, utilities"; "100"] ]%string.

(** Characters of the ASCII range, where [toUpperCase] changes the
    letters a to z and nothing else. *)
Definition asciiOnly (s : jsstring) : Prop := Forall (fun c => 0 <= c < 128) s.

(** The currency cells of a multi-entity sheet are ASCII. *)
Definition asciiCurrencies (parsed : Multi.ParsedDataMulti) : Prop :=
  Forall (fun row => forall cur, row !! Multi.currencyIndex parsed = Some cur -> asciiOnly cur)
         (Multi.data parsed).

(** C1. The grid of the specification, parsed and transformed with
    currency SEK and parent id ENTITY_ID, gives exactly the five records
    of the specification, in that order, whatever the local time zone. *)
Theorem end_to_end_example :
  forall tz, exists parsed,
    parseArrayData tz exampleGrid = inr parsed /\
    transformData tz parsed exampleOptions =
      [ record "SEK" "1200.00" "2025-01-01" "ENTITY_ID" "ENTITY" "Ads" "Ads";
        record "SEK" "800.00" "2025-01-02" "ENTITY_ID" "ENTITY" "Ads" "Ads";
        record "SEK" "150.00" "2025-01-01" "ENTITY_ID" "ENTITY" "Office" "Office";
        record "SEK" "100.50" "2025-01-02" "ENTITY_ID" "ENTITY" "Hosting" "Hosting";
        record "SEK" "200.00" "2025-01-03" "ENTITY_ID" "ENTITY" "Hosting" "Hosting" ].
Proof.
  intros tz. eexists. split.
  - vm_compute. reflexivity.
  - vm_compute. reflexivity.
Qed.

(* ===================================================================== *)
(** ** The category column *)
(* ===================================================================== *)

Section FindIndex.
Context {A : Type} (p : A -> bool).

Lemma findIndex_None (l : list A) :
  findIndex p l = None -> Forall (fun x => p x = false) l.
Proof.
  induction l as [|x l IH]; simpl; [constructor|].
  destruct (p x) eqn:Hx; [discriminate|].
  destruct (findIndex p l); [discriminate|].
  intros _. constructor; auto.
Qed.

Lemma findIndex_Some (l : list A) (i : nat) :
  findIndex p l = Some i ->
  (exists x, l !! i = Some x /\ p x = true) /\
  Forall (fun x => p x = false) (take i l).
Proof.
  revert i. induction l as [|x l IH]; simpl; intros i; [discriminate|].
  destruct (p x) eqn:Hx.
  - intros [= <-]. split; [exists x; auto | constructor].
  - destruct (findIndex p l) as [k|] eqn:Hk; [|discriminate].
    intros [= <-]. destruct (IH k eq_refl) as [Hhit Hbefore].
    split; [exact Hhit | simpl; constructor; auto].
Qed.
End FindIndex.

(** C6 (as the code has it).  The category column is the first column of
    the converted header row whose trimmed, lower-cased label is
    "category".  Parsing fails with [MissingCategoryColumn] exactly when no
    column carries the label; when one does, no column to its left carries
    it, the parse can only fail for want of date columns or of data rows,
    and a successful parse records that first column. *)
Theorem category_column_is_first_match :
  forall tz row0 rows,
    let hs := map convertHeader row0 in
    match findCategoryIndex hs with
    | None =>
        Forall (fun h => is_category h = false) hs /\
        parseArrayData tz (row0 :: rows) = inl MissingCategoryColumn
    | Some i =>
        (exists h, hs !! i = Some h /\ is_category h = true) /\
        Forall (fun h => is_category h = false) (take i hs) /\
        match parseArrayData tz (row0 :: rows) with
        | inr parsed => categoryIndex parsed = i /\ headers parsed = hs
        | inl e => e = NoDateColumns \/ e = EmptyDataset
        end
    end.
Proof.
  intros tz row0 rows hs.
  destruct (findCategoryIndex hs) as [i|] eqn:Hfind.
  - destruct (findIndex_Some _ _ _ Hfind) as [Hhit Hbefore].
    split; [exact Hhit|]. split; [exact Hbefore|].
    unfold parseArrayData. fold hs. rewrite Hfind.
    destruct (findDateIndices tz hs i) as [[|j js] ex]; [left; reflexivity|].
    match goal with |- context [List.filter ?f rows] => destruct (List.filter f rows) end.
    + right; reflexivity.
    + simpl. split; reflexivity.
  - split; [apply findIndex_None; exact Hfind|].
    unfold parseArrayData. fold hs. rewrite Hfind. reflexivity.
Qed.

(** C6, the claim as written fails: a header row with a second "Category"
    column is parsed without error. *)
Lemma duplicate_category_is_accepted :
  ~ (forall tz row0 rows,
       (1 < length (List.filter is_category (map convertHeader row0)))%nat ->
       exists e, parseArrayData tz (row0 :: rows) = inl e).
Proof.
  intros claim.
  destruct (claim 0 (map (fun s => CStr (str s)) ["Category"; "2025-01-01"; " CATEGORY "]%string)
                  (tail duplicateCategoryGrid)) as [e He].
  - vm_compute. lia.
  - vm_compute in He. discriminate He.
Qed.

(* ===================================================================== *)
(** ** The amount resolver *)
(* ===================================================================== *)

(** C7 (as the code has it).  [parseAmount] returns null or a Number that
    is not NaN; the Number may be an infinity.  A string that is empty
    after trimming gives null; otherwise the first comma is replaced by a
    point, the result is read by [parseFloat], and NaN gives null.  A
    missing cell ([undefined]) gives null as well. *)
Theorem parseAmount_null_or_not_NaN :
  forall s,
    (parseAmount s = None \/ exists x, parseAmount s = Some x /\ isNaN x = false) /\
    parseAmount s =
      (if bool_decide (trim s = []) then None
       else let parsed := parseFloat (replace_first 44 46 (trim s)) in
            if isNaN parsed then None else Some parsed) /\
    parseAmount (str "100,50") = Some (Finite false 7072058789855232 (-46)) /\
    toFixed2 (Finite false 7072058789855232 (-46)) = str "100.50" /\
    parseAmount (str "1,5,7") = parseAmount (str "1.5") /\
    parseAmount (str "") = None /\
    parseAmount (str "   ") = None /\
    parseAmount (str "abc") = None /\
    parseAmount (str "Infinity") = Some (Infinity false) /\
    (@None jsstring) ≫= parseAmount = None.
Proof.
  intros s. split; [|split].
  - unfold parseAmount.
    destruct (bool_decide (s = [])); [left; reflexivity|].
    destruct (bool_decide (trim s = [])); [left; reflexivity|].
    destruct (isNaN (parseFloat _)) eqn:Hn; [left; reflexivity|].
    right. eexists. split; [reflexivity | exact Hn].
  - unfold parseAmount.
    destruct (bool_decide_reflect (s = [])) as [->|Hs]; [reflexivity|].
    reflexivity.
  - repeat split; vm_compute; reflexivity.
Qed.

(** C7, the claim as written fails: the result need not be finite. *)
Lemma parseAmount_can_be_infinite :
  ~ (forall s, parseAmount s = None \/
               exists neg m e, parseAmount s = Some (Finite neg m e)).
Proof.
  intros claim. destruct (claim (str "Infinity")) as [H|(neg & m & e & H)];
    vm_compute in H; discriminate H.
Qed.

(* ===================================================================== *)
(** ** The date-column scan *)
(* ===================================================================== *)

Section Scan.
Variable tz : Z.

Lemma normalize_nil : normalize [] = [].
Proof. reflexivity. Qed.

(** One step of the scan, by the outcome of the header. *)
Lemma scanHeaders_cons (i : nat) (h : jsstring) (rest : list jsstring) :
  (scanHeaders tz i (h :: rest)).1 =
    if blankHeader h then (scanHeaders tz (S i) rest).1
    else if isValidDateHeader tz (normalize h)
         then i :: (scanHeaders tz (S i) rest).1
         else [].
Proof.
  simpl. unfold blankHeader.
  destruct (bool_decide_reflect (h = [])) as [->|Hh].
  - rewrite normalize_nil. reflexivity.
  - destruct (bool_decide (normalize h = [])); [reflexivity|].
    destruct (isValidDateHeader tz (normalize h)); [|reflexivity].
    destruct (scanHeaders tz (S i) rest). reflexivity.
Qed.

Lemma scanHeaders_bounds (hs : list jsstring) :
  forall k, Forall (fun i => (k <= i)%nat) (scanHeaders tz k hs).1.
Proof.
  induction hs as [|h rest IH]; intros k; [constructor|].
  rewrite scanHeaders_cons.
  destruct (blankHeader h).
  - eapply Forall_impl; [apply IH|]. simpl; intros; lia.
  - destruct (isValidDateHeader tz (normalize h)); [|constructor].
    constructor; [lia|]. eapply Forall_impl; [apply IH|]. simpl; intros; lia.
Qed.

Lemma scanHeaders_sorted (hs : list jsstring) :
  forall k, StronglySorted lt (scanHeaders tz k hs).1.
Proof.
  induction hs as [|h rest IH]; intros k; [constructor|].
  rewrite scanHeaders_cons.
  destruct (blankHeader h); [apply IH|].
  destruct (isValidDateHeader tz (normalize h)); [|constructor].
  constructor; [apply IH|].
  eapply Forall_impl; [apply (scanHeaders_bounds rest (S k))|]. simpl; intros; lia.
Qed.

Lemma scanHeaders_elem (hs : list jsstring) :
  forall k n,
    (k + n)%nat ∈ (scanHeaders tz k hs).1 <->
    (exists h, hs !! n = Some h /\ dateHeader tz h = true) /\
    Forall (fun h => terminator tz h = false) (take n hs).
Proof.
  induction hs as [|h rest IH]; intros k n.
  - simpl. split.
    + intros H. inversion H.
    + intros [(h & Hh & _) _]. rewrite lookup_nil in Hh. discriminate.
  - rewrite scanHeaders_cons. unfold dateHeader, terminator.
    destruct n as [|n].
    + replace (k + 0)%nat with k by lia. simpl.
      destruct (blankHeader h) eqn:Hb; simpl.
      * split.
        -- intros Hin. pose proof (scanHeaders_bounds rest (S k)) as Hle.
           rewrite Forall_forall in Hle. apply Hle in Hin. lia.
        -- intros [(h' & [= <-] & Hd) _]. rewrite Hb in Hd. discriminate.
      * destruct (isValidDateHeader tz (normalize h)) eqn:Hv.
        -- split; [intros _|intros _; left].
           split; [exists h; rewrite Hb, Hv; auto | constructor].
        -- split; [intros H; inversion H|].
           intros [(h' & [= <-] & Hd) _]. rewrite Hb, Hv in Hd. discriminate.
    + replace (k + S n)%nat with (S k + n)%nat by lia. simpl.
      rewrite Forall_cons.
      destruct (blankHeader h) eqn:Hb; simpl.
      * change (S (k + n)) with (S k + n)%nat.
        rewrite IH. unfold dateHeader, terminator. tauto.
      * destruct (isValidDateHeader tz (normalize h)) eqn:Hv; simpl.
        -- change (S (k + n)) with (S k + n)%nat.
           rewrite elem_of_cons, IH. unfold dateHeader, terminator.
           split; [intros [Heq|H]; [lia|tauto] | intros H; right; tauto].
        -- split; [intros H; inversion H | intros [_ [Hf _]]; discriminate].
Qed.
End Scan.

(** C2.  The date columns found by the scan are in increasing order, and a
    column [i] is one of them exactly when it lies to the right of the
    category column, its normalized header is non-empty and date-like, and
    no column strictly between the category column and [i] is a
    terminator (non-empty after normalization and not date-like).  So a
    blank header is passed over, and the first terminator excludes itself
    and every later column, date-like or not.  The two header rows of the
    specification are instances. *)
Theorem date_column_scan :
  forall tz (hs : list jsstring) (c : nat),
    let indices := (findDateIndices tz hs c).1 in
    StronglySorted lt indices /\
    (forall i : nat,
       i ∈ indices <->
       (c < i)%nat /\
       (exists h, hs !! i = Some h /\ dateHeader tz h = true) /\
       Forall (fun h => terminator tz h = false) (take (i - S c) (drop (S c) hs))) /\
    (findDateIndices tz
       (map str ["Id"; "Category"; "2025-01-01"; "Notes"; "2025-01-02"]%string) 1).1
      = [2%nat] /\
    (findDateIndices tz
       (map str ["Category"; "2025-01-01"; ""; "2025-01-02"]%string) 0).1
      = [1%nat; 3%nat].
Proof.
  intros tz hs c indices. subst indices. unfold findDateIndices.
  split; [apply scanHeaders_sorted|]. split; [|split; vm_compute; reflexivity].
  intros i. split.
  - intros Hin.
    pose proof (scanHeaders_bounds tz (drop (S c) hs) (S c)) as Hle.
    rewrite Forall_forall in Hle. pose proof (Hle _ Hin) as Hci.
    replace i with (S c + (i - S c))%nat in Hin by lia.
    apply scanHeaders_elem in Hin. destruct Hin as [(h & Hh & Hd) Hf].
    split; [lia|]. split; [|exact Hf].
    exists h. split; [|exact Hd].
    rewrite lookup_drop in Hh. replace (S c + (i - S c))%nat with i in Hh by lia.
    exact Hh.
  - intros (Hci & (h & Hh & Hd) & Hf).
    replace i with (S c + (i - S c))%nat at 1 by lia.
    apply scanHeaders_elem. split; [|exact Hf].
    exists h. split; [|exact Hd].
    rewrite lookup_drop. replace (S c + (i - S c))%nat with i by lia. exact Hh.
Qed.

(* ===================================================================== *)
(** ** What the matchers accept *)
(* ===================================================================== *)

(** Unfold the option binds of a matcher in a hypothesis, leaving the
    matchers themselves folded. *)
Ltac unbind H := cbv beta iota delta [mbind option_bind] in H.


Lemma trimStart_split (s : jsstring) :
  exists w, s = w ++ trimStart s /\ spaceOnly w.
Proof.
  induction s as [|c s (w & Hs & Hw)]; simpl.
  - exists []. split; [reflexivity | constructor].
  - destruct (is_ws c) eqn:Hc.
    + exists (c :: w). split; [simpl; congruence | constructor; assumption].
    + exists []. split; [reflexivity | constructor].
Qed.

Lemma trimStart_head (c : Z) (s : jsstring) :
  is_ws c = false -> trimStart (c :: s) = c :: s.
Proof. intros H. simpl. rewrite H. reflexivity. Qed.

Lemma trimStart_spaces (w s : jsstring) :
  spaceOnly w -> trimStart (w ++ s) = trimStart s.
Proof.
  induction 1 as [|c w Hc _ IH]; simpl; [reflexivity|]. rewrite Hc. exact IH.
Qed.

Lemma digitsN_inv (n : nat) :
  forall s d r, Re.digitsN n s = Some (d, r) ->
                s = d ++ r /\ length d = n /\ digitsOnly d.
Proof.
  induction n as [|n IH]; intros s d r; simpl.
  - intros [= <- <-]. repeat split. constructor.
  - destruct s as [|c s]; [discriminate|].
    destruct (is_digit c) eqn:Hc; [|discriminate].
    destruct (Re.digitsN n s) as [[d' r']|] eqn:E; simpl; [|discriminate].
    intros [= <- <-]. destruct (IH _ _ _ E) as (-> & <- & Hd).
    repeat split. constructor; assumption.
Qed.

Lemma digits12_inv (s d r : jsstring) :
  Re.digits12 s = Some (d, r) ->
  s = d ++ r /\ (exists c, d = [c] \/ exists c', d = [c; c']) /\ digitsOnly d
  /\ match r with x :: _ => length d = 2%nat \/ is_digit x = false | [] => True end.
Proof.
  unfold Re.digits12, digitsOnly.
  destruct s as [|c1 [|c2 s]]; [discriminate| |].
  - destruct (is_digit c1) eqn:H1; [|discriminate]. intros [= <- <-].
    repeat split; eauto.
  - destruct (is_digit c1) eqn:H1; [|discriminate].
    destruct (is_digit c2) eqn:H2; intros [= <- <-].
    + repeat split; eauto. destruct s; auto.
    + repeat split; eauto.
Qed.

Lemma char_inv (c : Z) (s r : jsstring) :
  Re.char c s = Some r -> s = c :: r.
Proof.
  destruct s as [|x s]; simpl; [discriminate|].
  destruct (Z.eqb_spec x c); [|discriminate]. intros [= <-]. congruence.
Qed.

Lemma ws1_inv (s r : jsstring) :
  Re.ws1 s = Some r ->
  exists c w, s = c :: w ++ r /\ is_ws c = true /\ spaceOnly w.
Proof.
  destruct s as [|c s]; simpl; [discriminate|].
  destruct (is_ws c) eqn:Hc; [|discriminate]. intros [= <-].
  destruct (trimStart_split s) as (w & Hs & Hw).
  exists c, w. split; [congruence | auto].
Qed.

Lemma dash_inv (s r : jsstring) :
  Re.dash s = Some r -> exists c, s = c :: r /\ is_dash c = true.
Proof.
  destruct s as [|c s]; simpl; [discriminate|].
  destruct (is_dash c) eqn:Hc; [|discriminate]. intros [= <-]. eauto.
Qed.

Lemma month_inv (s m r : jsstring) :
  Re.month s = Some (m, r) ->
  s = m ++ r /\ toLowerCase m ∈ Re.month_names /\ length m = 3%nat.
Proof.
  destruct s as [|a [|b [|c s]]]; simpl; try discriminate.
  case_bool_decide as Hm; [|discriminate]. intros [= <- <-]. auto.
Qed.

Lemma eos_inv (s : jsstring) : Re.eos s = true -> s = [].
Proof. destruct s; [reflexivity | discriminate]. Qed.


Lemma lower_letter (c : Z) : 97 <= lower c <= 122 -> is_letter c = true.
Proof. unfold lower, is_letter. intros H. destruct (65 <=? c) eqn:?, (c <=? 90) eqn:?; simpl in *; lia. Qed.

Lemma month_names_letters (m : jsstring) :
  toLowerCase m ∈ Re.month_names -> Forall (fun c => is_letter c = true) m.
Proof.
  intros H.
  assert (Hl : Forall (fun c => 97 <= c <= 122) (toLowerCase m)).
  { unfold Re.month_names in H. apply list_elem_of_In in H. simpl in H.
    repeat (destruct H as [<-|H]; [vm_compute; repeat constructor; discriminate|]).
    destruct H. }
  unfold toLowerCase in Hl. rewrite Forall_map in Hl.
  eapply Forall_impl; [exact Hl|]. intros c Hc. apply lower_letter. exact Hc.
Qed.

Lemma iso_date_inv (s y m d : jsstring) :
  Re.iso_date s = Some (y, m, d) ->
  s = y ++ 45 :: m ++ 45 :: d /\
  (length y = 4 /\ length m = 2 /\ length d = 2)%nat /\
  digitsOnly y /\ digitsOnly m /\ digitsOnly d.
Proof.
  unfold Re.iso_date. intros H.
  destruct (Re.digitsN 4 s) as [[y' r1]|] eqn:E1; unbind H; [|discriminate].
  destruct (Re.char 45 r1) as [r2|] eqn:E2; unbind H; [|discriminate].
  destruct (Re.digitsN 2 r2) as [[m' r3]|] eqn:E3; unbind H; [|discriminate].
  destruct (Re.char 45 r3) as [r4|] eqn:E4; unbind H; [|discriminate].
  destruct (Re.digitsN 2 r4) as [[d' r5]|] eqn:E5; unbind H; [|discriminate].
  destruct (Re.eos r5) eqn:E6; [|discriminate]. injection H as <- <- <-.
  apply digitsN_inv in E1, E3, E5. apply char_inv in E2, E4. apply eos_inv in E6.
  destruct E1 as (-> & ? & ?), E3 as (-> & ? & ?), E5 as (-> & ? & ?). subst.
  rewrite app_nil_r. auto 10.
Qed.

Lemma slashDate_inv (s a b y : jsstring) :
  slashDate s = Some (a, b, y) ->
  s = a ++ 47 :: b ++ 47 :: y /\
  digitsOnly a /\ digitsOnly b /\ digitsOnly y /\
  (exists c, a = [c] \/ exists c', a = [c; c']) /\
  (exists c, b = [c] \/ exists c', b = [c; c']) /\
  length y = 4%nat.
Proof.
  unfold slashDate. intros H.
  destruct (Re.digits12 s) as [[a' r1]|] eqn:E1; unbind H; [|discriminate].
  destruct (Re.char 47 r1) as [r2|] eqn:E2; unbind H; [|discriminate].
  destruct (Re.digits12 r2) as [[b' r3]|] eqn:E3; unbind H; [|discriminate].
  destruct (Re.char 47 r3) as [r4|] eqn:E4; unbind H; [|discriminate].
  destruct (Re.digitsN 4 r4) as [[y' r5]|] eqn:E5; unbind H; [|discriminate].
  destruct (Re.eos r5) eqn:E6; [|discriminate]. injection H as <- <- <-.
  apply digits12_inv in E1, E3. apply digitsN_inv in E5.
  apply char_inv in E2, E4. apply eos_inv in E6.
  destruct E1 as (-> & ? & ? & _), E3 as (-> & ? & ? & _), E5 as (-> & ? & ?). subst.
  rewrite app_nil_r. auto 10.
Qed.

Lemma monthDay_inv (s m d : jsstring) :
  monthDay s = Some (m, d) ->
  exists c w, s = m ++ c :: w ++ d /\
    toLowerCase m ∈ Re.month_names /\ length m = 3%nat /\
    is_ws c = true /\ spaceOnly w /\ digitsOnly d /\
    (exists c, d = [c] \/ exists c', d = [c; c']).
Proof.
  unfold monthDay. intros H.
  destruct (Re.month s) as [[m' r1]|] eqn:E1; unbind H; [|discriminate].
  destruct (Re.ws1 r1) as [r2|] eqn:E2; unbind H; [|discriminate].
  destruct (Re.digits12 r2) as [[d' r3]|] eqn:E3; unbind H; [|discriminate].
  destruct (Re.eos r3) eqn:E4; [|discriminate]. injection H as <- <-.
  apply month_inv in E1. apply ws1_inv in E2. apply digits12_inv in E3.
  apply eos_inv in E4.
  destruct E1 as (-> & ? & ?), E2 as (c & w & -> & ? & ?), E3 as (-> & ? & ? & _).
  subst. rewrite app_nil_r. exists c, w. auto 10.
Qed.

Lemma all_digits_inv (s : jsstring) :
  Re.all_digits s = true -> s <> [] /\ digitsOnly s.
Proof.
  destruct s as [|c s]; [discriminate|]. unfold Re.all_digits.
  intros H. split; [discriminate|].
  rewrite forallb_forall in H. apply Forall_forall. intros x Hx.
  apply H. apply list_elem_of_In. exact Hx.
Qed.

(** [trim] keeps every character that is not whitespace. *)
Lemma elem_of_trimStart (c : Z) (s : jsstring) :
  c ∈ s -> is_ws c = false -> c ∈ trimStart s.
Proof.
  intros Hin Hc. induction s as [|x s IH]; simpl; [inversion Hin|].
  destruct (is_ws x) eqn:Hx; [|exact Hin].
  apply elem_of_cons in Hin. destruct Hin as [->|Hin]; [congruence | auto].
Qed.

Lemma elem_of_trim (c : Z) (s : jsstring) :
  c ∈ s -> is_ws c = false -> c ∈ trim s.
Proof.
  intros Hin Hc. unfold trim, trimEnd.
  apply list_elem_of_In. rewrite <- in_rev. apply list_elem_of_In.
  apply elem_of_trimStart; [|exact Hc].
  apply list_elem_of_In. rewrite <- in_rev. apply list_elem_of_In.
  apply elem_of_trimStart; assumption.
Qed.

(** The branches of [parseDate]: a result comes from exactly one of the
    four shapes, tried in the order of the source. *)
Lemma parseDate_cases (tz : Z) (s r : jsstring) :
  parseDate tz s = Some r ->
  (isoShape (trim s) = true /\ r = trim s) \/
  (isoShape (trim s) = false /\
   ((exists a b y t, slashDate (trim s) = Some (a, b, y) /\ r = isoDatePart t) \/
    (exists m d k, monthDay (trim s) = Some (m, d) /\
                   monthMap (toLowerCase m) = Some k /\
                   r = formatIsoDate (Some 2025) (Some k) (parseInt d)) \/
    (Re.all_digits (trim s) = true /\
     r = excelSerialToIso (JsNumber.of_intnum (parseInt (trim s)))))).
Proof.
  unfold parseDate. destruct (bool_decide (s = [])); [discriminate|].
  cbv zeta. generalize (trim s). intros t.
  destruct (isoShape t) eqn:Hiso.
  - intros [= <-]. left. auto.
  - intros H. right. split; [reflexivity|].
    assert (Haccept : forall d y r', acceptDate tz d y = Some r' ->
                                   exists t', r' = isoDatePart t').
    { intros d y r'. unfold acceptDate.
      destruct (getTime d) as [t'|]; [|intros [=]].
      destruct (getFullYear tz d) as [y1|]; [|intros [=]].
      destruct (parseInt y) as [y2|]; [|intros [=]].
      destruct (y1 =? y2); [|intros [=]].
      intros H'. apply (inj Some) in H'. eauto. }
    assert (Hserial :
      (if Re.all_digits t
       then if positive (JsNumber.of_intnum (parseInt t))
            then Some (excelSerialToIso (JsNumber.of_intnum (parseInt t)))
            else None
       else None) = Some r ->
      Re.all_digits t = true /\
      r = excelSerialToIso (JsNumber.of_intnum (parseInt t))).
    { destruct (Re.all_digits t); [|intros [=]].
      destruct (positive (JsNumber.of_intnum (parseInt t))); [|intros [=]].
      intros H'. apply (inj Some) in H'. auto. }
    assert (Hrest :
      match ('(monthName, day) ← monthDay t;
             monthNum ← monthMap (toLowerCase monthName);
             Some (formatIsoDate (Some 2025) (Some monthNum) (parseInt day))) with
      | Some r0 => Some r0
      | None =>
          if Re.all_digits t
          then if positive (JsNumber.of_intnum (parseInt t))
               then Some (excelSerialToIso (JsNumber.of_intnum (parseInt t)))
               else None
          else None
      end = Some r ->
      (exists m d k, monthDay t = Some (m, d) /\
                     monthMap (toLowerCase m) = Some k /\
                     r = formatIsoDate (Some 2025) (Some k) (parseInt d)) \/
      (Re.all_digits t = true /\
       r = excelSerialToIso (JsNumber.of_intnum (parseInt t)))).
    { intros H'.
      destruct (monthDay t) as [[m d]|] eqn:Hmd; unbind H'; [|right; auto].
      destruct (monthMap (toLowerCase m)) as [k|] eqn:Hk; unbind H'; [|right; auto].
      apply (inj Some) in H'. left. exists m, d, k. auto. }
    destruct (slashDate t) as [[[a b] y]|] eqn:Hsl; unbind H; [|right; auto].
    match type of H with
    | match match ?x with _ => _ end with _ => _ end = _ =>
        destruct x as [r1|] eqn:Hmm
    end.
    { apply (inj Some) in H. subst r1. apply Haccept in Hmm. destruct Hmm as [t' ->].
      left. exists a, b, y, t'. auto. }
    match type of H with
    | match ?x with _ => _ end = _ => destruct x as [r2|] eqn:Hdd
    end.
    { apply (inj Some) in H. subst r2. apply Haccept in Hdd. destruct Hdd as [t' ->].
      left. exists a, b, y, t'. auto. }
    right. auto.
Qed.

(** The characters each shape is made of. *)
Lemma isoShape_chars (t : jsstring) :
  isoShape t = true -> Forall (fun c => is_digit c || (c =? 45) = true) t.
Proof.
  unfold isoShape. destruct (Re.iso_date t) as [[[y m] d]|] eqn:E; [|discriminate].
  intros _. apply iso_date_inv in E. destruct E as (-> & _ & Hy & Hm & Hd).
  unfold digitsOnly in *.
  repeat (apply Forall_app; split) || apply Forall_cons_2 || (eapply Forall_impl; [eassumption|]);
    try reflexivity; simpl; intros c ->; reflexivity.
Qed.

Lemma slashDate_chars (t a b y : jsstring) :
  slashDate t = Some (a, b, y) -> Forall (fun c => is_digit c || (c =? 47) = true) t.
Proof.
  intros E. apply slashDate_inv in E. destruct E as (-> & Ha & Hb & Hy & _).
  unfold digitsOnly in *.
  repeat (apply Forall_app; split) || apply Forall_cons_2 || (eapply Forall_impl; [eassumption|]);
    try reflexivity; simpl; intros c ->; reflexivity.
Qed.

Lemma monthDay_chars (t m d : jsstring) :
  monthDay t = Some (m, d) ->
  Forall (fun c => is_letter c || is_ws c || is_digit c = true) t.
Proof.
  intros E. apply monthDay_inv in E.
  destruct E as (c & w & -> & Hm & _ & Hc & Hw & Hd & _).
  apply month_names_letters in Hm. unfold digitsOnly, spaceOnly in *.
  apply Forall_app; split; [eapply Forall_impl; [exact Hm|]; simpl; intros x ->; reflexivity|].
  apply Forall_cons_2; [rewrite Hc; destruct (is_letter c); reflexivity|].
  apply Forall_app; split.
  - eapply Forall_impl; [exact Hw|]. simpl; intros x ->.
    destruct (is_letter x); reflexivity.
  - eapply Forall_impl; [exact Hd|]. simpl; intros x ->. apply orb_true_r.
Qed.

Lemma Forall_class_excludes (P : Z -> bool) (c : Z) (t : jsstring) :
  Forall (fun x => P x = true) t -> P c = false -> c ∉ t.
Proof.
  intros Hall Hc Hin. rewrite Forall_forall in Hall. apply Hall in Hin. congruence.
Qed.

(** A string with a comma is no date. *)
Lemma parseDate_comma (tz : Z) (s : jsstring) :
  44 ∈ s -> parseDate tz s = None.
Proof.
  intros Hin. destruct (parseDate tz s) as [r|] eqn:Hp; [exfalso|reflexivity].
  assert (Ht : 44 ∈ trim s) by (apply elem_of_trim; [exact Hin | reflexivity]).
  revert Ht. apply parseDate_cases in Hp.
  destruct Hp as [[Hiso _] | [_ [(a & b & y & t & Hs & _) | [(m & d & k & Hm & _) | [Hd _]]]]].
  - eapply Forall_class_excludes; [apply isoShape_chars; exact Hiso | reflexivity].
  - eapply Forall_class_excludes; [eapply slashDate_chars; exact Hs | reflexivity].
  - eapply Forall_class_excludes; [eapply monthDay_chars; exact Hm | reflexivity].
  - apply all_digits_inv in Hd. destruct Hd as [_ Hd].
    eapply Forall_class_excludes; [exact Hd | reflexivity].
Qed.

(* ===================================================================== *)
(** ** The CSV serializer *)
(* ===================================================================== *)

Lemma split_length (sep : Z) (s : jsstring) :
  length (split sep s) = S (length (List.filter (Z.eqb sep) s)).
Proof.
  induction s as [|c s IH]; simpl; [reflexivity|].
  rewrite (Z.eqb_sym sep c).
  destruct (c =? sep); simpl; [rewrite IH; reflexivity|].
  destruct (split sep s) as [|p ps]; simpl in *; [discriminate | exact IH].
Qed.

Lemma commas_app (a b : jsstring) : commas (a ++ b) = (commas a + commas b)%nat.
Proof. unfold commas. rewrite List.filter_app, length_app. reflexivity. Qed.

Lemma commas_join (fields : list jsstring) :
  commas (join [44] fields) = (Nat.pred (length fields) + commasIn fields)%nat.
Proof.
  induction fields as [|f fs IH]; [reflexivity|]. destruct fs as [|g fs].
  - cbn [join commasIn fold_right length Nat.pred].
    rewrite Nat.add_0_r. reflexivity.
  - change (join [44] (f :: g :: fs)) with (f ++ [44] ++ join [44] (g :: fs)).
    rewrite !commas_app, IH. cbn [commasIn fold_right length Nat.pred].
    change (commas [44]) with 1%nat.
    lia.
Qed.

Lemma commas_pos (f : jsstring) : 44 ∈ f -> (0 < commas f)%nat.
Proof.
  induction f as [|c f IH]; intros Hin; [inversion Hin|].
  unfold commas. cbn [List.filter]. destruct (Z.eqb_spec 44 c); [simpl; lia|].
  apply elem_of_cons in Hin. destruct Hin as [Heq|Hin]; [contradiction|].
  apply IH. exact Hin.
Qed.

(** C10.  [generateCSV] writes no quotes and escapes nothing.  The empty
    record list gives the empty string, without a header line.  Otherwise
    the text is the header line and one line per record joined by
    newlines, each line being its seven values joined by single commas
    (the date value is the record's date passed through [parseDate], kept
    as it is when [parseDate] gives null).  Split at its commas, a line has
    seven columns plus one for every comma inside a value, so a record
    with a comma in one of its fields gives more than seven. *)
Theorem csv_is_unquoted :
  forall tz,
    generateCSV tz [] = [] /\
    (forall r rs,
       generateCSV tz (r :: rs) =
         join [10] (join [44] outputHeaders
                    :: map (fun row => join [44] (csvValues tz row)) (r :: rs))) /\
    (forall row,
       join [44] (csvValues tz row) =
         amount_currency row ++ [44] ++ amount_stringValue row ++ [44]
         ++ normalizedDate tz row ++ [44] ++ parent_id row ++ [44]
         ++ parent_type row ++ [44] ++ description row ++ [44]
         ++ metadata_atlar_category row) /\
    (forall row,
       length (split 44 (join [44] (csvValues tz row)))
       = (7 + commasIn (csvValues tz row))%nat) /\
    (forall row,
       Exists (fun f => 44 ∈ f) (recordValues row) ->
       (7 < length (split 44%Z (join [44%Z] (csvValues tz row))))%nat).
Proof.
  intros tz.
  assert (Hlen : forall row,
             length (split 44 (join [44] (csvValues tz row)))
             = (7 + commasIn (csvValues tz row))%nat).
  { intros row. rewrite split_length. fold (commas (join [44] (csvValues tz row))).
    rewrite commas_join. reflexivity. }
  split; [reflexivity|].
  split; [intros r rs; unfold generateCSV, csvTable; cbn [map];
          rewrite map_map; reflexivity|].
  split; [intros row; unfold csvValues; cbn [join app]; reflexivity|].
  split; [exact Hlen|].
  intros row Hex. rewrite Hlen.
  assert (Hd : 44 ∈ date row -> normalizedDate tz row = date row).
  { intros Hin. unfold normalizedDate. rewrite (parseDate_comma tz _ Hin). reflexivity. }
  unfold recordValues in Hex. unfold csvValues, commasIn, fold_right.
  repeat (apply Exists_cons in Hex; destruct Hex as [Hin|Hex]);
    [ .. | inversion Hex ];
    try (apply commas_pos in Hin; lia).
  rewrite (Hd Hin). apply commas_pos in Hin. lia.
Qed.

(* ===================================================================== *)
(** ** The dates the transformer emits *)
(* ===================================================================== *)

(** Decide the integer comparisons of a goal about character classes. *)
Ltac char_class :=
  repeat match goal with
         | H : _ && _ = true |- _ => apply andb_prop in H; destruct H
         | H : (_ <=? _) = true |- _ => apply Z.leb_le in H
         | H : (_ =? _) = true |- _ => apply Z.eqb_eq in H
         end;
  repeat match goal with
         | |- context [?a <=? ?b] => destruct (Z.leb_spec a b); try lia
         | |- context [?a =? ?b] => destruct (Z.eqb_spec a b); try lia
         end;
  try reflexivity.

Lemma digit_not_ws (c : Z) : is_digit c = true -> is_ws c = false.
Proof. unfold is_digit, is_ws. intros H. char_class. Qed.

Lemma digit_mod10 (n : Z) : is_digit (48 + n mod 10) = true.
Proof.
  unfold is_digit. pose proof (Z.mod_pos_bound n 10 eq_refl).
  apply andb_true_intro. split; apply Z.leb_le; lia.
Qed.

Lemma digits_fuel_spec (fuel : nat) :
  forall n acc, exists ds,
    digits_fuel fuel n acc = ds ++ acc /\ digitsOnly ds /\
    (fuel <> O -> ds <> []).
Proof.
  induction fuel as [|f IH]; intros n acc; simpl.
  - exists []. repeat split; [constructor | congruence].
  - destruct (n <? 10).
    + exists [48 + n mod 10]. repeat split; [|discriminate].
      repeat constructor. apply digit_mod10.
    + destruct (IH (n / 10) ((48 + n mod 10) :: acc)) as (ds & -> & Hds & _).
      exists (ds ++ [48 + n mod 10]). repeat split.
      * rewrite <- app_assoc. reflexivity.
      * apply Forall_app. split; [exact Hds|]. repeat constructor. apply digit_mod10.
      * intros _ E. apply app_eq_nil in E. destruct E as [_ E]. discriminate.
Qed.

Lemma digits_digitsOnly (n : Z) : digitsOnly (digits n) /\ digits n <> [].
Proof.
  unfold digits.
  destruct (digits_fuel_spec (S (Z.to_nat (Z.log2 n))) n []) as (ds & -> & Hds & Hne).
  rewrite app_nil_r. split; [exact Hds | apply Hne; discriminate].
Qed.

Lemma digitsOnly_noSpace (s : jsstring) : digitsOnly s -> noSpace s.
Proof. intros H. eapply Forall_impl; [exact H|]. intros c. apply digit_not_ws. Qed.

Lemma string_of_intnum_noSpace (n : intnum) : noSpace (string_of_intnum n).
Proof.
  destruct n as [z|]; simpl; [|repeat constructor].
  unfold JsString.of_Z. destruct (z <? 0).
  - constructor; [reflexivity|]. apply digitsOnly_noSpace, digits_digitsOnly.
  - apply digitsOnly_noSpace, digits_digitsOnly.
Qed.

Lemma padStart0_noSpace (n : nat) (s : jsstring) : noSpace s -> noSpace (padStart0 n s).
Proof.
  intros Hs. unfold padStart0. apply Forall_app. split; [|exact Hs].
  generalize (n - length s)%nat. intros k. induction k; simpl; constructor; auto.
Qed.

Lemma formatIsoDate_canonical (y m d : intnum) : canonicalDate (formatIsoDate y m d).
Proof.
  unfold formatIsoDate, canonicalDate. cbv zeta. split.
  - rewrite !elem_of_app. right. left. apply list_elem_of_singleton. reflexivity.
  - apply Forall_app; split; [apply string_of_intnum_noSpace|].
    apply Forall_app; split; [repeat constructor|].
    apply Forall_app; split; [apply padStart0_noSpace, string_of_intnum_noSpace|].
    apply Forall_app; split; [repeat constructor|].
    apply padStart0_noSpace, string_of_intnum_noSpace.
Qed.

Lemma split_head (sep : Z) (x rest : jsstring) :
  sep ∉ x -> head (split sep (x ++ sep :: rest)) = Some x.
Proof.
  induction x as [|c x IH]; intros Hx; simpl.
  - rewrite Z.eqb_refl. reflexivity.
  - destruct (Z.eqb_spec c sep) as [->|Hc]; [exfalso; apply Hx; left|].
    assert (Hx' : sep ∉ x) by (intros Hin; apply Hx; right; exact Hin).
    specialize (IH Hx'). destruct (split sep (x ++ sep :: rest)); [discriminate|].
    simpl in *. congruence.
Qed.

Lemma pad_digitsOnly (n : nat) (z : Z) : digitsOnly (JsDate.pad n z).
Proof.
  unfold JsDate.pad, padStart0. apply Forall_app. split; [|apply digits_digitsOnly].
  generalize (n - length (digits z))%nat. intros k.
  induction k; simpl; constructor; auto.
Qed.

Lemma isoDatePart_canonical (t : Z) : canonicalDate (isoDatePart t).
Proof.
  unfold isoDatePart, toISOString. cbv zeta.
  set (ys := if (0 <=? YearFromTime t) && (YearFromTime t <=? 9999)
             then JsDate.pad 4 (YearFromTime t)
             else (if YearFromTime t <? 0 then 45 else 43)
                  :: JsDate.pad 6 (Z.abs (YearFromTime t))).
  set (x := ys ++ [45] ++ JsDate.pad 2 (MonthFromTime t + 1) ++ [45]
               ++ JsDate.pad 2 (DateFromTime t)).
  assert (Hys : Forall (fun c => is_digit c || (c =? 45) || (c =? 43) = true) ys).
  { subst ys. destruct ((0 <=? YearFromTime t) && (YearFromTime t <=? 9999)).
    - eapply Forall_impl; [apply pad_digitsOnly|]. simpl; intros c ->; reflexivity.
    - constructor; [destruct (YearFromTime t <? 0); reflexivity|].
      eapply Forall_impl; [apply pad_digitsOnly|]. simpl; intros c ->; reflexivity. }
  assert (Hx : Forall (fun c => is_digit c || (c =? 45) || (c =? 43) = true) x).
  { assert (Hpad : forall n z,
               Forall (fun c => is_digit c || (c =? 45) || (c =? 43) = true) (JsDate.pad n z)).
    { intros n z. eapply Forall_impl; [apply pad_digitsOnly|].
      simpl; intros c ->; reflexivity. }
    subst x. apply Forall_app; split; [exact Hys|].
    apply Forall_app; split; [repeat constructor|].
    apply Forall_app; split; [apply Hpad|].
    apply Forall_app; split; [repeat constructor | apply Hpad]. }
  match goal with
  | |- canonicalDate (default [] (head (split 84 ?s))) =>
      replace s with (x ++ 84 :: (JsDate.pad 2 (TimeWithinDay t / 3600000) ++ [58]
                       ++ JsDate.pad 2 (TimeWithinDay t / 60000 mod 60) ++ [58]
                       ++ JsDate.pad 2 (TimeWithinDay t / 1000 mod 60) ++ [46]
                       ++ JsDate.pad 3 (TimeWithinDay t mod 1000) ++ [90]))
        by (subst x; rewrite <- !app_assoc; reflexivity)
  end.
  rewrite split_head by (eapply Forall_class_excludes; [exact Hx | reflexivity]).
  simpl. split.
  - subst x. rewrite !elem_of_app. right. left. apply list_elem_of_singleton. reflexivity.
  - eapply Forall_impl; [exact Hx|]. intros c Hc. unfold is_ws.
    unfold is_digit in Hc. apply orb_prop in Hc. destruct Hc as [Hc|Hc];
      [apply orb_prop in Hc; destruct Hc as [Hc|Hc]|]; char_class.
Qed.

Lemma isoShape_canonical (t : jsstring) : isoShape t = true -> canonicalDate t.
Proof.
  intros H. split.
  - unfold isoShape in H. destruct (Re.iso_date t) as [[[y m] d]|] eqn:E; [|discriminate].
    apply iso_date_inv in E. destruct E as (-> & _).
    rewrite elem_of_app. right. left.
  - eapply Forall_impl; [apply isoShape_chars; exact H|].
    intros c Hc. apply orb_prop in Hc. destruct Hc as [Hc|Hc];
      [apply digit_not_ws; exact Hc|]. unfold is_ws. char_class.
Qed.

Lemma excelSerialToIso_canonical (x : number) : canonicalDate (excelSerialToIso x).
Proof.
  unfold excelSerialToIso.
  generalize (JsDate.of_number
                (fadd (JsNumber.of_Z (UTC_ms 1899 11 30))
                      (fmul x (JsNumber.of_Z (24 * 60 * 60 * 1000))))).
  intros d. exact (formatIsoDate_canonical _ _ _).
Qed.

(** Every date [parseDate] returns is of the emitted kind. *)
Lemma parseDate_canonical (tz : Z) (s r : jsstring) :
  parseDate tz s = Some r -> canonicalDate r.
Proof.
  intros H. apply parseDate_cases in H.
  destruct H as [[Hiso ->] | [_ [(a & b & y & t & _ & ->) | [(m & d & k & _ & _ & ->) | [_ ->]]]]].
  - apply isoShape_canonical. exact Hiso.
  - apply isoDatePart_canonical.
  - apply formatIsoDate_canonical.
  - apply excelSerialToIso_canonical.
Qed.

Lemma trim_noSpace (s : jsstring) : noSpace s -> trim s = s.
Proof.
  intros Hs. unfold trim, trimEnd.
  assert (Hstart : forall u, noSpace u -> trimStart u = u).
  { intros [|c u] Hu; [reflexivity|]. apply trimStart_head.
    apply Forall_cons in Hu. tauto. }
  rewrite (Hstart s Hs). rewrite Hstart; [apply rev_involutive|].
  apply Forall_forall. intros c Hc. apply list_elem_of_In in Hc. apply in_rev in Hc.
  unfold noSpace in Hs. rewrite Forall_forall in Hs. apply Hs.
  apply list_elem_of_In. exact Hc.
Qed.

(** On a date of the emitted kind [parseDate] changes nothing: it returns
    the date itself, or null. *)
Lemma parseDate_of_canonical (tz : Z) (s : jsstring) :
  canonicalDate s -> parseDate tz s = Some s \/ parseDate tz s = None.
Proof.
  intros [Hdash Hs]. destruct (parseDate tz s) as [r|] eqn:Hp; [left|right; reflexivity].
  apply parseDate_cases in Hp. rewrite (trim_noSpace s Hs) in Hp.
  destruct Hp as [[_ ->] | [_ [(a & b & y & t & Hsl & _) | [(m & d & k & Hm & _) | [Hd _]]]]].
  - reflexivity.
  - exfalso. revert Hdash.
    eapply Forall_class_excludes; [eapply slashDate_chars; exact Hsl | reflexivity].
  - exfalso. revert Hdash.
    eapply Forall_class_excludes; [eapply monthDay_chars; exact Hm | reflexivity].
  - exfalso. revert Hdash. apply all_digits_inv in Hd. destruct Hd as [_ Hd].
    eapply Forall_class_excludes; [exact Hd | reflexivity].
Qed.

Lemma normalizedDate_of_canonical (tz : Z) (row : TransformedRow) :
  canonicalDate (date row) -> normalizedDate tz row = date row.
Proof.
  intros Hc. unfold normalizedDate.
  destruct (parseDate_of_canonical tz _ Hc) as [-> | ->]; [|reflexivity].
  destruct (date row); reflexivity.
Qed.

(** The expansions built by the parser are of the emitted kind. *)
Lemma weekRangeLoop_canonical (tz : Z) (fuel : nat) :
  forall d e, Forall canonicalDate (weekRangeLoop tz fuel d e).
Proof.
  induction fuel as [|f IH]; intros d e; simpl; [constructor|].
  destruct (JsDate.le d e); [|constructor].
  constructor; [apply formatIsoDate_canonical | apply IH].
Qed.

Lemma parseWeekRange_canonical (tz : Z) (s : jsstring) (ds : list jsstring) :
  parseWeekRange tz s = Some ds -> Forall canonicalDate ds.
Proof.
  unfold parseWeekRange. cbv zeta.
  destruct (weekRangeBounds (normalize s)) as [[[[sm sd] em] ed]|]; [|discriminate].
  destruct sm; [|discriminate]. destruct em; [|discriminate].
  match goal with
  | |- context [weekRangeLoop tz ?f ?a ?b] =>
      pose proof (weekRangeLoop_canonical tz f a b) as Hall;
      destruct (weekRangeLoop tz f a b); [discriminate|]
  end.
  intros H. apply (inj Some) in H. subst ds. exact Hall.
Qed.

Lemma scanHeaders_canonical (tz : Z) (hs : list jsstring) :
  forall k j ds, (scanHeaders tz k hs).2 !! j = Some ds -> Forall canonicalDate ds.
Proof.
  induction hs as [|h rest IH]; intros k j ds; simpl.
  - rewrite lookup_empty. discriminate.
  - destruct (bool_decide (h = [])); [apply IH|].
    destruct (bool_decide (normalize h = [])); [apply IH|].
    destruct (isValidDateHeader tz (normalize h));
      [|cbn [snd]; rewrite lookup_empty; discriminate].
    destruct (scanHeaders tz (S k) rest) as [idx ex] eqn:Hscan. cbn [snd].
    specialize (IH (S k)). rewrite Hscan in IH. cbn [snd] in IH.
    destruct (parseWeekRange tz (normalize h)) as [w|] eqn:Hw; [|apply IH].
    destruct (decide (k = j)) as [->|Hne].
    + rewrite lookup_insert_eq. intros [= <-].
      eapply parseWeekRange_canonical. exact Hw.
    + rewrite lookup_insert_ne by exact Hne. apply IH.
Qed.

Lemma parseArrayData_canonical (tz : Z) (grid : list (list cell)) (parsed : ParsedData) :
  parseArrayData tz grid = inr parsed -> expansionsCanonical parsed.
Proof.
  unfold parseArrayData. destruct grid as [|row0 rows]; [discriminate|].
  destruct (findCategoryIndex _) as [c|]; [|discriminate].
  destruct (findDateIndices tz _ c) as [idx ex] eqn:Hfind.
  destruct idx as [|i idx]; [discriminate|].
  match goal with |- context [List.filter ?f rows] => destruct (List.filter f rows) end;
    [discriminate|].
  intros [= <-]. unfold expansionsCanonical. simpl. intros j ds Hj.
  unfold findDateIndices in Hfind.
  eapply (scanHeaders_canonical tz _ (S c) j). rewrite Hfind. exact Hj.
Qed.

(** Every record of the transformer carries a date of the emitted kind. *)
Lemma last_Forall {A} (P : A -> Prop) (l : list A) (d : A) :
  P d -> Forall P l -> P (List.last l d).
Proof.
  intros Hd Hl. revert d Hd. induction Hl as [|x l Hx Hl IH]; intros d Hd; [exact Hd|].
  simpl. destruct l; [exact Hx|]. apply IH. exact Hd.
Qed.

Lemma last_cons_default {A} (l : list A) (x d : A) :
  List.last (x :: l) d = List.last l x.
Proof.
  revert x d. induction l as [|y l IH]; intros x d; [reflexivity|].
  change (List.last (x :: y :: l) d) with (List.last (y :: l) d).
  rewrite IH. symmetry. apply IH.
Qed.

Lemma cellRecords_canonical (tz : Z) (parsed : ParsedData) (options : TransformOptions)
    (descr : jsstring) (row : list jsstring) (j : nat) :
  expansionsCanonical parsed ->
  Forall (fun r => canonicalDate (date r)) (cellRecords tz parsed options descr row j).
Proof.
  intros Hwf. unfold cellRecords.
  destruct (row !! j ≫= parseAmount) as [x|]; [|constructor]. cbv zeta.
  assert (Hsingle :
    Forall (fun r => canonicalDate (date r))
      match headers parsed !! j ≫= parseDate tz with
      | Some (c :: parsedDate) =>
          [ {| amount_currency := currency options;
               amount_stringValue := toFixed2 x;
               date := c :: parsedDate;
               parent_id := parentId options;
               parent_type := str "ENTITY";
               description := descr;
               metadata_atlar_category := descr |} ]
      | _ => []
      end).
  { destruct (headers parsed !! j) as [h|]; [|constructor].
    cbv beta iota delta [mbind option_bind].
    destruct (parseDate tz h) as [[|c r]|] eqn:Hd; [constructor| |constructor].
    apply Forall_cons_2; [|constructor].
    cbn [date]. eapply parseDate_canonical. exact Hd. }
  destruct (expandedDates parsed !! j) as [[|d0 ds]|] eqn:Hex; try exact Hsingle.
  apply Forall_cons_2; [|constructor]. cbn [date]. apply Hwf in Hex.
  apply Forall_cons in Hex.
  destruct Hex as [H0 Hds]. exact (last_Forall canonicalDate ds d0 H0 Hds).
Qed.

Lemma transformData_canonical (tz : Z) (parsed : ParsedData) (options : TransformOptions) :
  expansionsCanonical parsed ->
  Forall (fun r => canonicalDate (date r)) (transformData tz parsed options).
Proof.
  intros Hwf. unfold transformData. apply Forall_forall. intros r Hr.
  apply list_elem_of_In in Hr. apply in_flat_map in Hr. destruct Hr as (row & _ & Hr).
  unfold rowRecords in Hr.
  destruct (trim <$> row !! categoryIndex parsed) as [[|c cat]|]; try contradiction.
  apply in_flat_map in Hr. destruct Hr as (j & _ & Hr).
  pose proof (cellRecords_canonical tz parsed options (getCategoryLeaf (c :: cat)) row j Hwf) as H.
  rewrite Forall_forall in H. apply H. apply list_elem_of_In. exact Hr.
Qed.

Lemma transformDataMulti_canonical (tz : Z) (parsed : Multi.ParsedDataMulti) :
  Forall (fun r => canonicalDate (date r)) (Multi.transformDataMulti tz parsed).
Proof.
  unfold Multi.transformDataMulti. apply Forall_forall. intros r Hr.
  apply list_elem_of_In in Hr. apply in_flat_map in Hr. destruct Hr as (row & _ & Hr).
  unfold Multi.rowRecords in Hr.
  destruct (trim <$> row !! Multi.categoryIndex parsed) as [[|c cat]|]; try contradiction.
  cbv zeta in Hr.
  destruct (_ <$> row !! Multi.currencyIndex parsed) as [[|c1 cur]|]; try contradiction.
  destruct (trim <$> row !! Multi.entityIdIndex parsed) as [[|c2 pid]|]; try contradiction.
  apply in_flat_map in Hr. destruct Hr as (j & _ & Hr).
  unfold Multi.cellRecords in Hr. cbv zeta in Hr.
  destruct (Multi.headers parsed !! j) as [h|]; [|contradiction].
  cbv beta iota delta [mbind option_bind] in Hr.
  destruct (parseDate tz h) as [[|c0 d]|] eqn:Hd; try contradiction.
  destruct (row !! j) as [cell|]; [|contradiction].
  destruct (parseAmount cell); [|contradiction].
  destruct Hr as [<-|[]]. cbn [date]. eapply parseDate_canonical. exact Hd.
Qed.

Lemma tables_agree (tz : Z) (records : list TransformedRow) :
  Forall (fun r => canonicalDate (date r)) records ->
  Forall (fun r => normalizedDate tz r = date r) records /\
  csvTable tz records = worksheetData records.
Proof.
  intros Hc.
  assert (Hnorm : Forall (fun r => normalizedDate tz r = date r) records).
  { eapply Forall_impl; [exact Hc|]. intros r. apply normalizedDate_of_canonical. }
  split; [exact Hnorm|].
  unfold csvTable, worksheetData. f_equal. apply map_ext_Forall.
  eapply Forall_impl; [exact Hnorm|]. intros r Hr. unfold csvValues. rewrite Hr. reflexivity.
Qed.

(* ===================================================================== *)
(** ** Month-name headers *)
(* ===================================================================== *)

(** Checking a decidable property on every integer of a range. *)
Lemma forallb_seqZ (P : Z -> bool) (lo n : Z) :
  forallb P (seqZ lo n) = true -> forall z, lo <= z < lo + n -> P z = true.
Proof.
  intros H z Hz. rewrite forallb_forall in H. apply H.
  apply list_elem_of_In. apply elem_of_seqZ. exact Hz.
Qed.

Lemma padStart0_twoDigits (v : Z) :
  0 <= v <= 99 -> padStart0 2 (JsString.of_Z v) = twoDigits v.
Proof.
  intros Hv.
  assert (H : forallb (fun v => bool_decide (padStart0 2 (JsString.of_Z v) = twoDigits v))
                      (seqZ 0 100) = true) by (vm_compute; reflexivity).
  pose proof (forallb_seqZ _ _ _ H v ltac:(lia)) as Hb.
  apply bool_decide_eq_true in Hb. exact Hb.
Qed.

Lemma monthMap_Some (key : jsstring) (k : Z) :
  monthMap key = Some k -> key ∈ Re.month_names /\ 0 <= k <= 11.
Proof.
  unfold monthMap. cbn [List.find fst snd].
  intros H.
  repeat match type of H with
         | context [bool_decide (?a = key)] =>
             destruct (bool_decide_reflect (a = key)) as [<-|?];
             [cbn in H; injection H as <-; split;
              [apply list_elem_of_In; vm_compute; tauto | lia]|]
         end.
  cbn in H. discriminate.
Qed.

Lemma letter_not_digit (c : Z) : is_letter c = true -> is_digit c = false.
Proof.
  unfold is_letter, is_digit. intros H. apply orb_prop in H.
  destruct H as [H|H]; char_class.
Qed.

Lemma letter_not_ws (c : Z) : is_letter c = true -> is_ws c = false.
Proof.
  unfold is_letter, is_ws. intros H. apply orb_prop in H.
  destruct H as [H|H]; char_class.
Qed.

Lemma trimStart_digits (d : jsstring) : digitsOnly d -> trimStart d = d.
Proof.
  intros [|c d' Hc _]; [reflexivity|]. apply trimStart_head, digit_not_ws, Hc.
Qed.

Lemma span_digits_all (d rest : jsstring) :
  digitsOnly d -> match rest with x :: _ => is_digit x = false | [] => True end ->
  span_digits (d ++ rest) = (d, rest).
Proof.
  intros Hd Hrest. induction Hd as [|c d Hc _ IH]; simpl.
  - destruct rest as [|x rest]; [reflexivity|]. simpl. rewrite Hrest. reflexivity.
  - rewrite Hc, IH. reflexivity.
Qed.

(** [parseInt] of a run of digits is its value. *)
Lemma parseInt_digits (d : jsstring) :
  digitsOnly d -> d <> [] -> parseInt d = Some (digits_value d).
Proof.
  intros Hd Hne. unfold parseInt. rewrite (trimStart_digits d Hd).
  destruct d as [|c d]; [congruence|].
  assert (Hc : is_digit c = true) by (apply Forall_cons in Hd; tauto).
  assert (H45 : (c =? 45) = false) by (unfold is_digit in Hc; char_class).
  assert (H43 : (c =? 43) = false) by (unfold is_digit in Hc; char_class).
  rewrite H45, H43.
  pose proof (span_digits_all (c :: d) [] Hd I) as Hspan. rewrite app_nil_r in Hspan.
  rewrite Hspan. reflexivity.
Qed.

Lemma digits12_all (d : jsstring) :
  digitsOnly d -> (length d = 1 \/ length d = 2)%nat -> Re.digits12 d = Some (d, []).
Proof.
  intros Hd Hlen. destruct d as [|c1 [|c2 [|c3 d]]]; simpl in Hlen; try lia.
  - apply Forall_cons in Hd. destruct Hd as [H1 _]. simpl. rewrite H1. reflexivity.
  - apply Forall_cons in Hd. destruct Hd as [H1 Hd].
    apply Forall_cons in Hd. destruct Hd as [H2 _]. simpl. rewrite H1, H2. reflexivity.
Qed.

Lemma digits_value_two (d : jsstring) :
  digitsOnly d -> (length d = 1 \/ length d = 2)%nat -> 0 <= digits_value d <= 99.
Proof.
  intros Hd Hlen. destruct d as [|c1 [|c2 [|c3 d]]]; simpl in Hlen; try lia.
  - apply Forall_cons in Hd. destruct Hd as [H1 _].
    unfold is_digit in H1. char_class. unfold digits_value. simpl. lia.
  - apply Forall_cons in Hd. destruct Hd as [H1 Hd].
    apply Forall_cons in Hd. destruct Hd as [H2 _].
    unfold is_digit in H1, H2. char_class. unfold digits_value. simpl. lia.
Qed.

(** A string that starts and ends with characters other than whitespace
    is left alone by [trim]. *)
Lemma trim_ends (c z : Z) (mid : jsstring) :
  is_ws c = false -> is_ws z = false -> trim (c :: mid ++ [z]) = c :: mid ++ [z].
Proof.
  intros Hc Hz. unfold trim, trimEnd. rewrite (trimStart_head c _ Hc).
  assert (E : rev (c :: mid ++ [z]) = z :: rev (c :: mid)).
  { change (c :: mid ++ [z]) with ((c :: mid) ++ [z]).
    rewrite rev_app_distr. reflexivity. }
  rewrite E, (trimStart_head z _ Hz), <- E, rev_involutive. reflexivity.
Qed.

(** The month-name branch of [parseDate]. *)
Lemma monthDay_accepts (m ws d : jsstring) :
  toLowerCase m ∈ Re.month_names -> ws <> [] -> spaceOnly ws ->
  digitsOnly d -> (length d = 1 \/ length d = 2)%nat ->
  monthDay (m ++ ws ++ d) = Some (m, d).
Proof.
  intros Hm Hne Hws Hd Hlen.
  assert (Hlen3 : length m = 3%nat).
  { assert (Hl : length (toLowerCase m) = 3%nat).
    { unfold Re.month_names in Hm. apply list_elem_of_In in Hm. simpl in Hm.
      repeat (destruct Hm as [<-|Hm]; [reflexivity|]). destruct Hm. }
    unfold toLowerCase in Hl. rewrite length_map in Hl. exact Hl. }
  destruct m as [|a [|b [|c [|x m]]]]; simpl in Hlen3; try lia.
  unfold monthDay. cbn [app Re.month].
  rewrite (bool_decide_eq_true_2 _ Hm). cbv beta iota delta [mbind option_bind].
  destruct ws as [|w ws]; [congruence|].
  apply Forall_cons in Hws. destruct Hws as [Hw Hws].
  cbn [app Re.ws1]. rewrite Hw, (trimStart_spaces ws d Hws), (trimStart_digits d Hd).
  rewrite (digits12_all d Hd Hlen). reflexivity.
Qed.

(** C9.  A header made of a month abbreviation (in any letter case, "okt"
    included), whitespace and a day of one or two digits resolves to
    2025-MM-DD, month and day zero-padded to two digits, whatever the day:
    the day is not checked against the length of the month.  "Feb 30"
    gives 2025-02-30 and "Jan 99" gives 2025-01-99; the result is never
    null. *)
Theorem month_day_is_not_validated :
  forall tz (m ws d : jsstring) (k : Z),
    monthMap (toLowerCase m) = Some k ->
    ws <> [] -> spaceOnly ws ->
    digitsOnly d -> (length d = 1 \/ length d = 2)%nat ->
    parseDate tz (m ++ ws ++ d)
    = Some (str "2025-" ++ twoDigits (k + 1) ++ [45] ++ twoDigits (digits_value d))
    /\ parseDate tz (str "Feb 30") = Some (str "2025-02-30")
    /\ parseDate tz (str "Jan 99") = Some (str "2025-01-99").
Proof.
  intros tz m ws d k Hk Hne Hws Hd Hlen.
  split; [|split; vm_compute; reflexivity].
  destruct (monthMap_Some _ _ Hk) as [Hm Hkr].
  pose proof (month_names_letters m Hm) as Hletters.
  pose proof (monthDay_accepts m ws d Hm Hne Hws Hd Hlen) as Hmd.
  assert (Hdne : d <> []) by (destruct d; [simpl in Hlen; lia | discriminate]).
  (* the string is left alone by trim, and starts with a letter *)
  destruct m as [|a m]; [discriminate Hk|].
  apply Forall_cons in Hletters. destruct Hletters as [Ha _].
  destruct (exists_last Hdne) as (d' & z & Hdz).
  assert (Hz : is_digit z = true).
  { unfold digitsOnly in Hd. rewrite Hdz in Hd. apply Forall_app in Hd.
    destruct Hd as [_ Hd]. apply Forall_cons in Hd. tauto. }
  assert (Htrim : trim ((a :: m) ++ ws ++ d) = (a :: m) ++ ws ++ d).
  { rewrite Hdz. replace ((a :: m) ++ ws ++ d' ++ [z]) with (a :: (m ++ ws ++ d') ++ [z])
      by (simpl; rewrite <- !app_assoc; reflexivity).
    apply trim_ends; [apply letter_not_ws, Ha | apply digit_not_ws, Hz]. }
  unfold parseDate. rewrite Htrim. cbv zeta.
  change (bool_decide ((a :: m) ++ ws ++ d = [])) with false. cbv iota.
  assert (Hiso : isoShape ((a :: m) ++ ws ++ d) = false).
  { unfold isoShape, Re.iso_date. cbn [app Re.digitsN].
    rewrite (letter_not_digit a Ha). reflexivity. }
  assert (Hslash : slashDate ((a :: m) ++ ws ++ d) = None).
  { unfold slashDate. cbn [app].
    assert (E : Re.digits12 (a :: m ++ ws ++ d) = None).
    { unfold Re.digits12. destruct (m ++ ws ++ d); rewrite (letter_not_digit a Ha); reflexivity. }
    rewrite E. reflexivity. }
  rewrite Hiso, Hslash, Hmd. cbv beta iota delta [mbind option_bind].
  rewrite Hk. f_equal.
  rewrite (parseInt_digits d Hd Hdne).
  unfold formatIsoDate. cbv zeta. cbn [string_of_intnum fmap option_fmap option_map].
  rewrite (padStart0_twoDigits (digits_value d) (digits_value_two d Hd Hlen)).
  replace (Z.succ k) with (k + 1) by lia.
  rewrite (padStart0_twoDigits (k + 1)) by lia.
  reflexivity.
Qed.

(** The localized abbreviation, two spaces and a one-digit day. *)
Lemma month_day_is_not_validated_witness :
  parseDate 0 (str "okt" ++ str "  " ++ str "7") = Some (str "2025-10-07").
Proof.
  exact (proj1 (month_day_is_not_validated 0 (str "okt") (str "  ") (str "7") 9
                  ltac:(vm_compute; reflexivity) ltac:(discriminate)
                  ltac:(repeat constructor) ltac:(repeat constructor)
                  ltac:(left; reflexivity))).
Defined.

(* ===================================================================== *)
(** ** Week ranges *)
(* ===================================================================== *)

Lemma rangePattern1_inv (t m1 d1 m2 d2 : jsstring) :
  rangePattern1 t = Some (m1, d1, m2, d2) ->
  toLowerCase m1 ∈ Re.month_names /\ toLowerCase m2 ∈ Re.month_names /\
  digitsOnly d1 /\ digitsOnly d2 /\
  (length d1 = 1 \/ length d1 = 2)%nat /\ (length d2 = 1 \/ length d2 = 2)%nat.
Proof.
  unfold rangePattern1. intros H.
  destruct (Re.month t) as [[m1' r1]|] eqn:E1; unbind H; [|discriminate].
  destruct (Re.ws1 r1) as [r2|] eqn:E2; unbind H; [|discriminate].
  destruct (Re.digits12 r2) as [[d1' r3]|] eqn:E3; unbind H; [|discriminate].
  destruct (Re.dash (Re.ws0 r3)) as [r4|] eqn:E4; unbind H; [|discriminate].
  destruct (Re.month (Re.ws0 r4)) as [[m2' r5]|] eqn:E5; unbind H; [|discriminate].
  destruct (Re.ws1 r5) as [r6|] eqn:E6; unbind H; [|discriminate].
  destruct (Re.digits12 r6) as [[d2' r7]|] eqn:E7; unbind H; [|discriminate].
  destruct (Re.eos r7); [|discriminate]. injection H as <- <- <- <-.
  apply month_inv in E1, E5. apply digits12_inv in E3, E7.
  destruct E1 as (_ & Hm1 & _), E5 as (_ & Hm2 & _).
  destruct E3 as (_ & Hl1 & Hd1 & _), E7 as (_ & Hl2 & Hd2 & _).
  repeat split; try assumption.
  - destruct Hl1 as (c & [-> | (c' & ->)]); auto.
  - destruct Hl2 as (c & [-> | (c' & ->)]); auto.
Qed.

Lemma rangePattern2_inv (t m1 d1 d2 : jsstring) :
  rangePattern2 t = Some (m1, d1, d2) ->
  toLowerCase m1 ∈ Re.month_names /\
  digitsOnly d1 /\ digitsOnly d2 /\
  (length d1 = 1 \/ length d1 = 2)%nat /\ (length d2 = 1 \/ length d2 = 2)%nat.
Proof.
  unfold rangePattern2. intros H.
  destruct (Re.month t) as [[m1' r1]|] eqn:E1; unbind H; [|discriminate].
  destruct (Re.ws1 r1) as [r2|] eqn:E2; unbind H; [|discriminate].
  destruct (Re.digits12 r2) as [[d1' r3]|] eqn:E3; unbind H; [|discriminate].
  destruct (Re.dash (Re.ws0 r3)) as [r4|] eqn:E4; unbind H; [|discriminate].
  destruct (Re.digits12 (Re.ws0 r4)) as [[d2' r7]|] eqn:E7; unbind H; [|discriminate].
  destruct (Re.eos r7); [|discriminate]. injection H as <- <- <-.
  apply month_inv in E1. apply digits12_inv in E3, E7.
  destruct E1 as (_ & Hm1 & _).
  destruct E3 as (_ & Hl1 & Hd1 & _), E7 as (_ & Hl2 & Hd2 & _).
  repeat split; try assumption.
  - destruct Hl1 as (c & [-> | (c' & ->)]); auto.
  - destruct Hl2 as (c & [-> | (c' & ->)]); auto.
Qed.

Lemma parseInt_two_digits (d : jsstring) (v : Z) :
  digitsOnly d -> (length d = 1 \/ length d = 2)%nat ->
  parseInt d = Some v -> 0 <= v <= 99.
Proof.
  intros Hd Hlen. rewrite parseInt_digits; [|exact Hd|destruct d; [simpl in Hlen; lia|discriminate]].
  intros [= <-]. apply digits_value_two; assumption.
Qed.

(** The months and days read from a week-range header are a month 0..11
    and a day 0..99. *)
Lemma weekRangeBounds_ranges (t : jsstring) (sm sd em ed : Z) :
  weekRangeBounds t = Some (Some sm, Some sd, Some em, Some ed) ->
  0 <= sm <= 11 /\ 0 <= sd <= 99 /\ 0 <= em <= 11 /\ 0 <= ed <= 99.
Proof.
  unfold weekRangeBounds. cbv zeta.
  destruct (rangePattern1 t) as [[[[m1 d1] m2] d2]|] eqn:E1.
  - intros [= Hsm Hsd Hem Hed]. apply rangePattern1_inv in E1.
    destruct E1 as (_ & _ & Hd1 & Hd2 & Hl1 & Hl2).
    apply monthMap_Some in Hsm, Hem.
    pose proof (parseInt_two_digits d1 sd Hd1 Hl1 Hsd).
    pose proof (parseInt_two_digits d2 ed Hd2 Hl2 Hed). lia.
  - destruct (rangePattern2 t) as [[[m1 d1] d2]|] eqn:E2; [|discriminate].
    intros [= Hsm Hsd Hem Hed]. apply rangePattern2_inv in E2.
    destruct E2 as (_ & Hd1 & Hd2 & Hl1 & Hl2).
    apply monthMap_Some in Hsm, Hem.
    pose proof (parseInt_two_digits d1 sd Hd1 Hl1 Hsd).
    pose proof (parseInt_two_digits d2 ed Hd2 Hl2 Hed). lia.
Qed.

Section LocalDates.
Variable tz : Z.
Hypothesis tz_range : -1440 < tz < 1440.

Lemma Day_midnight (a : Z) : Day (a * msPerDay) = a.
Proof. unfold Day. apply Z.div_mul. discriminate. Qed.

Lemma TimeWithinDay_midnight (a : Z) : TimeWithinDay (a * msPerDay) = 0.
Proof. unfold TimeWithinDay. apply Z.mod_mul. discriminate. Qed.

Lemma LocalTime_UTC (t : Z) : LocalTime tz (UTC tz t) = t.
Proof. unfold LocalTime, UTC. lia. Qed.

Lemma TimeClip_midnight (a : Z) :
  weekLo <= a <= weekHi + 1 ->
  TimeClip (UTC tz (MakeDate a 0)) = Some (UTC tz (a * msPerDay)).
Proof.
  intros Ha. unfold TimeClip, UTC, MakeDate, msPerDay, msPerMinute, weekLo, weekHi in *.
  destruct (Z.leb_spec (Z.abs (a * 86400000 + 0 - tz * 60000)) 8640000000000000);
    [f_equal; lia | lia].
Qed.

(** [new Date(2025, m, d)] for a month and day of a week-range header. *)
Lemma MakeDay_2025 (m d : Z) :
  0 <= m <= 11 -> 0 <= d <= 99 -> weekLo <= MakeDay 2025 m d <= weekHi.
Proof.
  intros Hm Hd.
  assert (H : forallb (fun m => (weekLo <=? MakeDay 2025 m 0)
                                && (MakeDay 2025 m 0 <=? weekHi - 99))
                      (seqZ 0 12) = true) by (vm_compute; reflexivity).
  pose proof (forallb_seqZ _ _ _ H m ltac:(lia)) as Hb. cbv beta in Hb.
  apply andb_prop in Hb. destruct Hb as [H1 H2].
  apply Z.leb_le in H1, H2.
  assert (E : MakeDay 2025 m d = MakeDay 2025 m 0 + d) by (unfold MakeDay; lia).
  lia.
Qed.

(** Adding one to the day of the month moves to the next day number, over
    the whole range of a week-range header. *)
Lemma MakeDay_succ (a : Z) :
  weekLo <= a <= weekHi ->
  MakeDay (fst (fst (civil_from_days a))) (snd (fst (civil_from_days a)) - 1)
          (Z.succ (snd (civil_from_days a))) = a + 1.
Proof.
  intros Ha.
  assert (H : forallb (fun a =>
                MakeDay (fst (fst (civil_from_days a))) (snd (fst (civil_from_days a)) - 1)
                        (Z.succ (snd (civil_from_days a))) =? a + 1)
              (seqZ weekLo 434) = true) by (vm_compute; reflexivity).
  pose proof (forallb_seqZ _ _ _ H a ltac:(unfold weekLo, weekHi in *; lia)) as Hb.
  apply Z.eqb_eq in Hb. exact Hb.
Qed.

Lemma setDate_next (a : Z) :
  weekLo <= a <= weekHi ->
  setDate tz (Some (UTC tz (a * msPerDay)))
             (Z.succ <$> getDate tz (Some (UTC tz (a * msPerDay))))
  = Some (UTC tz ((a + 1) * msPerDay)).
Proof.
  intros Ha. unfold setDate, getDate.
  cbv beta iota delta [mbind option_bind fmap option_fmap option_map].
  rewrite LocalTime_UTC. unfold YearFromTime, MonthFromTime, DateFromTime.
  rewrite Day_midnight, TimeWithinDay_midnight, (MakeDay_succ a Ha).
  apply TimeClip_midnight. lia.
Qed.

Lemma formatIsoDate_local (a : Z) :
  formatIsoDate (getFullYear tz (Some (UTC tz (a * msPerDay))))
                (getMonth tz (Some (UTC tz (a * msPerDay))))
                (getDate tz (Some (UTC tz (a * msPerDay))))
  = isoOfDay a.
Proof.
  unfold getFullYear, getMonth, getDate, isoOfDay.
  cbv beta iota delta [fmap option_fmap option_map].
  rewrite LocalTime_UTC. unfold YearFromTime, MonthFromTime, DateFromTime.
  rewrite Day_midnight. destruct (civil_from_days a) as [[y m] d]. reflexivity.
Qed.

(** The loop of [parseWeekRange] visits every day from the start to the
    end, in order, and stops by its own test. *)
Lemma weekRangeLoop_days (fuel : nat) :
  forall a b,
    weekLo <= a -> b <= weekHi -> (Z.to_nat (b - a + 1) <= fuel)%nat ->
    weekRangeLoop tz fuel (Some (UTC tz (a * msPerDay))) (Some (UTC tz (b * msPerDay)))
    = map isoOfDay (seqZ a (b - a + 1)).
Proof.
  induction fuel as [|f IH]; intros a b Ha Hb Hfuel.
  - rewrite seqZ_nil by lia. reflexivity.
  - cbn [weekRangeLoop JsDate.le].
    destruct (Z.leb_spec (UTC tz (a * msPerDay)) (UTC tz (b * msPerDay))) as [Hle|Hgt].
    + assert (Hab : a <= b) by (unfold UTC, msPerDay in Hle; lia).
      rewrite formatIsoDate_local, (setDate_next a ltac:(lia)).
      rewrite (IH (a + 1) b) by lia.
      rewrite (seqZ_cons a (b - a + 1)) by lia. cbn [map].
      replace (Z.succ a) with (a + 1) by lia.
      replace (Z.pred (b - a + 1)) with (b - (a + 1) + 1) by lia. reflexivity.
    + assert (Hab : b < a) by (unfold UTC, msPerDay in Hgt; lia).
      rewrite seqZ_nil by lia. reflexivity.
Qed.

(** [parseWeekRange] in terms of the months and days read from the
    header. *)
Lemma parseWeekRange_days (s : jsstring) :
  parseWeekRange tz s =
    match weekRangeBounds (normalize s) with
    | Some (Some sm, Some sd, Some em, Some ed) =>
        let a := MakeDay 2025 sm sd in
        let b := MakeDay 2025 em ed in
        if a <=? b then Some (map isoOfDay (seqZ a (b - a + 1))) else None
    | _ => None
    end.
Proof.
  unfold parseWeekRange. cbv zeta.
  destruct (weekRangeBounds (normalize s)) as [[[[sm sd] em] ed]|] eqn:Hb; [|reflexivity].
  destruct sm as [sm|]; [|reflexivity].
  destruct em as [em|]; [|destruct sd; reflexivity].
  destruct sd as [sd|]; [|destruct ed; reflexivity].
  destruct ed as [ed|];
    [|destruct (JsDate.of_local tz (Some 2025) (Some sm) (Some sd)); reflexivity].
  destruct (weekRangeBounds_ranges _ _ _ _ _ Hb) as (Hsm & Hsd & Hem & Hed).
  pose proof (MakeDay_2025 sm sd Hsm Hsd) as Ha.
  pose proof (MakeDay_2025 em ed Hem Hed) as Hbb.
  unfold JsDate.of_local. cbv beta iota delta [mbind option_bind].
  rewrite !TimeClip_midnight by lia.
  set (a := MakeDay 2025 sm sd) in *. set (b := MakeDay 2025 em ed) in *.
  rewrite weekRangeLoop_days; [| lia | lia |].
  - destruct (Z.leb_spec a b) as [Hab|Hab].
    + rewrite (seqZ_cons a (b - a + 1)) by lia. reflexivity.
    + rewrite seqZ_nil by lia. reflexivity.
  - unfold weekRangeFuel.
    replace (UTC tz (b * msPerDay) - UTC tz (a * msPerDay)) with ((b - a) * msPerDay)
      by (unfold UTC; lia).
    rewrite Z.div_mul by discriminate. lia.
Qed.
End LocalDates.

(** The expansions recorded by the scan: a date column carries the
    expansion of its normalized header, when that header is a week
    range. *)
Lemma scanHeaders_cons_map (tz : Z) (i : nat) (h : jsstring) (rest : list jsstring) :
  (scanHeaders tz i (h :: rest)).2 =
    if blankHeader h then (scanHeaders tz (S i) rest).2
    else if isValidDateHeader tz (normalize h)
         then match parseWeekRange tz (normalize h) with
              | Some w => <[i := w]> (scanHeaders tz (S i) rest).2
              | None => (scanHeaders tz (S i) rest).2
              end
         else ∅.
Proof.
  cbn [scanHeaders]. unfold blankHeader.
  destruct (bool_decide_reflect (h = [])) as [->|Hh].
  - rewrite normalize_nil. reflexivity.
  - destruct (bool_decide (normalize h = [])); [reflexivity|].
    destruct (isValidDateHeader tz (normalize h)); [|reflexivity].
    destruct (scanHeaders tz (S i) rest). reflexivity.
Qed.

Lemma scanHeaders_keys (tz : Z) (hs : list jsstring) :
  forall k j, is_Some ((scanHeaders tz k hs).2 !! j) -> (k <= j)%nat.
Proof.
  induction hs as [|h rest IH]; intros k j.
  - cbn [scanHeaders snd]. rewrite lookup_empty. intros [? [=]].
  - rewrite scanHeaders_cons_map.
    destruct (blankHeader h); [intros H; apply IH in H; lia|].
    destruct (isValidDateHeader tz (normalize h));
      [|rewrite lookup_empty; intros [? [=]]].
    destruct (parseWeekRange tz (normalize h)); [|intros H; apply IH in H; lia].
    destruct (decide (k = j)) as [->|Hne]; [lia|].
    rewrite lookup_insert_ne by exact Hne. intros H; apply IH in H; lia.
Qed.

Lemma scanHeaders_lookup (tz : Z) (hs : list jsstring) :
  forall k n h,
    hs !! n = Some h -> (k + n)%nat ∈ (scanHeaders tz k hs).1 ->
    (scanHeaders tz k hs).2 !! (k + n)%nat = parseWeekRange tz (normalize h).
Proof.
  induction hs as [|h0 rest IH]; intros k n h Hh Hin; [discriminate|].
  rewrite scanHeaders_cons in Hin. rewrite scanHeaders_cons_map.
  destruct n as [|n].
  - injection Hh as ->. replace (k + 0)%nat with k in * by lia.
    assert (Hnot : k ∉ (scanHeaders tz (S k) rest).1).
    { intros Hk. pose proof (scanHeaders_bounds tz rest (S k)) as Hle.
      rewrite Forall_forall in Hle. apply Hle in Hk. lia. }
    destruct (blankHeader h); [contradiction|].
    destruct (isValidDateHeader tz (normalize h)); [|inversion Hin].
    destruct (parseWeekRange tz (normalize h)) as [w|]; [apply lookup_insert_eq|].
    destruct ((scanHeaders tz (S k) rest).2 !! k) eqn:E; [|reflexivity].
    assert (Hs : is_Some ((scanHeaders tz (S k) rest).2 !! k)) by (rewrite E; eauto).
    apply scanHeaders_keys in Hs. lia.
  - cbn [lookup list_lookup] in Hh.
    replace (k + S n)%nat with (S k + n)%nat in * by lia.
    destruct (blankHeader h0); [apply IH; assumption|].
    destruct (isValidDateHeader tz (normalize h0)); [|inversion Hin].
    apply elem_of_cons in Hin. destruct Hin as [Heq|Hin]; [lia|].
    destruct (parseWeekRange tz (normalize h0)); [|apply IH; assumption].
    rewrite lookup_insert_ne by lia. apply IH; assumption.
Qed.

Lemma parseArrayData_expansions (tz : Z) (grid : list (list cell)) (parsed : ParsedData)
    (j : nat) (h : jsstring) :
  parseArrayData tz grid = inr parsed ->
  j ∈ dateIndices parsed -> headers parsed !! j = Some h ->
  expandedDates parsed !! j = parseWeekRange tz (normalize h).
Proof.
  unfold parseArrayData. destruct grid as [|row0 rows]; [discriminate|].
  destruct (findCategoryIndex _) as [c|]; [|discriminate].
  destruct (findDateIndices tz _ c) as [idx ex] eqn:Hfind.
  destruct idx as [|i idx]; [discriminate|].
  match goal with |- context [List.filter ?f rows] => destruct (List.filter f rows) end;
    [discriminate|].
  intros [= <-]. cbn [dateIndices headers expandedDates]. intros Hj Hh.
  unfold findDateIndices in Hfind.
  pose proof (scanHeaders_bounds tz (drop (S c) (map convertHeader row0)) (S c)) as Hle.
  rewrite Hfind in Hle. cbn [fst] in Hle. rewrite Forall_forall in Hle.
  pose proof (Hle _ Hj) as Hcj.
  pose proof (scanHeaders_lookup tz (drop (S c) (map convertHeader row0)) (S c) (j - S c) h)
    as Hlook.
  rewrite Hfind in Hlook. cbn [fst snd] in Hlook.
  replace (S c + (j - S c))%nat with j in Hlook by lia.
  apply Hlook; [|exact Hj].
  rewrite lookup_drop. replace (S c + (j - S c))%nat with j by lia. exact Hh.
Qed.

(** X25.  In a zone at a fixed offset of less than a day from UTC: a
    header whose normalized text matches one of the two week-range
    patterns expands to the ISO dates of every day number from [new
    Date(2025, startMonth, startDay)] to [new Date(2025, endMonth,
    endDay)], ascending and inclusive (to nothing, hence null, when the
    end precedes the start); consecutive day numbers are consecutive
    calendar dates; "Oct 27 - Nov 2" gives the seven dates 2025-10-27 ..
    2025-11-02.  In a parsed grid a date column stores the expansion of
    its normalized header. *)
Theorem week_range_in_fixed_zone :
  forall tz, -1440 < tz < 1440 ->
    (forall s,
       parseWeekRange tz s =
         match weekRangeBounds (normalize s) with
         | Some (Some sm, Some sd, Some em, Some ed) =>
             let a := MakeDay 2025 sm sd in
             let b := MakeDay 2025 em ed in
             if a <=? b then Some (map isoOfDay (seqZ a (b - a + 1))) else None
         | _ => None
         end) /\
    (forall z, weekLo <= z < weekHi ->
               civil_from_days (z + 1) = nextDay (civil_from_days z)) /\
    parseWeekRange tz (str "Oct 27 - Nov 2")
      = Some (map str ["2025-10-27"; "2025-10-28"; "2025-10-29"; "2025-10-30";
                       "2025-10-31"; "2025-11-01"; "2025-11-02"]%string) /\
    (forall grid parsed j h,
       parseArrayData tz grid = inr parsed ->
       j ∈ dateIndices parsed -> headers parsed !! j = Some h ->
       expandedDates parsed !! j = parseWeekRange tz (normalize h)).
Proof.
  intros tz Htz.
  split; [intros s; apply parseWeekRange_days; exact Htz|].
  split.
  { intros z Hz.
    assert (H : forallb (fun z => bool_decide (civil_from_days (z + 1)
                                               = nextDay (civil_from_days z)))
                        (seqZ weekLo 433) = true) by (vm_compute; reflexivity).
    pose proof (forallb_seqZ _ _ _ H z ltac:(unfold weekLo, weekHi in *; lia)) as Hb.
    apply bool_decide_eq_true in Hb. exact Hb. }
  split; [rewrite (parseWeekRange_days tz Htz); vm_compute; reflexivity|].
  intros grid parsed j h; apply parseArrayData_expansions.
Qed.

(** The same-month pattern, one hour east of UTC. *)
Lemma week_range_in_fixed_zone_witness :
  parseWeekRange 60 (str "Nov 3-9")
  = Some (map str ["2025-11-03"; "2025-11-04"; "2025-11-05"; "2025-11-06";
                   "2025-11-07"; "2025-11-08"; "2025-11-09"]%string).
Proof.
  rewrite (proj1 (week_range_in_fixed_zone 60 ltac:(lia))). vm_compute. reflexivity.
Defined.

(** The week-range grid, end to end: one record per amount, dated with the
    last day of the range. *)
Lemma week_grid_example :
  Forall (fun tz =>
    exists parsed,
      parseArrayData tz weekGrid = inr parsed /\
      transformData tz parsed exampleOptions =
        [ record "SEK" "10.00" "2025-11-02" "ENTITY_ID" "ENTITY" "Office" "Office";
          record "SEK" "20.50" "2025-11-09" "ENTITY_ID" "ENTITY" "Office" "Office";
          record "SEK" "30.00" "2025-10-30" "ENTITY_ID" "ENTITY" "Office" "Office";
          record "SEK" "40.00" "2025-01-01" "ENTITY_ID" "ENTITY" "Office" "Office" ])
    [0; 60; -300].
Proof.
  repeat constructor; eexists; (split; [vm_compute; reflexivity|]); vm_compute; reflexivity.
Qed.

(* ===================================================================== *)
(** ** Serial headers *)
(* ===================================================================== *)

(** Settle the integer tests of a goal, innermost first, by [lia]. *)
Ltac no_if t :=
  lazymatch t with
  | context [if _ then _ else _] => fail
  | _ => idtac
  end.

Ltac settle_tests :=
  repeat first
    [ rewrite Z.mul_1_r | rewrite Z.mul_1_l | rewrite Z.div_1_r | rewrite Z.mod_1_r
    | rewrite Z.sub_0_r | rewrite Z.mul_0_r
    | progress cbv iota
    | progress cbn [orb andb negb]
    | match goal with
      | |- context [?a <? ?b] =>
          no_if a; no_if b;
          first [ destruct (Z.ltb_spec a b); [exfalso; lia|]
                | destruct (Z.ltb_spec a b); [|exfalso; lia] ]
      | |- context [?a <=? ?b] =>
          no_if a; no_if b;
          first [ destruct (Z.leb_spec a b); [exfalso; lia|]
                | destruct (Z.leb_spec a b); [|exfalso; lia] ]
      | |- context [?a =? ?b] =>
          no_if a; no_if b;
          first [ destruct (Z.eqb_spec a b); [exfalso; lia|]
                | destruct (Z.eqb_spec a b); [|exfalso; lia] ]
      | |- context [Z.max ?a ?b] =>
          no_if a; no_if b;
          first [ rewrite (Z.max_l a b) by lia | rewrite (Z.max_r a b) by lia ]
      end ].

(** Integers below 2^53 are binary64 values: the conversion is exact. *)
Lemma of_Z_exact (n : Z) :
  1 <= n < 2 ^ 53 ->
  JsNumber.of_Z n = Finite false (n * 2 ^ (52 - Z.log2 n)) (Z.log2 n - 52).
Proof.
  intros Hn. unfold JsNumber.of_Z, round_ratio.
  rewrite Z.abs_eq by lia.
  change (Z.log2 1) with 0.
  pose proof (Z.log2_spec n ltac:(lia)) as [Hlo Hhi].
  pose proof (Z.log2_nonneg n) as Hl0.
  assert (Hl52 : Z.log2 n <= 52).
  { destruct (Z.le_gt_cases (Z.log2 n) 52) as [?|Hgt]; [assumption|].
    assert (2 ^ 53 <= 2 ^ Z.log2 n) by (apply Z.pow_le_mono_r; lia). lia. }
  remember (Z.log2 n) as L eqn:HL. clear HL.
  assert (Hpow : 2 ^ (52 - L) * 2 ^ L = 2 ^ 52).
  { rewrite <- Z.pow_add_r by lia. f_equal. lia. }
  assert (Hp0 : 0 < 2 ^ (52 - L)) by (apply Z.pow_pos_nonneg; lia).
  assert (HP0 : 0 < 2 ^ L) by (apply Z.pow_pos_nonneg; lia).
  replace (2 ^ Z.succ L) with (2 * 2 ^ L) in Hhi by (rewrite Z.pow_succ_r by lia; reflexivity).
  assert (Hm1 : 2 ^ 52 <= n * 2 ^ (52 - L)) by nia.
  assert (Hm2 : n * 2 ^ (52 - L) < 2 ^ 53).
  { change (2 ^ 53) with (2 * 2 ^ 52). nia. }
  cbv zeta.
  destruct (Z.leb_spec 0 (L - 0 - 52)) as [He|He].
  - assert (L = 52) by lia. subst L.
    change (52 - 0 - 52) with 0 in *. change (52 - 52) with 0 in *.
    change (2 ^ 0) with 1 in *. rewrite !Z.mul_1_r in *.
    settle_tests. reflexivity.
  - replace (- (L - 0 - 52)) with (52 - L) by lia.
    replace (L - 0 - 52) with (L - 52) by lia.
    settle_tests.
    replace (- (L - 52)) with (52 - L) by lia.
    settle_tests. reflexivity.
Qed.

Lemma digits_value_app (a b : jsstring) :
  digits_value (a ++ b)
  = fold_left (fun acc c => 10 * acc + (c - 48)) b (digits_value a).
Proof. unfold digits_value. apply fold_left_app. Qed.

(** The digit string of [n] reads back as [n]. *)
Lemma digits_fuel_value (fuel : nat) :
  forall n acc, 0 <= n < 10 ^ Z.of_nat fuel ->
    exists ds, digits_fuel fuel n acc = ds ++ acc /\ digits_value ds = n.
Proof.
  induction fuel as [|f IH]; intros n acc Hn.
  - exists []. change (10 ^ Z.of_nat 0) with 1 in Hn. split; [reflexivity|].
    unfold digits_value. simpl. lia.
  - cbn [digits_fuel]. destruct (Z.ltb_spec n 10) as [Hlt|Hge].
    + exists [48 + n mod 10]. split; [reflexivity|].
      unfold digits_value. cbn [fold_left]. rewrite Z.mod_small by lia. lia.
    + assert (Hdiv : 0 <= n / 10 < 10 ^ Z.of_nat f).
      { rewrite Nat2Z.inj_succ, Z.pow_succ_r in Hn by lia.
        split; [apply Z.div_pos; lia | apply Z.div_lt_upper_bound; lia]. }
      destruct (IH (n / 10) ((48 + n mod 10) :: acc) Hdiv) as (ds & -> & Hv).
      exists (ds ++ [48 + n mod 10]). split; [rewrite <- app_assoc; reflexivity|].
      rewrite digits_value_app, Hv. cbn [fold_left].
      pose proof (Z.div_mod n 10 ltac:(lia)). lia.
Qed.

Lemma digits_value_digits (n : Z) : 0 <= n -> digits_value (digits n) = n.
Proof.
  intros Hn. unfold digits.
  destruct (digits_fuel_value (S (Z.to_nat (Z.log2 n))) n []) as (ds & -> & Hv).
  - split; [exact Hn|].
    destruct (Z.eq_dec n 0) as [->|Hn0]; [reflexivity|].
    pose proof (Z.log2_spec n ltac:(lia)) as [_ Hhi].
    pose proof (Z.log2_nonneg n).
    rewrite Nat2Z.inj_succ, Z2Nat.id by lia.
    eapply Z.lt_le_trans; [exact Hhi|].
    apply Z.pow_le_mono_l. lia.
  - rewrite app_nil_r. exact Hv.
Qed.

(** [String(x)] for an integer below 2^53 is its decimal expansion. *)
Lemma toString_of_Z (n : Z) :
  1 <= n < 2 ^ 53 -> JsNumber.toString (JsNumber.of_Z n) = digits n.
Proof.
  intros Hn. rewrite (of_Z_exact n Hn).
  pose proof (Z.log2_spec n ltac:(lia)) as [Hlo Hhi].
  pose proof (Z.log2_nonneg n) as Hl0.
  assert (Hl52 : Z.log2 n <= 52).
  { destruct (Z.le_gt_cases (Z.log2 n) 52) as [?|Hgt]; [assumption|].
    assert (2 ^ 53 <= 2 ^ Z.log2 n) by (apply Z.pow_le_mono_r; lia). lia. }
  remember (Z.log2 n) as L eqn:HL. clear HL.
  assert (Hp0 : 0 < 2 ^ (52 - L)) by (apply Z.pow_pos_nonneg; lia).
  unfold JsNumber.toString, toString_pos, is_integer, JsNumber.trunc, signed.
  destruct (Z.eqb_spec (n * 2 ^ (52 - L)) 0) as [E|_]; [nia|].
  destruct (Z.leb_spec 0 (L - 52)) as [He|He].
  - assert (L = 52) by lia. subst L. change (52 - 52) with 0.
    change (2 ^ 0) with 1. rewrite !Z.mul_1_r. cbn [orb andb].
    destruct (Z.ltb_spec n (2 ^ 53)); [reflexivity | lia].
  - replace (- (L - 52)) with (52 - L) by lia.
    rewrite Z.mod_mul by lia. rewrite Z.div_mul by lia. cbn [orb andb].
    change (0 =? 0) with true. cbn [orb andb].
    destruct (Z.ltb_spec n (2 ^ 53)); [reflexivity | lia].
Qed.

Lemma truthy_of_Z (n : Z) :
  1 <= n < 2 ^ 53 ->
  truthy (JsNumber.of_Z n) = true /\ positive (JsNumber.of_Z n) = true.
Proof.
  intros Hn. rewrite (of_Z_exact n Hn).
  pose proof (Z.log2_nonneg n) as Hl0.
  assert (Hp0 : 0 < 2 ^ (52 - Z.log2 n)).
  { apply Z.pow_pos_nonneg; [lia|].
    destruct (Z.le_gt_cases (Z.log2 n) 52) as [?|Hgt]; [lia|].
    pose proof (Z.log2_spec n ltac:(lia)) as [Hlo _].
    assert (2 ^ 53 <= 2 ^ Z.log2 n) by (apply Z.pow_le_mono_r; lia). lia. }
  unfold truthy, positive.
  destruct (Z.eqb_spec (n * 2 ^ (52 - Z.log2 n)) 0) as [E|_]; [nia|]. auto.
Qed.

(** A run of digits is its own normal form. *)
Lemma collapse_noSpace (s : jsstring) (b : bool) : noSpace s -> collapse_from b s = s.
Proof.
  intros Hs. revert b. induction Hs as [|c s Hc _ IH]; intros b; simpl; [reflexivity|].
  rewrite Hc, IH. reflexivity.
Qed.

Lemma normalize_digits (s : jsstring) : digitsOnly s -> normalize s = s.
Proof.
  intros Hd. unfold normalize, collapse_ws.
  rewrite (trim_noSpace s (digitsOnly_noSpace s Hd)).
  rewrite (collapse_noSpace s false (digitsOnly_noSpace s Hd)).
  unfold normalize_dashes. induction Hd as [|c s Hc _ IH]; simpl; [reflexivity|].
  rewrite IH. unfold is_digit, en_dash, em_dash in *.
  destruct (Z.eqb_spec c 8211); [subst; discriminate|].
  destruct (Z.eqb_spec c 8212); [subst; discriminate|]. reflexivity.
Qed.

Lemma all_digits_intro (s : jsstring) :
  digitsOnly s -> s <> [] -> Re.all_digits s = true.
Proof.
  intros Hd Hne. destruct s as [|c s]; [congruence|]. unfold Re.all_digits.
  apply forallb_forall. intros x Hx. unfold digitsOnly in Hd.
  rewrite Forall_forall in Hd. apply Hd. apply list_elem_of_In. exact Hx.
Qed.

(** A bare run of digits is always a date header: no year is looked at. *)
Lemma isValidDateHeader_digits (tz : Z) (s : jsstring) :
  digitsOnly s -> s <> [] -> isValidDateHeader tz s = true.
Proof.
  intros Hd Hne. unfold isValidDateHeader.
  rewrite (bool_decide_eq_false_2 _ Hne). cbv zeta.
  rewrite (normalize_digits s Hd).
  destruct (parseWeekRange tz s); [reflexivity|].
  unfold dateFormats. cbn [existsb].
  rewrite (all_digits_intro s Hd Hne).
  destruct (isoShape s), (slashShape s); reflexivity.
Qed.

(** The serial branch of [parseDate]: on a run of digits no other branch
    applies, and the only test is that the serial is positive. *)
Lemma parseDate_digits (tz : Z) (s : jsstring) :
  digitsOnly s -> s <> [] ->
  parseDate tz s =
    if positive (JsNumber.of_intnum (parseInt s))
    then Some (excelSerialToIso (JsNumber.of_intnum (parseInt s)))
    else None.
Proof.
  intros Hd Hne. unfold parseDate. rewrite (bool_decide_eq_false_2 _ Hne). cbv zeta.
  rewrite (trim_noSpace s (digitsOnly_noSpace s Hd)).
  assert (Hiso : isoShape s = false).
  { destruct (isoShape s) eqn:E; [|reflexivity]. exfalso.
    apply isoShape_canonical in E. destruct E as [E _]. revert E.
    eapply Forall_class_excludes; [exact Hd | reflexivity]. }
  assert (Hslash : slashDate s = None).
  { destruct (slashDate s) as [[[a b] y]|] eqn:E; [|reflexivity]. exfalso.
    apply slashDate_inv in E. destruct E as (E & _).
    assert (Hin : 47 ∈ s) by (rewrite E, elem_of_app; right; left).
    revert Hin. eapply Forall_class_excludes; [exact Hd | reflexivity]. }
  assert (Hmonth : monthDay s = None).
  { destruct (monthDay s) as [[m d]|] eqn:E; [|reflexivity]. exfalso.
    apply monthDay_inv in E. destruct E as (c & w & E & _ & _ & Hc & _).
    assert (Hin : c ∈ s) by (rewrite E, elem_of_app; right; left).
    unfold digitsOnly in Hd. rewrite Forall_forall in Hd. apply Hd in Hin.
    apply digit_not_ws in Hin. congruence. }
  rewrite Hiso, Hslash, Hmonth. cbv beta iota delta [mbind option_bind].
  rewrite (all_digits_intro s Hd Hne). reflexivity.
Qed.

(** A positive integer converts to a positive Number, whatever its
    size. *)
Lemma positive_of_Z (v : Z) : 1 <= v -> positive (JsNumber.of_Z v) = true.
Proof.
  intros Hv. unfold JsNumber.of_Z.
  replace (v <? 0) with false by (symmetry; apply Z.ltb_ge; lia).
  rewrite Z.abs_eq by lia. unfold round_ratio.
  replace (v =? 0) with false by (symmetry; apply Z.eqb_neq; lia).
  change (Z.log2 1) with 0.
  remember (Z.log2 v - 0 - 52) as e0 eqn:He0.
  remember (if 0 <=? e0 then v / (1 * 2 ^ e0) else v * 2 ^ (- e0) / 1) as q0 eqn:Hq0.
  clear Hq0.
  remember (Z.max (if q0 <? 2 ^ 52 then e0 - 1 else e0) (-1074)) as e eqn:He.
  assert (Hle : 0 <= e -> e <= Z.log2 v).
  { intros H0. pose proof (Z.log2_nonneg v). destruct (q0 <? 2 ^ 52); lia. }
  clear He He0.
  remember (if 0 <=? e then v else v * 2 ^ (- e)) as n eqn:Hn.
  remember (if 0 <=? e then 1 * 2 ^ e else 1) as d eqn:Hd.
  assert (Hq : 0 < d /\ d <= n).
  { subst n d. destruct (Z.leb_spec 0 e) as [H0|H0].
    - rewrite Z.mul_1_l. split; [apply Z.pow_pos_nonneg; lia|].
      pose proof (Z.log2_spec v ltac:(lia)) as [Hlo _].
      assert (2 ^ e <= 2 ^ Z.log2 v) by (apply Z.pow_le_mono_r; lia). lia.
    - split; [lia|]. assert (0 < 2 ^ (- e)) by (apply Z.pow_pos_nonneg; lia). nia. }
  clear Hn Hd Hle.
  assert (Hdiv : 1 <= n / d) by (apply Z.div_le_lower_bound; lia).
  remember (n / d) as q eqn:Eq. remember (n mod d) as r eqn:Er. clear Eq Er.
  remember (if (d <? 2 * r) || (d =? 2 * r) && Z.odd q then q + 1 else q) as m eqn:Hm.
  assert (Hm1 : 1 <= m) by (subst m; destruct ((d <? 2 * r) || (d =? 2 * r) && Z.odd q); lia).
  clear Hm.
  change (2 ^ 53) with 9007199254740992. change (2 ^ 52) with 4503599627370496.
  destruct (Z.eqb_spec m 9007199254740992) as [E|E].
  - change (4503599627370496 =? 0) with false. cbv iota.
    destruct (971 <? e + 1); reflexivity.
  - destruct (Z.eqb_spec m 0) as [E0|E0]; [lia|].
    destruct (971 <? e); [reflexivity|]. cbn [positive negb andb].
    destruct (Z.eqb_spec m 0); [lia|reflexivity].
Qed.

(** C5 (as the code has it).  For a positive integer serial [n] below
    2^53: a numeric header cell is rendered as the ISO date of [n] when
    that date passes the year test of the header conversion, and is
    otherwise kept as the decimal string of [n], not discarded.  That
    string is a bare run of digits, so it is still a date header, and with
    it as only header after the category column the column is a date
    column.  At transform time [parseDate] resolves a run of digits
    through the serial rule with no test on the year: for every run of
    digits with a positive value the result is the text of
    [excelSerialToIso], never null (for a serial beyond the range of
    [Date] it is the text NaN-NaN-NaN), and a run of zeros resolves to
    null. *)
Theorem serial_header_out_of_range :
  forall tz n,
    1 <= n < 2 ^ 53 ->
    convertHeader (CNum (JsNumber.of_Z n))
      = (if headerYearInRange (JsNumber.of_Z n)
         then excelSerialToIso (JsNumber.of_Z n)
         else digits n) /\
    isValidDateHeader tz (digits n) = true /\
    (findDateIndices tz [str "Category"; digits n] 0).1 = [1%nat] /\
    parseDate tz (digits n) = Some (excelSerialToIso (JsNumber.of_Z n)) /\
    parseDate tz (str "99999999999") = Some (str "NaN-NaN-NaN") /\
    (forall s, digitsOnly s -> s <> [] ->
       parseDate tz s =
         if 1 <=? digits_value s
         then Some (excelSerialToIso (JsNumber.of_Z (digits_value s)))
         else None).
Proof.
  intros tz n Hn.
  destruct (digits_digitsOnly n) as [Hd Hne].
  destruct (truthy_of_Z n Hn) as [Htruthy Hpos].
  assert (Hvalid : isValidDateHeader tz (digits n) = true)
    by (apply isValidDateHeader_digits; assumption).
  split; [|split; [exact Hvalid|split; [|split; [|split]]]].
  - unfold convertHeader, headerYearInRange. cbv zeta. rewrite Htruthy.
    cbn [cell_string]. rewrite (toString_of_Z n Hn).
    destruct (parseInt (take 4 (excelSerialToIso (JsNumber.of_Z n)))) as [yr|];
      reflexivity.
  - unfold findDateIndices. cbn [drop].
    rewrite scanHeaders_cons. unfold blankHeader.
    rewrite (normalize_digits _ Hd), (bool_decide_eq_false_2 _ Hne), Hvalid.
    reflexivity.
  - rewrite (parseDate_digits tz _ Hd Hne), (parseInt_digits _ Hd Hne).
    rewrite (digits_value_digits n ltac:(lia)). cbn [JsNumber.of_intnum].
    rewrite Hpos. reflexivity.
  - rewrite parseDate_digits; [vm_compute; reflexivity | repeat constructor | discriminate].
  - intros s Hs Hsne.
    rewrite (parseDate_digits tz _ Hs Hsne), (parseInt_digits _ Hs Hsne).
    cbn [JsNumber.of_intnum].
    destruct (Z.leb_spec 1 (digits_value s)) as [H1|H1].
    + rewrite (positive_of_Z _ H1). reflexivity.
    + assert (H0 : 0 <= digits_value s).
      { unfold digits_value.
        assert (H : forall acc, 0 <= acc ->
                      0 <= fold_left (fun acc c => 10 * acc + (c - 48)) s acc).
        { clear Hsne H1. induction Hs as [|c s Hc _ IH]; intros acc Hacc; [exact Hacc|].
          simpl. apply IH. unfold is_digit in Hc. apply andb_prop in Hc.
          destruct Hc as [Hc _]. apply Z.leb_le in Hc. lia. }
        apply H. lia. }
      replace (digits_value s) with 0 by lia. reflexivity.
Qed.

(** The serial 100000: kept as digits in the header, resolved to the
    year 2173 at transform time. *)
Lemma serial_header_out_of_range_witness :
  convertHeader (CNum (JsNumber.of_Z 100000)) = str "100000" /\
  parseDate 0 (str "100000") = Some (str "2173-10-14").
Proof.
  pose proof (serial_header_out_of_range 0 100000 ltac:(lia)) as (H1 & _ & _ & H4 & _ & _).
  split; [rewrite H1; vm_compute; reflexivity|].
  replace (str "100000") with (digits 100000) by (vm_compute; reflexivity).
  rewrite H4. vm_compute. reflexivity.
Defined.

(** C5, the claim as written fails: the numeric header 100000 composes to
    the year 2173, outside 1900..2100, and its column is a date column
    whose cells are transformed. *)
Lemma out_of_range_serial_is_a_date_column :
  excelSerialToIso (JsNumber.of_Z 100000) = str "2173-10-14" /\
  headerYearInRange (JsNumber.of_Z 100000) = false /\
  exists parsed,
    parseArrayData 0 serialGrid = inr parsed /\
    headers parsed = [str "Category"; str "100000"] /\
    dateIndices parsed = [1%nat] /\
    transformData 0 parsed exampleOptions =
      [ record "SEK" "5.00" "2173-10-14" "ENTITY_ID" "ENTITY" "Office" "Office" ].
Proof.
  split; [vm_compute; reflexivity|]. split; [vm_compute; reflexivity|].
  eexists. split; [vm_compute; reflexivity|].
  repeat split; vm_compute; reflexivity.
Qed.

(* ===================================================================== *)
(** ** Slash dates and the local time zone *)
(* ===================================================================== *)

(** C4, on the code.  [parseDate] builds the candidate date at midnight
    UTC and compares its year in local time ([getFullYear]).  West of UTC
    the local year of 1 January is the year before, so both readings of
    "1/1/2025" are rejected and the result is null; at UTC and east of it
    the result is 2025-01-01.  Other days are not affected: month first,
    day first as fallback, null when neither reading is a date. *)
Theorem slash_date_in_local_zone :
  parseDate (-300) (str "1/1/2025") = None /\
  parseDate 0 (str "1/1/2025") = Some (str "2025-01-01") /\
  parseDate 60 (str "1/1/2025") = Some (str "2025-01-01") /\
  parseDate (-300) (str "01/01/2025") = None /\
  parseDate (-300) (str "1/2/2025") = Some (str "2025-01-02") /\
  parseDate (-300) (str "13/2/2025") = Some (str "2025-02-13") /\
  parseDate (-300) (str "2/13/2025") = Some (str "2025-02-13") /\
  parseDate (-300) (str "13/13/2025") = None.
Proof. repeat split; vm_compute; reflexivity. Qed.

(** *** The calendar *)

Lemma is_leap_era (e r : Z) : is_leap (e * 400 + r) = is_leap r.
Proof.
  unfold is_leap.
  replace ((e * 400 + r) mod 4) with (r mod 4)
    by (replace (e * 400 + r) with (r + (e * 100) * 4) by lia;
        rewrite Z_mod_plus_full; reflexivity).
  replace ((e * 400 + r) mod 100) with (r mod 100)
    by (replace (e * 400 + r) with (r + (e * 4) * 100) by lia;
        rewrite Z_mod_plus_full; reflexivity).
  replace ((e * 400 + r) mod 400) with (r mod 400)
    by (replace (e * 400 + r) with (r + e * 400) by lia;
        rewrite Z_mod_plus_full; reflexivity).
  reflexivity.
Qed.

(** Over one era of 400 years, checked date by date: the day of the era
    of a date is within the era and decomposes into that date. *)
Lemma era_roundtrip (yoe m d : Z) :
  0 <= yoe < 400 -> 1 <= m <= 12 ->
  1 <= d <= DaysInMonth (yoe + (if m <=? 2 then 1 else 0)) m ->
  0 <= doe_of_civil yoe m d < 146097 /\
  civil_of_doe (doe_of_civil yoe m d) = (yoe, m, d).
Proof.
  intros Hy Hm Hd.
  assert (H : forallb (fun yoe =>
                forallb (fun m =>
                  forallb (fun d =>
                    implb (d <=? DaysInMonth (yoe + (if m <=? 2 then 1 else 0)) m)
                          ((0 <=? doe_of_civil yoe m d)
                           && (doe_of_civil yoe m d <? 146097)
                           && (let '(y', m', d') := civil_of_doe (doe_of_civil yoe m d) in
                               (y' =? yoe) && (m' =? m) && (d' =? d))))
                    (seqZ 1 31))
                  (seqZ 1 12))
                (seqZ 0 400) = true) by (vm_cast_no_check (eq_refl true)).
  assert (Hd31 : d <= 31).
  { destruct Hd as [_ Hd]. unfold DaysInMonth in Hd.
    repeat match type of Hd with context [if ?c then _ else _] => destruct c end; lia. }
  pose proof (forallb_seqZ _ _ _ H yoe ltac:(lia)) as H1. cbv beta in H1.
  pose proof (forallb_seqZ _ _ _ H1 m ltac:(lia)) as H2. cbv beta in H2.
  pose proof (forallb_seqZ _ _ _ H2 d ltac:(lia)) as H3. cbv beta in H3.
  replace (d <=? DaysInMonth (yoe + (if m <=? 2 then 1 else 0)) m) with true in H3
    by (symmetry; apply Z.leb_le; lia).
  cbn [implb] in H3. apply andb_prop in H3. destruct H3 as [H3 H4].
  apply andb_prop in H3. destruct H3 as [H3 H5].
  apply Z.leb_le in H3. apply Z.ltb_lt in H5. split; [lia|].
  destruct (civil_of_doe (doe_of_civil yoe m d)) as [[y' m'] d'].
  apply andb_prop in H4. destruct H4 as [H4 H6].
  apply andb_prop in H4. destruct H4 as [H4 H7].
  apply Z.eqb_eq in H4, H6, H7. congruence.
Qed.

(** The day number of a calendar date reads back as that date. *)
Lemma civil_roundtrip (y m d : Z) :
  validDate y m d = true ->
  civil_from_days (days_from_civil y m d) = (y, m, d) /\
  (y / 400 - 1) * 146097 - 719468 <= days_from_civil y m d
    < (y / 400 + 1) * 146097 - 719468.
Proof.
  unfold validDate. intros H.
  apply andb_prop in H. destruct H as [H Hd2].
  apply andb_prop in H. destruct H as [H Hd1].
  apply andb_prop in H. destruct H as [Hm1 Hm2].
  apply Z.leb_le in Hm1, Hm2, Hd1, Hd2.
  unfold days_from_civil, civil_from_days. cbv zeta.
  set (delta := if m <=? 2 then 1 else 0).
  assert (Hy' : (if m <=? 2 then y - 1 else y) = y - delta)
    by (subst delta; destruct (m <=? 2); lia).
  rewrite Hy'.
  set (era := (y - delta) / 400).
  set (yoe := y - delta - era * 400).
  assert (Hyoe : 0 <= yoe < 400).
  { subst yoe era. pose proof (Z.mod_pos_bound (y - delta) 400 ltac:(lia)).
    pose proof (Z.div_mod (y - delta) 400 ltac:(lia)). lia. }
  assert (Hleap : DaysInMonth y m = DaysInMonth (yoe + delta) m).
  { unfold DaysInMonth. replace y with (era * 400 + (yoe + delta)) at 1 by (subst yoe; lia).
    rewrite is_leap_era. reflexivity. }
  destruct (era_roundtrip yoe m d Hyoe ltac:(lia)) as [Hdoe Hciv].
  { subst delta. rewrite <- Hleap. lia. }
  set (doe := doe_of_civil yoe m d) in *.
  replace (era * 146097 + doe - 719468 + 719468) with (doe + era * 146097) by lia.
  rewrite Z.div_add by lia. rewrite (Z.div_small doe 146097) by lia.
  replace (doe + era * 146097 - (0 + era) * 146097) with doe by lia.
  rewrite Hciv. split.
  - f_equal. f_equal. subst delta yoe. destruct (m <=? 2); lia.
  - assert (Hera : y / 400 - 1 <= era <= y / 400).
    { subst era delta.
      pose proof (Z.div_mod (y - (if m <=? 2 then 1 else 0)) 400 ltac:(lia)).
      pose proof (Z.mod_pos_bound (y - (if m <=? 2 then 1 else 0)) 400 ltac:(lia)).
      pose proof (Z.div_mod y 400 ltac:(lia)).
      pose proof (Z.mod_pos_bound y 400 ltac:(lia)).
      destruct (m <=? 2); lia. }
    lia.
Qed.

Lemma MakeDay_valid (y m d : Z) :
  1 <= m <= 12 -> MakeDay y (m - 1) d = days_from_civil y m d.
Proof.
  intros Hm. unfold MakeDay. cbv zeta.
  rewrite (Z.div_small (m - 1) 12) by lia. rewrite (Z.mod_small (m - 1) 12) by lia.
  replace (y + 0) with y by lia. replace (m - 1 + 1) with m by lia.
  unfold days_from_civil, doe_of_civil. cbv zeta. lia.
Qed.

(** *** Slash dates, at UTC and east of it *)

Lemma digits12_app (d rest : jsstring) (c : Z) :
  oneOrTwoDigits d -> is_digit c = false ->
  Re.digits12 (d ++ c :: rest) = Some (d, c :: rest).
Proof.
  intros [Hd Hlen] Hc. destruct d as [|c1 [|c2 [|c3 d]]]; simpl in Hlen; try lia.
  - apply Forall_cons in Hd. destruct Hd as [H1 _].
    cbn [app Re.digits12]. rewrite H1, Hc. reflexivity.
  - apply Forall_cons in Hd. destruct Hd as [H1 Hd].
    apply Forall_cons in Hd. destruct Hd as [H2 _].
    cbn [app Re.digits12]. rewrite H1, H2. reflexivity.
Qed.

Lemma digitsN_app (n : nat) (d rest : jsstring) :
  digitsOnly d -> length d = n -> Re.digitsN n (d ++ rest) = Some (d, rest).
Proof.
  intros Hd <-. induction Hd as [|c d Hc _ IH]; [reflexivity|].
  cbn [length app Re.digitsN]. rewrite Hc, IH. reflexivity.
Qed.

Lemma iso_date_accepts (y m d : jsstring) :
  digitsOnly y -> digitsOnly m -> digitsOnly d ->
  length y = 4%nat -> length m = 2%nat -> length d = 2%nat ->
  Re.iso_date (y ++ [45] ++ m ++ [45] ++ d) = Some (y, m, d).
Proof.
  intros Hy Hm Hd Ly Lm Ld. unfold Re.iso_date.
  rewrite (digitsN_app 4 y _ Hy Ly). cbv beta iota delta [mbind option_bind].
  cbn [app Re.char]. rewrite Z.eqb_refl.
  rewrite (digitsN_app 2 m _ Hm Lm). cbv beta iota.
  cbn [app Re.char]. rewrite Z.eqb_refl.
  pose proof (digitsN_app 2 d [] Hd Ld) as E. rewrite app_nil_r in E.
  rewrite E. reflexivity.
Qed.

Lemma slashDate_accepts (a b y : jsstring) :
  oneOrTwoDigits a -> oneOrTwoDigits b -> digitsOnly y -> length y = 4%nat ->
  slashDate (slashText a b y) = Some (a, b, y).
Proof.
  intros Ha Hb Hy Ly. unfold slashDate, slashText.
  rewrite (digits12_app a _ 47 Ha eq_refl). cbv beta iota delta [mbind option_bind].
  cbn [Re.char]. rewrite Z.eqb_refl.
  rewrite (digits12_app b _ 47 Hb eq_refl). cbv beta iota.
  cbn [Re.char]. rewrite Z.eqb_refl.
  pose proof (digitsN_app 4 y [] Hy Ly) as E. rewrite app_nil_r in E.
  rewrite E. reflexivity.
Qed.

Lemma padStart0_two (a : jsstring) :
  oneOrTwoDigits a ->
  digitsOnly (padStart0 2 a) /\ length (padStart0 2 a) = 2%nat /\
  digits_value (padStart0 2 a) = digits_value a.
Proof.
  intros [Ha Hlen]. destruct a as [|c1 [|c2 [|c3 a]]]; simpl in Hlen; try lia.
  - split; [|split].
    + apply Forall_cons_2; [reflexivity | exact Ha].
    + reflexivity.
    + unfold digits_value. simpl. lia.
  - split; [exact Ha | split; reflexivity].
Qed.

Lemma digits_value_four (y : jsstring) :
  digitsOnly y -> length y = 4%nat -> 0 <= digits_value y <= 9999.
Proof.
  intros Hy Ly. destruct y as [|c1 [|c2 [|c3 [|c4 [|c5 y]]]]]; simpl in Ly; try lia.
  repeat (apply Forall_cons in Hy; destruct Hy as [? Hy]).
  unfold is_digit in *. char_class. unfold digits_value. simpl. lia.
Qed.

(** The date part of [toISOString]. *)
Lemma isoDatePart_eq (t : Z) :
  0 <= YearFromTime t <= 9999 ->
  isoDatePart t = isoText (YearFromTime t) (MonthFromTime t + 1) (DateFromTime t).
Proof.
  intros Hy. unfold isoDatePart, toISOString, isoText. cbv zeta.
  replace ((0 <=? YearFromTime t) && (YearFromTime t <=? 9999)) with true
    by (symmetry; apply andb_true_intro; split; apply Z.leb_le; lia).
  set (x := JsDate.pad 4 (YearFromTime t) ++ [45] ++ JsDate.pad 2 (MonthFromTime t + 1)
              ++ [45] ++ JsDate.pad 2 (DateFromTime t)).
  assert (Hx : Forall (fun c => is_digit c || (c =? 45) = true) x).
  { assert (Hpad : forall n z, Forall (fun c => is_digit c || (c =? 45) = true) (JsDate.pad n z)).
    { intros n z. eapply Forall_impl; [apply pad_digitsOnly|].
      simpl; intros c ->; reflexivity. }
    subst x. apply Forall_app; split; [apply Hpad|].
    apply Forall_app; split; [repeat constructor|].
    apply Forall_app; split; [apply Hpad|].
    apply Forall_app; split; [repeat constructor | apply Hpad]. }
  match goal with
  | |- default [] (head (split 84 ?s)) = _ =>
      replace s with (x ++ 84 :: (JsDate.pad 2 (TimeWithinDay t / 3600000) ++ [58]
                       ++ JsDate.pad 2 (TimeWithinDay t / 60000 mod 60) ++ [58]
                       ++ JsDate.pad 2 (TimeWithinDay t / 1000 mod 60) ++ [46]
                       ++ JsDate.pad 3 (TimeWithinDay t mod 1000) ++ [90]))
        by (subst x; rewrite <- !app_assoc; reflexivity)
  end.
  rewrite split_head by (eapply Forall_class_excludes; [exact Hx | reflexivity]).
  reflexivity.
Qed.

(** On [A/B/YYYY] only the slash branch of [parseDate] applies. *)
Lemma parseDate_slash (tz : Z) (a b y : jsstring) :
  oneOrTwoDigits a -> oneOrTwoDigits b -> digitsOnly y -> length y = 4%nat ->
  parseDate tz (slashText a b y) =
    match acceptDate tz (JsDate.of_string
                           (y ++ [45] ++ padStart0 2 a ++ [45] ++ padStart0 2 b)) y with
    | Some r => Some r
    | None => acceptDate tz (JsDate.of_string
                               (y ++ [45] ++ padStart0 2 b ++ [45] ++ padStart0 2 a)) y
    end.
Proof.
  intros Ha Hb Hy Ly.
  pose proof (slashDate_accepts a b y Ha Hb Hy Ly) as Hslash.
  set (s := slashText a b y) in *.
  assert (H47 : 47 ∈ s).
  { subst s. unfold slashText. rewrite elem_of_app. right. left. }
  destruct Ha as [Ha La]. destruct a as [|c1 a']; [simpl in La; lia|].
  assert (Hc1 : is_digit c1 = true) by (apply Forall_cons in Ha; tauto).
  assert (Hyne : y <> []) by (destruct y; [discriminate|discriminate]).
  destruct (exists_last Hyne) as (y' & z & Hyz).
  assert (Hz : is_digit z = true).
  { unfold digitsOnly in Hy. rewrite Hyz in Hy. apply Forall_app in Hy.
    destruct Hy as [_ Hy]. apply Forall_cons in Hy. tauto. }
  assert (Hs : s = c1 :: (a' ++ 47 :: b ++ 47 :: y') ++ [z]).
  { subst s. unfold slashText. rewrite Hyz. cbn [app].
    rewrite <- !app_assoc. cbn [app]. rewrite <- !app_assoc. reflexivity. }
  assert (Htrim : trim s = s).
  { rewrite Hs. apply trim_ends; apply digit_not_ws; assumption. }
  assert (Hne : s <> []) by (rewrite Hs; discriminate).
  assert (Hiso : isoShape s = false).
  { destruct (isoShape s) eqn:E; [|reflexivity]. exfalso. revert H47.
    eapply Forall_class_excludes; [apply isoShape_chars; exact E | reflexivity]. }
  assert (Hmonth : monthDay s = None).
  { destruct (monthDay s) as [[m d]|] eqn:E; [|reflexivity]. exfalso.
    apply monthDay_inv in E. destruct E as (c & w & E & Hm & Hm3 & _).
    apply month_names_letters in Hm.
    destruct m as [|m1 m]; [discriminate|].
    apply Forall_cons in Hm. destruct Hm as [Hm1 _].
    rewrite Hs in E. injection E as E _. subst m1.
    apply letter_not_digit in Hm1. congruence. }
  assert (Hdigits : Re.all_digits s = false).
  { destruct (Re.all_digits s) eqn:E; [|reflexivity]. exfalso.
    apply all_digits_inv in E. destruct E as [_ E]. revert H47.
    eapply Forall_class_excludes; [exact E | reflexivity]. }
  unfold parseDate. rewrite (bool_decide_eq_false_2 _ Hne). cbv zeta.
  rewrite Htrim, Hiso, Hslash, Hmonth, Hdigits.
  cbv beta iota delta [mbind option_bind].
  destruct (acceptDate tz _ y); [reflexivity|].
  destruct (acceptDate tz _ y); reflexivity.
Qed.
Section EastOfUTC.
Variable tz : Z.
Hypothesis tz_east : 0 <= tz < 1440.

(** A calendar date built at midnight UTC keeps its year in local time,
    and is written back as it is. *)
Lemma acceptDate_valid (Y M D : Z) (y : jsstring) :
  validDate Y M D = true -> 0 <= Y <= 9999 -> parseInt y = Some Y ->
  acceptDate tz (TimeClip (MakeDate (MakeDay Y (M - 1) D) 0)) y = Some (isoText Y M D).
Proof.
  intros Hv HY Hy.
  destruct (civil_roundtrip Y M D Hv) as [Hciv Hbound].
  assert (HM : 1 <= M <= 12).
  { unfold validDate in Hv. repeat (apply andb_prop in Hv; destruct Hv as [Hv ?]).
    apply Z.leb_le in Hv. match goal with H : (M <=? 12) = true |- _ => apply Z.leb_le in H end.
    lia. }
  rewrite (MakeDay_valid Y M D HM).
  set (days := days_from_civil Y M D) in *.
  assert (Hera : 0 <= Y / 400 <= 24).
  { pose proof (Z.div_mod Y 400 ltac:(lia)). pose proof (Z.mod_pos_bound Y 400 ltac:(lia)). lia. }
  assert (Hclip : TimeClip (MakeDate days 0) = Some (days * msPerDay)).
  { unfold TimeClip, MakeDate, msPerDay.
    destruct (Z.leb_spec (Z.abs (days * 86400000 + 0)) 8640000000000000);
      [f_equal; lia | lia]. }
  rewrite Hclip. unfold acceptDate, getTime, getFullYear.
  cbv beta iota delta [fmap option_fmap option_map]. rewrite Hy.
  assert (Hday : forall off, 0 <= off < msPerDay -> Day (days * msPerDay + off) = days).
  { intros off Hoff. unfold Day. rewrite Z.add_comm, Z.div_add by discriminate.
    rewrite Z.div_small by exact Hoff. lia. }
  assert (Hlocal : YearFromTime (LocalTime tz (days * msPerDay)) = Y).
  { unfold YearFromTime, LocalTime. rewrite Hday, Hciv; [reflexivity|].
    unfold msPerDay, msPerMinute. lia. }
  rewrite Hlocal, Z.eqb_refl. f_equal.
  assert (Hday0 : Day (days * msPerDay) = days).
  { rewrite <- (Z.add_0_r (days * msPerDay)). apply Hday. unfold msPerDay. lia. }
  rewrite isoDatePart_eq; unfold YearFromTime, MonthFromTime, DateFromTime;
    rewrite Hday0, Hciv; cbn [fst snd]; [|lia].
  replace (M - 1 + 1) with M by lia. reflexivity.
Qed.

Lemma slash_candidate (y a b : jsstring) :
  digitsOnly y -> length y = 4%nat -> oneOrTwoDigits a -> oneOrTwoDigits b ->
  JsDate.of_string (y ++ [45] ++ padStart0 2 a ++ [45] ++ padStart0 2 b)
  = if validDate (digits_value y) (digits_value a) (digits_value b)
    then TimeClip (MakeDate (MakeDay (digits_value y) (digits_value a - 1) (digits_value b)) 0)
    else None.
Proof.
  intros Hy Ly Ha Hb. unfold JsDate.of_string.
  destruct (padStart0_two a Ha) as (Ha1 & Ha2 & Ha3).
  destruct (padStart0_two b Hb) as (Hb1 & Hb2 & Hb3).
  rewrite (iso_date_accepts y _ _ Hy Ha1 Hb1 Ly Ha2 Hb2).
  cbv beta iota delta [mbind option_bind]. cbv zeta. rewrite Ha3, Hb3. reflexivity.
Qed.

End EastOfUTC.

(** Where the local year cannot differ: at UTC and east of it (offset
    below one day), for [A/B/YYYY] with one or two digits [A], [B] and four digits
    [YYYY]: when month [A], day [B] is a date of the calendar, that date is
    returned; when [A] is no month (above 12) and month [B], day [A] is a
    date of the calendar, that date is returned; when neither [A] nor [B]
    is a month, the result is null. *)
Theorem slash_date_east_of_utc :
  forall tz (a b y : jsstring),
    0 <= tz < 1440 ->
    oneOrTwoDigits a -> oneOrTwoDigits b -> digitsOnly y -> length y = 4%nat ->
    let A := digits_value a in
    let B := digits_value b in
    let Y := digits_value y in
    (validDate Y A B = true ->
     parseDate tz (slashText a b y) = Some (isoText Y A B)) /\
    (12 < A -> validDate Y B A = true ->
     parseDate tz (slashText a b y) = Some (isoText Y B A)) /\
    (12 < A -> 12 < B -> parseDate tz (slashText a b y) = None).
Proof.
  intros tz a b y Htz Ha Hb Hy Ly A B Y.
  pose proof (digits_value_four y Hy Ly) as HY.
  assert (HyY : parseInt y = Some Y).
  { apply parseInt_digits; [exact Hy | destruct y; discriminate]. }
  assert (Hno : forall M D, 12 < M -> validDate Y M D = false).
  { intros M D HM. unfold validDate.
    replace (M <=? 12) with false by (symmetry; apply Z.leb_gt; lia).
    destruct (1 <=? M); reflexivity. }
  rewrite (parseDate_slash tz a b y Ha Hb Hy Ly).
  rewrite (slash_candidate y a b Hy Ly Ha Hb), (slash_candidate y b a Hy Ly Hb Ha).
  fold A B Y. split; [|split].
  - intros Hv. rewrite Hv, (acceptDate_valid tz Htz Y A B y Hv HY HyY). reflexivity.
  - intros HA Hv. rewrite (Hno A B HA), Hv.
    rewrite (acceptDate_valid tz Htz Y B A y Hv HY HyY). reflexivity.
  - intros HA HB. rewrite (Hno A B HA), (Hno B A HB). reflexivity.
Qed.

(** A day-first date, one hour east of UTC. *)
Lemma slash_date_east_of_utc_witness :
  parseDate 60 (slashText (str "31") (str "1") (str "2025")) = Some (str "2025-01-31").
Proof.
  pose proof (slash_date_east_of_utc 60 (str "31") (str "1") (str "2025") ltac:(lia)
                ltac:(split; [repeat constructor | right; reflexivity])
                ltac:(split; [repeat constructor | left; reflexivity])
                ltac:(repeat constructor) eq_refl) as (_ & H & _).
  rewrite (H ltac:(vm_compute; reflexivity) ltac:(vm_compute; reflexivity)).
  vm_compute. reflexivity.
Defined.

(* ===================================================================== *)
(** ** Trimming and the header normalization *)
(* ===================================================================== *)

Lemma headOk_trimStart (s : jsstring) : headOk (trimStart s).
Proof.
  induction s as [|c s IH]; simpl; [exact I|].
  destruct (is_ws c) eqn:E; [exact IH|]. simpl. exact E.
Qed.

Lemma trimStart_headOk (s : jsstring) : headOk s -> trimStart s = s.
Proof. destruct s as [|c s]; simpl; [reflexivity|]. intros ->. reflexivity. Qed.

Lemma headOk_trim (s : jsstring) : headOk (trim s) /\ headOk (rev (trim s)).
Proof.
  unfold trim, trimEnd. split.
  - pose proof (headOk_trimStart s) as Ha.
    destruct (trimStart_split (rev (trimStart s))) as (w & Hw & _).
    remember (trimStart (rev (trimStart s))) as b.
    assert (E : trimStart s = rev b ++ rev w).
    { rewrite <- rev_app_distr, <- Hw, rev_involutive. reflexivity. }
    destruct (rev b) as [|c x]; [exact I|].
    rewrite E in Ha. exact Ha.
  - rewrite rev_involutive. apply headOk_trimStart.
Qed.

Lemma trim_fixed (s : jsstring) : headOk s -> headOk (rev s) -> trim s = s.
Proof.
  intros H1 H2. unfold trim, trimEnd.
  rewrite (trimStart_headOk s H1), (trimStart_headOk _ H2). apply rev_involutive.
Qed.

Lemma trim_idem (s : jsstring) : trim (trim s) = trim s.
Proof. destruct (headOk_trim s). apply trim_fixed; assumption. Qed.

Lemma collapse_snoc (z : Z) (x : jsstring) :
  is_ws z = false -> forall b, collapse_from b (x ++ [z]) = collapse_from b x ++ [z].
Proof.
  intros Hz. induction x as [|c x IH]; intros b; simpl.
  - rewrite Hz. reflexivity.
  - destruct (is_ws c); [destruct b|]; rewrite IH; reflexivity.
Qed.

Lemma collapse_idem (s : jsstring) :
  forall b, collapse_from b (collapse_from b s) = collapse_from b s.
Proof.
  induction s as [|c s IH]; intros b; simpl; [reflexivity|].
  destruct (is_ws c) eqn:E.
  - destruct b; [apply IH|]. simpl. rewrite IH. reflexivity.
  - simpl. rewrite E, IH. reflexivity.
Qed.

Lemma headOk_collapse (s : jsstring) :
  headOk s -> headOk (rev s) ->
  headOk (collapse_ws s) /\ headOk (rev (collapse_ws s)).
Proof.
  intros H1 H2. unfold collapse_ws. split.
  - destruct s as [|c s]; [exact I|]. simpl in *. rewrite H1. simpl. exact H1.
  - destruct (rev s) as [|z x] eqn:E.
    + apply (f_equal (@rev Z)) in E. rewrite rev_involutive in E. subst s. exact I.
    + apply (f_equal (@rev Z)) in E. rewrite rev_involutive in E. simpl in E. subst s.
      simpl in H2. rewrite (collapse_snoc z (rev x) H2), rev_app_distr. simpl. exact H2.
Qed.

(** The dash replacement maps no character to or from whitespace. *)
Lemma is_ws_undash (c : Z) : is_ws (undash c) = is_ws c.
Proof.
  unfold undash, en_dash, em_dash.
  destruct (Z.eqb_spec c 8211); [subst; reflexivity|].
  destruct (Z.eqb_spec c 8212); [subst; reflexivity|]. reflexivity.
Qed.

Lemma undash_idem (c : Z) : undash (undash c) = undash c.
Proof.
  unfold undash, en_dash, em_dash.
  destruct (Z.eqb_spec c 8211); [reflexivity|].
  destruct (Z.eqb_spec c 8212); [reflexivity|]. simpl.
  destruct (Z.eqb_spec c 8211); [contradiction|].
  destruct (Z.eqb_spec c 8212); [contradiction|]. reflexivity.
Qed.

Section MapTrim.
Variable f : Z -> Z.
Hypothesis f_ws : forall c, is_ws (f c) = is_ws c.

Lemma trimStart_map (s : jsstring) : trimStart (map f s) = map f (trimStart s).
Proof.
  induction s as [|c s IH]; simpl; [reflexivity|].
  rewrite f_ws. destruct (is_ws c); [exact IH|reflexivity].
Qed.

Lemma trim_map (s : jsstring) : trim (map f s) = map f (trim s).
Proof.
  unfold trim, trimEnd.
  rewrite trimStart_map, <- map_rev, trimStart_map, map_rev. reflexivity.
Qed.

End MapTrim.

Lemma collapse_undash (s : jsstring) :
  forall b, collapse_from b (map undash s) = map undash (collapse_from b s).
Proof.
  induction s as [|c s IH]; intros b; simpl; [reflexivity|].
  rewrite is_ws_undash. destruct (is_ws c); [destruct b|]; simpl; rewrite IH; reflexivity.
Qed.

Lemma normalize_idem (s : jsstring) : normalize (normalize s) = normalize s.
Proof.
  unfold normalize, normalize_dashes. fold undash.
  rewrite (trim_map undash is_ws_undash). unfold collapse_ws.
  rewrite collapse_undash, map_map.
  destruct (headOk_trim s) as [H1 H2].
  destruct (headOk_collapse (trim s) H1 H2) as [H3 H4].
  unfold collapse_ws in H3, H4. rewrite (trim_fixed _ H3 H4), collapse_idem.
  apply map_ext. intros c. apply undash_idem.
Qed.

(** X1. The header normalization is idempotent: the three nested
    normalizations of a header (in [findDateIndices], then in
    [isValidDateHeader], then in [parseWeekRange]) see the same string, so
    a header is classified and expanded as its once-normalized form is. *)
Theorem normalize_is_idempotent :
  forall tz (h : jsstring),
    normalize (normalize h) = normalize h /\
    parseWeekRange tz (normalize h) = parseWeekRange tz h /\
    (normalize h <> [] ->
     isValidDateHeader tz (normalize h) =
       match parseWeekRange tz h with
       | Some _ => true
       | None => existsb (fun format => format (normalize h)) dateFormats
       end).
Proof.
  intros tz h. split; [apply normalize_idem|]. split.
  - unfold parseWeekRange. rewrite normalize_idem. reflexivity.
  - intros Hn. unfold isValidDateHeader.
    rewrite bool_decide_eq_false_2 by exact Hn.
    cbv zeta. rewrite normalize_idem.
    unfold parseWeekRange. rewrite normalize_idem. reflexivity.
Qed.

(** A header with a doubled space and spaces around it. *)
Lemma normalize_is_idempotent_witness :
  isValidDateHeader 0 (normalize (str " Oct  27 - Nov 2 ")) = true.
Proof.
  rewrite (proj2 (proj2 (normalize_is_idempotent 0 (str " Oct  27 - Nov 2 ")))
             ltac:(vm_compute; discriminate)).
  vm_compute. reflexivity.
Defined.

(* ===================================================================== *)
(** ** Headers that end the scan *)
(* ===================================================================== *)

Lemma month_head (t m r : jsstring) :
  Re.month t = Some (m, r) -> exists a rest, t = a :: rest /\ is_letter a = true.
Proof.
  intros H. pose proof (month_inv _ _ _ H) as (E & Hm & Hl).
  apply month_names_letters in Hm.
  destruct m as [|a m]; [discriminate|]. exists a, (m ++ r). split; [exact E|].
  apply Forall_cons in Hm. tauto.
Qed.

(** A string that does not start with a digit has none of the numeric
    date shapes. *)
Lemma no_digit_head (a : Z) (rest : jsstring) :
  is_digit a = false ->
  isoShape (a :: rest) = false /\ slashShape (a :: rest) = false /\
  Re.all_digits (a :: rest) = false /\ slashDate (a :: rest) = None.
Proof.
  intros Ha. repeat split.
  - unfold isoShape, Re.iso_date, Re.digitsN. rewrite Ha. reflexivity.
  - unfold slashShape, Re.digitsN. rewrite Ha. reflexivity.
  - unfold Re.all_digits. cbn [forallb]. rewrite Ha. reflexivity.
  - unfold slashDate, Re.digits12. destruct rest; rewrite Ha; reflexivity.
Qed.

(** A string that starts like a month-and-day and goes on with a dash is
    not a month-and-day. *)
Lemma range_not_monthDay (t : jsstring) :
  rangePattern1 t <> None \/ rangePattern2 t <> None -> monthDay t = None.
Proof.
  intros H. unfold monthDay.
  destruct (Re.month t) as [[m r1]|] eqn:E1; [|reflexivity].
  cbv beta iota delta [mbind option_bind].
  destruct (Re.ws1 r1) as [r2|] eqn:E2; [|reflexivity].
  destruct (Re.digits12 r2) as [[d r3]|] eqn:E3; [|reflexivity].
  destruct r3 as [|x r3]; [|reflexivity]. exfalso.
  destruct H as [H|H]; apply H.
  - unfold rangePattern1. rewrite E1. cbv beta iota delta [mbind option_bind].
    rewrite E2, E3. reflexivity.
  - unfold rangePattern2. rewrite E1. cbv beta iota delta [mbind option_bind].
    rewrite E2, E3. reflexivity.
Qed.

Lemma weekRangeBounds_month (t : jsstring) :
  weekRangeBounds t <> None ->
  (rangePattern1 t <> None \/ rangePattern2 t <> None) /\
  exists m r, Re.month t = Some (m, r).
Proof.
  unfold weekRangeBounds. intros H.
  destruct (rangePattern1 t) as [q|] eqn:E1.
  - split; [left; discriminate|].
    unfold rangePattern1 in E1. destruct (Re.month t) as [[m r]|]; [eauto|discriminate].
  - destruct (rangePattern2 t) as [q|] eqn:E2; [|contradiction].
    split; [right; discriminate|].
    unfold rangePattern2 in E2. destruct (Re.month t) as [[m r]|]; [eauto|discriminate].
Qed.

(** A string with the shape of a week range has none of the simple date
    shapes of [isValidDateHeader]. *)
Lemma weekRange_not_simple (t : jsstring) :
  weekRangeBounds t <> None ->
  t <> [] /\ existsb (fun format => format t) dateFormats = false.
Proof.
  intros H. destruct (weekRangeBounds_month t H) as (Hr & m & r & Hm).
  destruct (month_head _ _ _ Hm) as (a & rest & -> & Ha).
  split; [discriminate|].
  destruct (no_digit_head a rest (letter_not_digit a Ha)) as (H1 & H2 & H3 & _).
  unfold dateFormats. cbn [existsb]. rewrite H1, H2, H3, (range_not_monthDay _ Hr).
  reflexivity.
Qed.

(** X2. A week range whose end day comes before its start day in 2025
    (a range written across the new year, such as "Dec 29 - Jan 4") expands
    to nothing, and no other date shape fits it: the header is not a date
    header, so it ends the scan of [findDateIndices] and the columns from
    it on are not read. *)
Theorem reversed_week_range_ends_the_scan :
  forall tz (h : jsstring) (sm sd em ed : Z),
    -1440 < tz < 1440 ->
    weekRangeBounds (normalize h) = Some (Some sm, Some sd, Some em, Some ed) ->
    MakeDay 2025 em ed < MakeDay 2025 sm sd ->
    parseWeekRange tz h = None /\
    isValidDateHeader tz (normalize h) = false /\
    terminator tz h = true /\
    forall (i : nat) (rest : list jsstring), (scanHeaders tz i (h :: rest)).1 = [].
Proof.
  intros tz h sm sd em ed Htz Hb Hlt.
  assert (Hw : parseWeekRange tz h = None).
  { rewrite (parseWeekRange_days tz Htz), Hb. cbv zeta.
    destruct (Z.leb_spec (MakeDay 2025 sm sd) (MakeDay 2025 em ed)); [lia|reflexivity]. }
  assert (Hne : weekRangeBounds (normalize h) <> None) by (rewrite Hb; discriminate).
  destruct (weekRange_not_simple _ Hne) as [Hn Hf].
  assert (Hv : isValidDateHeader tz (normalize h) = false).
  { unfold isValidDateHeader. rewrite bool_decide_eq_false_2 by exact Hn.
    cbv zeta. rewrite normalize_idem.
    replace (parseWeekRange tz (normalize h)) with (parseWeekRange tz h)
      by (unfold parseWeekRange; rewrite normalize_idem; reflexivity).
    rewrite Hw. exact Hf. }
  assert (Ht : terminator tz h = true).
  { unfold terminator, blankHeader. rewrite bool_decide_eq_false_2 by exact Hn.
    rewrite Hv. reflexivity. }
  repeat split; try assumption.
  intros i rest. rewrite scanHeaders_cons.
  unfold blankHeader. rewrite bool_decide_eq_false_2 by exact Hn.
  rewrite Hv. reflexivity.
Qed.

(** The header "Dec 29 - Jan 4" at UTC. *)
Lemma reversed_week_range_ends_the_scan_witness :
  parseWeekRange 0 (str "Dec 29 - Jan 4") = None /\
  terminator 0 (str "Dec 29 - Jan 4") = true.
Proof.
  pose proof (reversed_week_range_ends_the_scan 0 (str "Dec 29 - Jan 4") 11 29 0 4
                ltac:(lia) ltac:(vm_compute; reflexivity) ltac:(vm_compute; reflexivity))
    as (H1 & _ & H2 & _).
  split; assumption.
Defined.

(* ===================================================================== *)
(** ** Where the records come from *)
(* ===================================================================== *)

(** X3. Every record of [transformData] comes from one data row with a
    non-blank category cell and one date column in which that row has a
    cell that resolves to an amount.  Its currency and parent id are the
    options', its parent type is ENTITY, description and category both are
    the leaf of the trimmed category, the amount is that amount in fixed
    notation, and the date is the last date of the column's expansion if it
    has one, and the resolved header otherwise. *)
Theorem transformData_provenance :
  forall tz parsed options r,
    r ∈ transformData tz parsed options ->
    amount_currency r = currency options /\
    parent_id r = parentId options /\
    parent_type r = str "ENTITY" /\
    metadata_atlar_category r = description r /\
    exists (row : list jsstring) (cat : jsstring) (j : nat) (amt : number),
      row ∈ data parsed /\
      row !! categoryIndex parsed = Some cat /\ trim cat <> [] /\
      description r = getCategoryLeaf (trim cat) /\
      j ∈ dateIndices parsed /\
      row !! j ≫= parseAmount = Some amt /\
      amount_stringValue r = toFixed2 amt /\
      match expandedDates parsed !! j with
      | Some (d0 :: ds) => date r = List.last ds d0
      | _ => date r <> [] /\ headers parsed !! j ≫= parseDate tz = Some (date r)
      end.
Proof.
  intros tz parsed options r Hr. unfold transformData in Hr.
  apply list_elem_of_In in Hr. apply in_flat_map in Hr. destruct Hr as (row & Hrow & Hr).
  unfold rowRecords in Hr.
  destruct (row !! categoryIndex parsed) as [cat|] eqn:Hcat; [|contradiction].
  cbn [fmap option_fmap option_map] in Hr.
  destruct (trim cat) as [|c0 cat'] eqn:Ht; [contradiction|].
  cbv zeta in Hr. apply in_flat_map in Hr. destruct Hr as (j & Hj & Hr).
  unfold cellRecords in Hr.
  destruct (row !! j ≫= parseAmount) as [amt|] eqn:Ha; [|contradiction].
  cbv zeta in Hr.
  assert (Hgoal : forall d,
            match expandedDates parsed !! j with
            | Some (d0 :: ds) => d = List.last ds d0
            | _ => d <> [] /\ headers parsed !! j ≫= parseDate tz = Some d
            end ->
            r = {| amount_currency := currency options;
                   amount_stringValue := toFixed2 amt;
                   date := d;
                   parent_id := parentId options;
                   parent_type := str "ENTITY";
                   description := getCategoryLeaf (c0 :: cat');
                   metadata_atlar_category := getCategoryLeaf (c0 :: cat') |} ->
            amount_currency r = currency options /\
            parent_id r = parentId options /\
            parent_type r = str "ENTITY" /\
            metadata_atlar_category r = description r /\
            exists (row : list jsstring) (cat : jsstring) (j : nat) (amt : number),
              row ∈ data parsed /\
              row !! categoryIndex parsed = Some cat /\ trim cat <> [] /\
              description r = getCategoryLeaf (trim cat) /\
              j ∈ dateIndices parsed /\
              row !! j ≫= parseAmount = Some amt /\
              amount_stringValue r = toFixed2 amt /\
              match expandedDates parsed !! j with
              | Some (d0 :: ds) => date r = List.last ds d0
              | _ => date r <> [] /\ headers parsed !! j ≫= parseDate tz = Some (date r)
              end).
  { intros d Hm ->. cbn [amount_currency parent_id parent_type
                         metadata_atlar_category description date amount_stringValue].
    repeat split.
    exists row, cat, j, amt. rewrite Ht.
    split; [apply list_elem_of_In; exact Hrow|]. split; [exact Hcat|].
    split; [discriminate|]. split; [reflexivity|].
    split; [apply list_elem_of_In; exact Hj|]. split; [exact Ha|].
    split; [reflexivity|]. exact Hm. }
  destruct (headers parsed !! j) as [h|] eqn:Hh;
    cbv beta iota delta [mbind option_bind] in Hr, Hgoal.
  - destruct (parseDate tz h) as [[|c d]|] eqn:Hd;
      destruct (expandedDates parsed !! j) as [[|d0 ds]|] eqn:Hex;
      try (exfalso; exact Hr); destruct Hr as [Hr|[]]; symmetry in Hr;
      first [ apply (Hgoal (List.last ds d0)); [reflexivity|exact Hr]
            | apply (Hgoal (c :: d)); [split; [discriminate|reflexivity]|exact Hr] ].
  - destruct (expandedDates parsed !! j) as [[|d0 ds]|] eqn:Hex;
      try (exfalso; exact Hr); destruct Hr as [Hr|[]]; symmetry in Hr.
    apply (Hgoal (List.last ds d0)); [reflexivity|exact Hr].
Qed.

(** The first record of the worked example. *)
Lemma transformData_provenance_witness :
  amount_currency (record "SEK" "1200.00" "2025-01-01" "ENTITY_ID" "ENTITY" "Ads" "Ads")
  = currency exampleOptions.
Proof.
  refine (proj1 (transformData_provenance 0 exampleParsed exampleOptions
                   (record "SEK" "1200.00" "2025-01-01" "ENTITY_ID" "ENTITY" "Ads" "Ads") _)).
  apply list_elem_of_In. vm_compute. left. reflexivity.
Defined.

Lemma flat_map_length_le {A B} (f : A -> list B) (k : nat) (l : list A) :
  (forall x, (length (f x) <= k)%nat) -> (length (flat_map f l) <= length l * k)%nat.
Proof.
  intros Hf. induction l as [|x l IH]; simpl; [lia|].
  rewrite length_app. pose proof (Hf x). lia.
Qed.

(** X4. Both transformers emit at most one record for a data row and a
    date column, also for a column headed by a week range: the number of
    records is at most the number of data rows times the number of date
    columns. *)
Theorem at_most_one_record_per_cell :
  forall tz,
    (forall parsed options descr row j,
       (length (cellRecords tz parsed options descr row j) <= 1)%nat) /\
    (forall parsed options,
       (length (transformData tz parsed options)
        <= length (data parsed) * length (dateIndices parsed))%nat) /\
    (forall parsed,
       (length (Multi.transformDataMulti tz parsed)
        <= length (Multi.data parsed) * length (Multi.dateIndices parsed))%nat).
Proof.
  intros tz.
  assert (Hcell : forall parsed options descr row j,
             (length (cellRecords tz parsed options descr row j) <= 1)%nat).
  { intros. unfold cellRecords.
    destruct (row !! j ≫= parseAmount); [|simpl; lia]. cbv zeta.
    destruct (headers parsed !! j) as [h|];
      cbv beta iota delta [mbind option_bind];
      [destruct (parseDate tz h) as [[|c d]|]|];
      destruct (expandedDates parsed !! j) as [[|d0 ds]|]; cbn [length]; lia. }
  split; [exact Hcell|]. split.
  - intros parsed options. unfold transformData. apply flat_map_length_le.
    intros row. unfold rowRecords.
    destruct (trim <$> row !! categoryIndex parsed) as [[|c cat]|]; try (simpl; lia).
    cbv zeta. pose proof (flat_map_length_le
      (cellRecords tz parsed options (getCategoryLeaf (c :: cat)) row) 1
      (dateIndices parsed) (Hcell _ _ _ _)) as H. lia.
  - intros parsed. unfold Multi.transformDataMulti. apply flat_map_length_le.
    intros row. unfold Multi.rowRecords.
    destruct (trim <$> row !! Multi.categoryIndex parsed) as [[|c cat]|]; try (simpl; lia).
    cbv zeta.
    destruct (_ <$> row !! Multi.currencyIndex parsed) as [[|c1 cur]|]; try (simpl; lia).
    destruct (trim <$> row !! Multi.entityIdIndex parsed) as [[|c2 pid]|]; try (simpl; lia).
    pose proof (flat_map_length_le
      (Multi.cellRecords tz parsed (c1 :: cur) (c2 :: pid) (getCategoryLeaf (c :: cat)) row) 1
      (Multi.dateIndices parsed)) as H.
    rewrite Nat.mul_1_r in H. apply H. intros j. unfold Multi.cellRecords. cbv zeta.
    destruct (Multi.headers parsed !! j) as [h|];
      cbv beta iota delta [mbind option_bind];
      [destruct (parseDate tz h) as [[|c0 d]|]|];
      destruct (row !! j) as [x|]; try (cbn [length]; lia);
      destruct (parseAmount x); cbn [length]; lia.
Qed.

(** X5. For a sheet whose currency cells hold ASCII characters only
    (there the upper-casing of the code changes the letters a to z and
    nothing else): every record of [transformDataMulti] comes from one
    data row with non-blank category, currency and entity-id cells and one
    date column whose header [parseDate] resolves and in which the row has
    a cell that resolves to an amount.  The currency is the row's currency
    cell in upper case, trimmed, the parent id the trimmed entity-id cell,
    the date the resolved header. *)
Theorem transformDataMulti_provenance :
  forall tz parsed r,
    asciiCurrencies parsed ->
    r ∈ Multi.transformDataMulti tz parsed ->
    parent_type r = str "ENTITY" /\
    metadata_atlar_category r = description r /\
    amount_currency r <> [] /\ parent_id r <> [] /\ date r <> [] /\
    exists (row : list jsstring) (cat cur pid h : jsstring) (j : nat) (amt : number),
      row ∈ Multi.data parsed /\
      row !! Multi.categoryIndex parsed = Some cat /\ trim cat <> [] /\
      description r = getCategoryLeaf (trim cat) /\
      row !! Multi.currencyIndex parsed = Some cur /\ asciiOnly cur /\
      amount_currency r = trim (toUpperCase cur) /\
      row !! Multi.entityIdIndex parsed = Some pid /\
      parent_id r = trim pid /\
      j ∈ Multi.dateIndices parsed /\
      Multi.headers parsed !! j = Some h /\
      parseDate tz h = Some (date r) /\
      row !! j ≫= parseAmount = Some amt /\
      amount_stringValue r = toFixed2 amt.
Proof.
  intros tz parsed r Hascii Hr. unfold Multi.transformDataMulti in Hr.
  apply list_elem_of_In in Hr. apply in_flat_map in Hr. destruct Hr as (row & Hrow & Hr).
  unfold asciiCurrencies in Hascii. rewrite Forall_forall in Hascii.
  pose proof (Hascii row ltac:(apply list_elem_of_In; exact Hrow)) as Hrowascii.
  unfold Multi.rowRecords in Hr.
  destruct (row !! Multi.categoryIndex parsed) as [cat|] eqn:Hcat; [|contradiction].
  cbn [fmap option_fmap option_map] in Hr.
  destruct (trim cat) as [|c0 cat'] eqn:Ht; [contradiction|].
  cbv zeta in Hr.
  destruct (row !! Multi.currencyIndex parsed) as [cur|] eqn:Hcur; [|contradiction].
  cbn [fmap option_fmap option_map] in Hr.
  destruct (trim (toUpperCase cur)) as [|c1 cur'] eqn:Hc; [contradiction|].
  destruct (row !! Multi.entityIdIndex parsed) as [pid|] eqn:Hpid; [|contradiction].
  cbn [fmap option_fmap option_map] in Hr.
  destruct (trim pid) as [|c2 pid'] eqn:Hp; [contradiction|].
  apply in_flat_map in Hr. destruct Hr as (j & Hj & Hr).
  unfold Multi.cellRecords in Hr. cbv zeta in Hr.
  destruct (Multi.headers parsed !! j) as [h|] eqn:Hh; [|contradiction].
  cbn [mbind option_bind] in Hr.
  destruct (parseDate tz h) as [[|c d]|] eqn:Hd; try contradiction.
  destruct (row !! j ≫= parseAmount) as [amt|] eqn:Ha; [|contradiction].
  destruct Hr as [Hr|[]]. subst r.
  cbn [amount_currency parent_id parent_type
       metadata_atlar_category description date amount_stringValue].
  repeat split; try discriminate.
  exists row, cat, cur, pid, h, j, amt. rewrite Ht, Hc, Hp.
  split; [apply list_elem_of_In; exact Hrow|]. split; [exact Hcat|].
  split; [discriminate|]. split; [reflexivity|]. split; [exact Hcur|].
  split; [apply Hrowascii; reflexivity|].
  split; [reflexivity|]. split; [exact Hpid|]. split; [reflexivity|].
  split; [apply list_elem_of_In; exact Hj|]. split; [exact Hh|].
  split; [exact Hd|]. split; [exact Ha|reflexivity].
Qed.

(** A record of the multi-entity example. *)
Lemma transformDataMulti_provenance_witness :
  parent_type (record "SEK" "150.00" "2025-01-01" "ACME" "ENTITY" "Office" "Office")
  = str "ENTITY".
Proof.
  refine (proj1 (transformDataMulti_provenance 0 exampleMultiParsed
                   (record "SEK" "150.00" "2025-01-01" "ACME" "ENTITY" "Office" "Office") _ _)).
  - apply Forall_cons_2; [|apply Forall_nil_2].
    intros cur [= <-]. apply Forall_forall. intros c Hc.
    apply list_elem_of_In in Hc. vm_compute in Hc.
    repeat (destruct Hc as [<-|Hc]; [lia|]). contradiction.
  - apply list_elem_of_In. vm_compute. left. reflexivity.
Defined.

(* ===================================================================== *)
(** ** The multi-entity parser *)
(* ===================================================================== *)

Lemma findIndex_map {A B} (f : A -> B) (p : B -> bool) (l : list A) :
  findIndex p (map f l) = findIndex (fun x => p (f x)) l.
Proof.
  induction l as [|x l IH]; simpl; [reflexivity|]. rewrite IH. reflexivity.
Qed.

Lemma findIndex_ext {A} (p q : A -> bool) (l : list A) :
  (forall x, p x = q x) -> findIndex p l = findIndex q l.
Proof.
  intros H. induction l as [|x l IH]; simpl; [reflexivity|]. rewrite H, IH. reflexivity.
Qed.

Lemma findIndex_lt {A} (p : A -> bool) (l : list A) (i : nat) :
  findIndex p l = Some i -> (i < length l)%nat.
Proof.
  intros H. apply findIndex_Some in H. destruct H as [(x & Hx & _) _].
  apply lookup_lt_Some in Hx. exact Hx.
Qed.

(** The category column is found the same way by both parsers. *)
Lemma category_label (hs : list jsstring) :
  findIndex MultiParser.is_category_label (MultiParser.lowerHeaders hs)
  = findCategoryIndex hs.
Proof.
  unfold MultiParser.lowerHeaders, findCategoryIndex. rewrite findIndex_map.
  apply findIndex_ext. intros h. unfold MultiParser.is_category_label, is_category.
  destruct h as [|c h]; [reflexivity|]. reflexivity.
Qed.

(** X6. A grid that the multi-entity parser accepts is accepted by the
    single-entity parser too, with the same headers, data rows, category
    column and date columns. *)
Theorem multi_schema_is_a_single_schema :
  forall tz grid parsedMulti,
    MultiParser.parseArrayDataMulti tz grid = inr parsedMulti ->
    exists parsed,
      parseArrayData tz grid = inr parsed /\
      headers parsed = Multi.headers parsedMulti /\
      data parsed = Multi.data parsedMulti /\
      categoryIndex parsed = Multi.categoryIndex parsedMulti /\
      dateIndices parsed = Multi.dateIndices parsedMulti.
Proof.
  intros tz [|row0 rows] pm H; [discriminate|].
  unfold MultiParser.parseArrayDataMulti in H. cbv zeta in H.
  destruct (findIndex MultiParser.is_entity_id _) as [e|]; [|discriminate].
  destruct (findIndex MultiParser.is_currency _) as [c|]; [|discriminate].
  rewrite category_label in H.
  unfold parseArrayData. cbv zeta.
  destruct (findCategoryIndex (map convertHeader row0)) as [k|]; [|discriminate].
  destruct (findDateIndices tz (map convertHeader row0) k) as [ix ex].
  cbn [fst] in H. destruct ix as [|j ix]; [discriminate|].
  unfold isNonEmptyRow in H.
  destruct (List.filter _ rows) as [|r rs]; [discriminate|].
  injection H as <-. eexists. split; [reflexivity|]. repeat split.
Qed.

Lemma multi_schema_is_a_single_schema_witness :
  exists parsed, parseArrayData 0 exampleMultiGrid = inr parsed.
Proof.
  destruct (multi_schema_is_a_single_schema 0 exampleMultiGrid exampleMultiParsed
              ltac:(vm_compute; reflexivity)) as (parsed & H & _).
  exists parsed. exact H.
Defined.

Lemma lower_ws (c : Z) : is_ws (lower c) = is_ws c.
Proof.
  unfold lower. destruct ((65 <=? c) && (c <=? 90)) eqn:E; [|reflexivity].
  apply andb_prop in E. destruct E as [E1 E2].
  apply Z.leb_le in E1, E2. unfold is_ws.
  repeat match goal with
         | |- context [?a <=? ?b] => destruct (Z.leb_spec a b); try lia
         | |- context [?a =? ?b] => destruct (Z.eqb_spec a b); try lia
         end; reflexivity.
Qed.

Lemma trim_lower (h : jsstring) : trim (toLowerCase h) = toLowerCase (trim h).
Proof. apply (trim_map lower lower_ws). Qed.

Lemma undash_letter (c : Z) : is_letter c = true -> undash c = c.
Proof.
  intros H. unfold undash, en_dash, em_dash.
  destruct (Z.eqb_spec c 8211); [subst; discriminate|].
  destruct (Z.eqb_spec c 8212); [subst; discriminate|]. reflexivity.
Qed.

(** A header whose trimmed text starts with three letters that are not a
    month abbreviation is neither blank nor a date header. *)
Lemma letters_terminator (tz : Z) (h : jsstring) (a b c : Z) (rest : jsstring) :
  trim h = a :: b :: c :: rest ->
  is_letter a = true -> is_letter b = true -> is_letter c = true ->
  toLowerCase [a; b; c] ∉ Re.month_names ->
  terminator tz h = true.
Proof.
  intros Ht Ha Hb Hc Hm.
  assert (Hn : exists rest', normalize h = a :: b :: c :: rest').
  { unfold normalize, collapse_ws, normalize_dashes. fold undash. rewrite Ht.
    cbn [collapse_from].
    rewrite (letter_not_ws a Ha), (letter_not_ws b Hb), (letter_not_ws c Hc).
    cbn [map]. rewrite (undash_letter a Ha), (undash_letter b Hb), (undash_letter c Hc).
    eauto. }
  destruct Hn as (rest' & Hn).
  assert (Hmonth : Re.month (normalize h) = None).
  { rewrite Hn. unfold Re.month. rewrite bool_decide_eq_false_2 by exact Hm. reflexivity. }
  assert (Hw : weekRangeBounds (normalize h) = None).
  { unfold weekRangeBounds, rangePattern1, rangePattern2. rewrite Hmonth. reflexivity. }
  unfold terminator, blankHeader. rewrite bool_decide_eq_false_2 by (rewrite Hn; discriminate).
  unfold isValidDateHeader. rewrite bool_decide_eq_false_2 by (rewrite Hn; discriminate).
  cbv zeta. rewrite normalize_idem. unfold parseWeekRange. rewrite normalize_idem, Hw.
  unfold dateFormats, monthDay. cbn [existsb]. rewrite Hmonth. rewrite Hn.
  destruct (no_digit_head a (b :: c :: rest') (letter_not_digit a Ha)) as (H1 & H2 & H3 & _).
  rewrite H1, H2, H3. reflexivity.
Qed.

Lemma label_terminator (tz : Z) (h : jsstring) (l1 l2 l3 : Z) (lrest : jsstring) :
  trim (toLowerCase h) = l1 :: l2 :: l3 :: lrest ->
  97 <= l1 <= 122 -> 97 <= l2 <= 122 -> 97 <= l3 <= 122 ->
  [l1; l2; l3] ∉ Re.month_names ->
  terminator tz h = true.
Proof.
  intros Ht H1 H2 H3 Hm. rewrite trim_lower in Ht.
  destruct (trim h) as [|a [|b [|c rest]]] eqn:E; try discriminate.
  unfold toLowerCase in Ht. cbn [map] in Ht. injection Ht as <- <- <- _.
  apply (letters_terminator tz h a b c rest E); try (apply lower_letter; assumption).
  exact Hm.
Qed.

(** The labels of the entity-id and currency columns are not dates. *)
Lemma multi_label_terminator (tz : Z) (h : jsstring) :
  MultiParser.is_entity_id (trim (toLowerCase h)) = true \/
  MultiParser.is_currency (trim (toLowerCase h)) = true ->
  terminator tz h = true.
Proof.
  unfold MultiParser.is_entity_id, MultiParser.is_currency.
  intros [H|H];
    repeat match type of H with
           | _ || _ = true => apply orb_prop in H; destruct H as [H|H]
           end;
    apply bool_decide_eq_true_1 in H;
    match type of H with
    | _ = ?l => let l' := eval vm_compute in l in change l with l' in H
    end;
    (eapply label_terminator; [exact H | lia | lia | lia |]);
    (intros Hin; apply list_elem_of_In in Hin; vm_compute in Hin;
     repeat (destruct Hin as [Hin|Hin]; [discriminate|]); exact Hin).
Qed.

(** Nothing right of a terminator is a date column. *)
Lemma terminator_blocks (tz : Z) (hs : list jsstring) (k e j : nat) (h : jsstring) :
  hs !! e = Some h -> terminator tz h = true -> (k < e)%nat ->
  j ∈ (findDateIndices tz hs k).1 -> (j < e)%nat.
Proof.
  intros He Ht Hke Hj. unfold findDateIndices in Hj.
  pose proof (scanHeaders_bounds tz (drop (S k) hs) (S k)) as Hb.
  rewrite Forall_forall in Hb. pose proof (Hb j Hj) as Hkj.
  replace j with (S k + (j - S k))%nat in Hj by lia.
  apply scanHeaders_elem in Hj. destruct Hj as ((hj & Hhj & Hd) & Hall).
  rewrite lookup_drop in Hhj. replace (S k + (j - S k))%nat with j in Hhj by lia.
  destruct (Nat.lt_trichotomy j e) as [Hlt|[Heq|Hgt]]; [exact Hlt| |]; exfalso.
  - subst j. rewrite He in Hhj. injection Hhj as <-.
    unfold dateHeader in Hd. unfold terminator in Ht.
    destruct (blankHeader h); [discriminate|].
    destruct (isValidDateHeader tz (normalize h)); discriminate.
  - rewrite Forall_forall in Hall.
    assert (Hin : h ∈ take (j - S k) (drop (S k) hs)).
    { apply list_elem_of_lookup. exists (e - S k)%nat.
      rewrite lookup_take_lt by lia. rewrite lookup_drop.
      replace (S k + (e - S k))%nat with e by lia. exact He. }
    apply Hall in Hin. congruence.
Qed.

Lemma lowerHeaders_find (p : jsstring -> bool) (hs : list jsstring) (i : nat) :
  findIndex p (MultiParser.lowerHeaders hs) = Some i ->
  exists h, hs !! i = Some h /\ p (trim (toLowerCase h)) = true.
Proof.
  unfold MultiParser.lowerHeaders. rewrite findIndex_map. intros H.
  apply findIndex_Some in H. destruct H as [H _]. exact H.
Qed.

(** X7. In a grid that the multi-entity parser accepts, the three
    indices address headers with the labels of the entity-id, currency and
    category columns; these are three different columns, every date
    column lies right of the category column, and neither the entity-id
    nor the currency column lies between the category column and a date
    column: each is left of the category column or right of all date
    columns.  (Their labels are not date headers, so one of them right of
    the category column ends the scan for date columns.)  With the two
    columns placed between the category and the first date, parsing fails
    for want of date columns. *)
Theorem multi_columns_layout :
  forall tz,
    (forall grid parsed,
       MultiParser.parseArrayDataMulti tz grid = inr parsed ->
       let e := Multi.entityIdIndex parsed in
       let c := Multi.currencyIndex parsed in
       let k := Multi.categoryIndex parsed in
       (exists h, Multi.headers parsed !! e = Some h /\
                  MultiParser.is_entity_id (trim (toLowerCase h)) = true) /\
       (exists h, Multi.headers parsed !! c = Some h /\
                  MultiParser.is_currency (trim (toLowerCase h)) = true) /\
       (exists h, Multi.headers parsed !! k = Some h /\
                  trim (toLowerCase h) = str "category") /\
       e <> k /\ c <> k /\ e <> c /\
       Forall (fun j => (k < j)%nat /\ (e < k \/ j < e)%nat /\ (c < k \/ j < c)%nat)
              (Multi.dateIndices parsed)) /\
    MultiParser.parseArrayDataMulti tz misplacedMultiGrid = inl MultiParser.NoDateColumns.
Proof.
  intros tz. split; [|vm_compute; reflexivity].
  intros [|row0 rows] pm H; [discriminate|].
  unfold MultiParser.parseArrayDataMulti in H. cbv zeta in H.
  set (hs := map convertHeader row0) in *.
  destruct (findIndex MultiParser.is_entity_id _) as [e|] eqn:He; [|discriminate].
  destruct (findIndex MultiParser.is_currency _) as [c|] eqn:Hc; [|discriminate].
  destruct (findIndex MultiParser.is_category_label _) as [k|] eqn:Hk; [|discriminate].
  destruct ((findDateIndices tz hs k).1) as [|j0 ix] eqn:Hix; [discriminate|].
  destruct (List.filter isNonEmptyRow rows) as [|r rs]; [discriminate|].
  injection H as <-. cbn [Multi.entityIdIndex Multi.currencyIndex Multi.categoryIndex
                           Multi.dateIndices Multi.headers]. cbv zeta.
  apply lowerHeaders_find in He, Hc, Hk.
  destruct He as (he & Hhe & Le), Hc as (hc & Hhc & Lc), Hk as (hk & Hhk & Lk).
  unfold MultiParser.is_category_label in Lk. apply bool_decide_eq_true_1 in Lk.
  assert (Hek : e <> k).
  { intros ->. rewrite Hhe in Hhk. injection Hhk as <-. rewrite Lk in Le. discriminate. }
  assert (Hck : c <> k).
  { intros ->. rewrite Hhc in Hhk. injection Hhk as <-. rewrite Lk in Lc. discriminate. }
  assert (Hec : e <> c).
  { intros ->. rewrite Hhe in Hhc. injection Hhc as <-.
    unfold MultiParser.is_entity_id in Le. unfold MultiParser.is_currency in Lc.
    repeat match type of Le with
           | _ || _ = true => apply orb_prop in Le; destruct Le as [Le|Le]
           end;
    apply bool_decide_eq_true_1 in Le; rewrite Le in Lc; discriminate. }
  split; [eauto|]. split; [eauto|]. split; [eauto|].
  repeat split; try assumption.
  apply Forall_forall. intros j Hj. rewrite <- Hix in Hj.
  split; [|split].
  - unfold findDateIndices in Hj.
    pose proof (scanHeaders_bounds tz (drop (S k) hs) (S k)) as Hb.
    rewrite Forall_forall in Hb. apply Hb in Hj. lia.
  - destruct (Nat.lt_ge_cases e k) as [Hlt|Hge]; [left; exact Hlt|right].
    apply (terminator_blocks tz hs k e j he Hhe); [|lia|exact Hj].
    apply multi_label_terminator. left. exact Le.
  - destruct (Nat.lt_ge_cases c k) as [Hlt|Hge]; [left; exact Hlt|right].
    apply (terminator_blocks tz hs k c j hc Hhc); [|lia|exact Hj].
    apply multi_label_terminator. right. exact Lc.
Qed.

Lemma multi_columns_layout_witness :
  Multi.entityIdIndex exampleMultiParsed <> Multi.categoryIndex exampleMultiParsed.
Proof.
  exact (proj1 (proj2 (proj2 (proj2
           (proj1 (multi_columns_layout 0) exampleMultiGrid exampleMultiParsed
              ltac:(vm_compute; reflexivity)))))).
Defined.

(* ===================================================================== *)
(** ** Week-range headers and [parseDate] *)
(* ===================================================================== *)

Lemma undash_digit (c : Z) : is_digit c = true -> undash c = c.
Proof.
  intros H. unfold undash, en_dash, em_dash.
  destruct (Z.eqb_spec c 8211); [subst; discriminate|].
  destruct (Z.eqb_spec c 8212); [subst; discriminate|]. reflexivity.
Qed.

Lemma normalize_head_digit (h : jsstring) (d0 : Z) (t : jsstring) :
  trim h = d0 :: t -> is_digit d0 = true -> exists rest, normalize h = d0 :: rest.
Proof.
  intros Ht Hd. unfold normalize, collapse_ws, normalize_dashes. fold undash. rewrite Ht.
  cbn [collapse_from]. rewrite (digit_not_ws d0 Hd). cbn [map].
  rewrite (undash_digit d0 Hd). eauto.
Qed.

Lemma collapse_Forall (P : Z -> Prop) (s : jsstring) :
  P 32 -> Forall P s -> forall b, Forall P (collapse_from b s).
Proof.
  intros H32 Hs. induction Hs as [|c s Hc _ IH]; intros b; simpl; [constructor|].
  destruct (is_ws c); [destruct b|]; try constructor; auto.
Qed.

Lemma normalize_Forall (P : Z -> Prop) (h : jsstring) :
  P 32 -> (forall c, P c -> P (undash c)) -> Forall P (trim h) -> Forall P (normalize h).
Proof.
  intros H32 Hu Ht. unfold normalize, collapse_ws, normalize_dashes. fold undash.
  apply Forall_map. eapply Forall_impl; [apply collapse_Forall; eassumption|].
  exact Hu.
Qed.

Lemma monthDayChar_undash (c : Z) : monthDayChar c -> monthDayChar (undash c).
Proof.
  unfold monthDayChar, undash, en_dash, em_dash. intros H.
  destruct (Z.eqb_spec c 8211); [subst; discriminate|].
  destruct (Z.eqb_spec c 8212); [subst; discriminate|]. exact H.
Qed.

Lemma monthDayChar_not_dash (c : Z) : monthDayChar c -> is_dash c = false.
Proof.
  unfold monthDayChar, is_dash, en_dash, em_dash. intros H.
  destruct (Z.eqb_spec c 45); [subst; discriminate|].
  destruct (Z.eqb_spec c 8211); [subst; discriminate|].
  destruct (Z.eqb_spec c 8212); [subst; discriminate|]. reflexivity.
Qed.

(** A string with the shape of a week range contains a dash. *)
Lemma range_has_dash (t : jsstring) :
  rangePattern1 t <> None \/ rangePattern2 t <> None ->
  exists c, c ∈ t /\ is_dash c = true.
Proof.
  intros H.
  assert (Hd : exists m r1 r2 d r3 r4,
             Re.month t = Some (m, r1) /\ Re.ws1 r1 = Some r2 /\
             Re.digits12 r2 = Some (d, r3) /\ Re.dash (Re.ws0 r3) = Some r4).
  { destruct H as [H|H].
    - unfold rangePattern1 in H.
      destruct (Re.month t) as [[m r1]|] eqn:E1; [|contradiction].
      cbv beta iota delta [mbind option_bind] in H.
      destruct (Re.ws1 r1) as [r2|] eqn:E2; [|contradiction].
      destruct (Re.digits12 r2) as [[d r3]|] eqn:E3; [|contradiction].
      destruct (Re.dash (Re.ws0 r3)) as [r4|] eqn:E4; [|contradiction].
      exists m, r1, r2, d, r3, r4. repeat split; assumption.
    - unfold rangePattern2 in H.
      destruct (Re.month t) as [[m r1]|] eqn:E1; [|contradiction].
      cbv beta iota delta [mbind option_bind] in H.
      destruct (Re.ws1 r1) as [r2|] eqn:E2; [|contradiction].
      destruct (Re.digits12 r2) as [[d r3]|] eqn:E3; [|contradiction].
      destruct (Re.dash (Re.ws0 r3)) as [r4|] eqn:E4; [|contradiction].
      exists m, r1, r2, d, r3, r4. repeat split; assumption. }
  destruct Hd as (m & r1 & r2 & d & r3 & r4 & H1 & H2 & H3 & H4).
  apply month_inv in H1. destruct H1 as (-> & _).
  apply ws1_inv in H2. destruct H2 as (c & w & -> & _).
  apply digits12_inv in H3. destruct H3 as (-> & _).
  apply dash_inv in H4. destruct H4 as (x & Hx & Hdash).
  destruct (trimStart_split r3) as (w' & Hw' & _). unfold Re.ws0 in Hx.
  exists x. split; [|exact Hdash].
  rewrite Hw', Hx. apply elem_of_app. right. apply elem_of_cons. right.
  apply elem_of_app. right. apply elem_of_app. right. apply elem_of_app. right. left.
Qed.

(** No week-range header is a date for [parseDate]. *)
Lemma weekRange_not_parseDate (tz : Z) (h : jsstring) :
  weekRangeBounds (normalize h) <> None -> parseDate tz h = None.
Proof.
  intros Hw. destruct (weekRangeBounds_month _ Hw) as (Hr & m & r & Hm).
  destruct (month_head _ _ _ Hm) as (a & rest & Hn & Ha).
  assert (Hdigit : forall d0 t, trim h = d0 :: t -> is_digit d0 = true -> False).
  { intros d0 t Ht Hd. destruct (normalize_head_digit h d0 t Ht Hd) as (rest' & E).
    rewrite E in Hn. injection Hn as -> _.
    rewrite (letter_not_digit a Ha) in Hd. discriminate. }
  destruct (parseDate tz h) as [res|] eqn:E; [exfalso|reflexivity].
  apply parseDate_cases in E.
  destruct E as [[Hiso _]|[_ [(x & y & z & t & Hs & _)|[(mm & d & k & Hmd & _)|[Hall _]]]]].
  - unfold isoShape in Hiso.
    destruct (Re.iso_date (trim h)) as [[[y mo] d]|] eqn:E; [|discriminate].
    apply iso_date_inv in E. destruct E as (E & (Hl & _) & Hy & _).
    destruct y as [|d0 y]; [discriminate|]. apply Forall_cons in Hy.
    apply (Hdigit d0 (y ++ 45 :: mo ++ 45 :: d) E). tauto.
  - apply slashDate_inv in Hs. destruct Hs as (E & Hx & _ & _ & Hl & _).
    destruct x as [|d0 x]; [destruct Hl as (c & [Hl|(c' & Hl)]); discriminate|].
    apply Forall_cons in Hx. apply (Hdigit d0 (x ++ 47 :: y ++ 47 :: z) E). tauto.
  - apply monthDay_chars in Hmd.
    pose proof (normalize_Forall monthDayChar h eq_refl monthDayChar_undash Hmd) as Hc.
    destruct (range_has_dash _ Hr) as (c & Hin & Hdash).
    rewrite Forall_forall in Hc. apply Hc in Hin.
    rewrite (monthDayChar_not_dash c Hin) in Hdash. discriminate.
  - apply all_digits_inv in Hall. destruct Hall as [Hne Hd].
    destruct (trim h) as [|d0 t] eqn:E; [contradiction|].
    apply Forall_cons in Hd. apply (Hdigit d0 t eq_refl). tauto.
Qed.

(** X8. A header that [parseWeekRange] expands is never a date for
    [parseDate].  The multi-entity transformer resolves headers with
    [parseDate] only, so there a week-range column, although the parser
    lists it among the date columns, gives no record for any row. *)
Theorem multi_week_range_column_is_dropped :
  forall tz (h : jsstring),
    parseWeekRange tz h <> None ->
    parseDate tz h = None /\
    forall parsed cur pid descr (row : list jsstring) (j : nat),
      Multi.headers parsed !! j = Some h ->
      Multi.cellRecords tz parsed cur pid descr row j = [].
Proof.
  intros tz h Hw.
  assert (Hd : parseDate tz h = None).
  { apply weekRange_not_parseDate. intros E. apply Hw.
    unfold parseWeekRange. cbv zeta. rewrite E. reflexivity. }
  split; [exact Hd|]. intros parsed cur pid descr row j Hh.
  unfold Multi.cellRecords. cbv zeta. rewrite Hh.
  cbv beta iota delta [mbind option_bind]. rewrite Hd. reflexivity.
Qed.

(** The week-range column of the multi-entity example. *)
Lemma multi_week_range_column_is_dropped_witness :
  parseDate 0 (str "Nov 3-9") = None /\
  Multi.transformDataMulti 0 exampleMultiParsed
  = [ record "SEK" "150.00" "2025-01-01" "ACME" "ENTITY" "Office" "Office" ].
Proof.
  split.
  - refine (proj1 (multi_week_range_column_is_dropped 0 (str "Nov 3-9") _)).
    vm_compute. discriminate.
  - vm_compute. reflexivity.
Defined.

(* ===================================================================== *)
(** ** What the parser returns *)
(* ===================================================================== *)

Lemma parseWeekRange_nonempty (tz : Z) (s : jsstring) (ds : list jsstring) :
  parseWeekRange tz s = Some ds -> ds <> [].
Proof.
  unfold parseWeekRange. cbv zeta.
  destruct (weekRangeBounds (normalize s)) as [[[[sm sd] em] ed]|]; [|discriminate].
  destruct sm; [|discriminate]. destruct em; [|discriminate].
  destruct (weekRangeLoop _ _ _ _); [discriminate|].
  intros H. injection H as <-. discriminate.
Qed.

(** The expansions recorded by the scan belong to date columns and are
    not empty. *)
Lemma scanHeaders_expansions (tz : Z) (hs : list jsstring) :
  forall k j ds,
    (scanHeaders tz k hs).2 !! j = Some ds ->
    j ∈ (scanHeaders tz k hs).1 /\ ds <> [].
Proof.
  induction hs as [|h hs IH]; intros k j ds.
  - cbn [scanHeaders snd]. rewrite lookup_empty. discriminate.
  - rewrite scanHeaders_cons_map, scanHeaders_cons.
    destruct (blankHeader h); [apply IH|].
    destruct (isValidDateHeader tz (normalize h)); [|rewrite lookup_empty; discriminate].
    destruct (parseWeekRange tz (normalize h)) as [w|] eqn:Hw.
    + destruct (decide (j = k)) as [->|Hne].
      * rewrite lookup_insert_eq. intros H. injection H as <-.
        split; [left|]. eapply parseWeekRange_nonempty. exact Hw.
      * rewrite lookup_insert_ne by congruence. intros H.
        apply IH in H. destruct H as [H1 H2]. split; [right; exact H1|exact H2].
    + intros H. apply IH in H. destruct H as [H1 H2]. split; [right; exact H1|exact H2].
Qed.

Lemma scanHeaders_lt (tz : Z) (hs : list jsstring) :
  forall k, Forall (fun j => (j < k + length hs)%nat) (scanHeaders tz k hs).1.
Proof.
  induction hs as [|h hs IH]; intros k; [constructor|].
  rewrite scanHeaders_cons. cbn [length].
  assert (Hrest : Forall (fun j => (j < k + S (length hs))%nat) (scanHeaders tz (S k) hs).1).
  { eapply Forall_impl; [apply IH|]. intros j Hj. simpl in Hj. lia. }
  destruct (blankHeader h); [exact Hrest|].
  destruct (isValidDateHeader tz (normalize h)); [|constructor].
  constructor; [lia|exact Hrest].
Qed.

(** X9. What [parseArrayData] returns is well formed: the headers are
    the converted first row; the category index addresses a header
    labelled category; the date indices are not empty, increasing, right of
    the category column and within the header row; there is a data row;
    and every stored week expansion belongs to a date column and is not
    empty. *)
Theorem parsed_schema_is_well_formed :
  forall tz grid parsed,
    parseArrayData tz grid = inr parsed ->
    (exists row0 rows, grid = row0 :: rows /\ headers parsed = map convertHeader row0) /\
    (exists h, headers parsed !! categoryIndex parsed = Some h /\ is_category h = true) /\
    dateIndices parsed <> [] /\
    StronglySorted lt (dateIndices parsed) /\
    Forall (fun j => (categoryIndex parsed < j < length (headers parsed))%nat)
           (dateIndices parsed) /\
    data parsed <> [] /\
    (forall j ds, expandedDates parsed !! j = Some ds ->
                  j ∈ dateIndices parsed /\ ds <> []).
Proof.
  intros tz [|row0 rows] parsed H; [discriminate|].
  unfold parseArrayData in H. cbv zeta in H.
  destruct (findCategoryIndex (map convertHeader row0)) as [k|] eqn:Hk; [|discriminate].
  unfold findDateIndices in H.
  pose proof (scanHeaders_bounds tz (drop (S k) (map convertHeader row0)) (S k)) as Hge.
  pose proof (scanHeaders_lt tz (drop (S k) (map convertHeader row0)) (S k)) as Hlt.
  pose proof (scanHeaders_sorted tz (drop (S k) (map convertHeader row0)) (S k)) as Hs.
  pose proof (scanHeaders_expansions tz (drop (S k) (map convertHeader row0)) (S k)) as He.
  destruct (scanHeaders tz (S k) (drop (S k) (map convertHeader row0))) as [ix ex].
  cbn [fst snd] in *.
  destruct ix as [|j0 ix]; [discriminate|].
  destruct (List.filter _ rows) as [|r rs]; [discriminate|].
  injection H as <-. cbn [headers categoryIndex dateIndices data expandedDates].
  apply findIndex_Some in Hk. destruct Hk as [Hk _].
  split; [eauto|]. split; [exact Hk|]. split; [discriminate|]. split; [exact Hs|].
  split; [|split; [discriminate|exact He]].
  destruct Hk as (h & Hh & _). apply lookup_lt_Some in Hh.
  rewrite Forall_forall in Hge, Hlt. apply Forall_forall. intros j Hj.
  pose proof (Hge j Hj). pose proof (Hlt j Hj) as Hl.
  rewrite length_drop in Hl. lia.
Qed.

Lemma parsed_schema_is_well_formed_witness :
  dateIndices exampleParsed <> [] /\ data exampleParsed <> [].
Proof.
  pose proof (parsed_schema_is_well_formed 0 exampleGrid exampleParsed
                ltac:(vm_compute; reflexivity)) as (_ & _ & H1 & _ & _ & H2 & _).
  split; assumption.
Defined.

(** *** The row filter *)

Lemma zeros_noSpace (n : Z) : noSpace (zeros n).
Proof.
  unfold zeros. induction (Z.to_nat n) as [|k IH]; simpl; constructor; auto.
Qed.

Lemma toString_pos_noSpace (m e : Z) :
  noSpace (toString_pos m e) /\ toString_pos m e <> [].
Proof.
  unfold toString_pos.
  destruct (is_integer m e && (trunc false m e <? 2 ^ 53)).
  { destruct (digits_digitsOnly (trunc false m e)) as [H1 H2].
    split; [apply digitsOnly_noSpace; exact H1|exact H2]. }
  destruct (shortest_from _ _ _ _ _ _) as [[s n] k].
  destruct (digits_digitsOnly s) as [Hd Hne].
  apply digitsOnly_noSpace in Hd. remember (digits s) as ds eqn:Eds. clear Eds.
  destruct ((k <=? n) && (n <=? 21)).
  { split; [apply Forall_app; split; [exact Hd|apply zeros_noSpace]|].
    destruct ds; [contradiction|discriminate]. }
  destruct ((0 <? n) && (n <=? 21)).
  { split.
    - apply Forall_app. split; [apply Forall_take; exact Hd|].
      apply Forall_app. split; [repeat constructor|apply Forall_drop; exact Hd].
    - intros E. apply app_eq_nil in E. destruct E as [_ E]. discriminate. }
  destruct ((-6 <? n) && (n <=? 0)).
  { split; [|discriminate].
    apply Forall_app. split; [repeat constructor|].
    apply Forall_app. split; [apply zeros_noSpace|exact Hd]. }
  assert (Hex : noSpace ((if n - 1 <? 0 then 45 else 43) :: digits (Z.abs (n - 1)))).
  { constructor; [destruct (n - 1 <? 0); reflexivity|].
    apply digitsOnly_noSpace. apply digits_digitsOnly. }
  cbv zeta. destruct ds as [|d [|d' rest]]; [contradiction| |].
  - split; [|discriminate]. apply Forall_cons in Hd. destruct Hd as [Hd _].
    constructor; [exact Hd|]. constructor; [reflexivity|exact Hex].
  - split; [|discriminate]. apply Forall_cons in Hd. destruct Hd as [Hd Hr].
    constructor; [exact Hd|]. constructor; [reflexivity|].
    change (d' :: rest ++ 101 :: (if n - 1 <? 0 then 45 else 43) :: digits (Z.abs (n - 1)))
      with ((d' :: rest) ++ 101 :: (if n - 1 <? 0 then 45 else 43) :: digits (Z.abs (n - 1))).
    apply Forall_app. split; [exact Hr|]. constructor; [reflexivity|exact Hex].
Qed.

(** The test of the row filter on one cell. *)
Lemma cell_test (c : cell) :
  cell_truthy c && negb (bool_decide (trim (cell_string c) = [])) = negb (blankCell c).
Proof.
  destruct c as [s|x|b|]; cbn [cell_truthy cell_string blankCell].
  - destruct s as [|c s]; [reflexivity|]. reflexivity.
  - destruct x as [|neg|neg m e]; cbn [truthy].
    + reflexivity.
    + destruct neg; vm_compute; reflexivity.
    + destruct (Z.eqb_spec m 0) as [->|Hm]; [reflexivity|].
      cbn [negb andb]. unfold JsNumber.toString.
      destruct (Z.eqb_spec m 0) as [|_]; [contradiction|].
      destruct (toString_pos_noSpace m e) as [Hs Hne].
      assert (Hs' : noSpace (if neg then 45 :: toString_pos m e else toString_pos m e)).
      { destruct neg; [constructor; [reflexivity|exact Hs]|exact Hs]. }
      rewrite (trim_noSpace _ Hs'). rewrite bool_decide_eq_false_2; [reflexivity|].
      destruct neg; [discriminate|exact Hne].
  - destruct b; vm_compute; reflexivity.
  - reflexivity.
Qed.

Lemma isNonEmptyRow_blank (row : list cell) :
  isNonEmptyRow row = negb (forallb blankCell row).
Proof.
  unfold isNonEmptyRow. induction row as [|c row IH]; [reflexivity|].
  cbn [existsb forallb]. rewrite cell_test, IH.
  destruct (blankCell c); reflexivity.
Qed.

(** X10. The data rows that [parseArrayData] keeps are exactly the rows
    below the header with a cell that is a non-blank string, the boolean
    true, an infinity or a number other than zero.  A row whose cells are
    numeric zeros (as a workbook read with raw values gives them), NaN,
    [false], [null] or blank strings is dropped as empty, although a
    numeric zero renders as the text "0"; the text "0" itself is not
    blank. *)
Theorem blank_rows_are_dropped :
  forall tz row0 rows parsed,
    parseArrayData tz (row0 :: rows) = inr parsed ->
    data parsed
    = map (map cell_string) (List.filter (fun row => negb (forallb blankCell row)) rows)
    /\ cell_string (CNum (Finite false 0 0)) = str "0"
    /\ blankCell (CNum (Finite false 0 0)) = true
    /\ blankCell (CStr (str "0")) = false.
Proof.
  intros tz row0 rows parsed H.
  split; [|repeat split; vm_compute; reflexivity].
  unfold parseArrayData in H. cbv zeta in H.
  destruct (findCategoryIndex (map convertHeader row0)) as [k|]; [|discriminate].
  destruct (findDateIndices tz (map convertHeader row0) k) as [ix ex].
  destruct ix as [|j0 ix]; [discriminate|].
  change (fun row : list cell =>
            existsb (fun c => cell_truthy c
                              && negb (bool_decide (trim (cell_string c) = []))) row)
    with isNonEmptyRow in H.
  rewrite (filter_ext isNonEmptyRow (fun row => negb (forallb blankCell row))
             isNonEmptyRow_blank) in H.
  destruct (List.filter _ rows) as [|r rs]; [discriminate|].
  injection H as <-. reflexivity.
Qed.

Lemma blank_rows_are_dropped_witness :
  length (data exampleParsed) = 3%nat.
Proof.
  rewrite (proj1 (blank_rows_are_dropped 0 _ _ exampleParsed
                    (eq_refl : parseArrayData 0 exampleGrid = inr exampleParsed))).
  reflexivity.
Defined.

(* ===================================================================== *)
(** ** Amounts *)
(* ===================================================================== *)

(** X11. Fixed notation: for a finite amount below 10^21 the amount text
    is an optional minus sign, one or more digits, a point and exactly two
    digits.  (The sign is kept for a negative amount that rounds to zero,
    "-0.00".)  An infinite amount, which [parseAmount] can return, is
    written "Infinity". *)
Theorem toFixed2_has_two_decimals :
  forall neg m e,
    below1e21 m e = true ->
    exists ip fp,
      (toFixed2 (Finite neg m e)
       = (if neg && negb (m =? 0) then [45] else []) ++ ip ++ [46] ++ fp) /\
      digitsOnly ip /\ ip <> [] /\ digitsOnly fp /\ length fp = 2%nat.
Proof.
  intros neg m e Hb. unfold toFixed2. cbv zeta.
  assert (Hlt : ((if 0 <=? e then 1 else 2 ^ (- e)) * 10 ^ 21
                 <=? (if 0 <=? e then m * 2 ^ e else m)) = false).
  { unfold below1e21 in Hb. destruct (0 <=? e).
    - apply Z.ltb_lt in Hb. apply Z.leb_gt. lia.
    - apply Z.ltb_lt in Hb. apply Z.leb_gt. lia. }
  rewrite Hlt.
  set (n := (200 * (if 0 <=? e then m * 2 ^ e else m) + (if 0 <=? e then 1 else 2 ^ (- e)))
            / (2 * (if 0 <=? e then 1 else 2 ^ (- e)))).
  set (ds0 := if n =? 0 then [48] else digits n).
  assert (Hds0 : digitsOnly ds0).
  { unfold ds0. destruct (n =? 0); [repeat constructor|apply digits_digitsOnly]. }
  set (ds := repeat 48 (3 - length ds0) ++ ds0).
  assert (Hds : digitsOnly ds).
  { apply Forall_app. split; [|exact Hds0].
    induction (3 - length ds0)%nat; simpl; constructor; auto. }
  assert (Hlen : (3 <= length ds)%nat).
  { unfold ds. rewrite length_app, repeat_length. lia. }
  exists (take (length ds - 2) ds), (drop (length ds - 2) ds).
  split; [reflexivity|]. split; [apply Forall_take; exact Hds|].
  split; [|split; [apply Forall_drop; exact Hds|rewrite length_drop; lia]].
  intros E. apply (f_equal (@length Z)) in E. rewrite length_take in E. simpl in E. lia.
Qed.

Lemma toFixed2_has_two_decimals_witness :
  exists ip fp, toFixed2 (Finite false 7072058789855232 (-46)) = [] ++ ip ++ [46] ++ fp.
Proof.
  destruct (toFixed2_has_two_decimals false 7072058789855232 (-46) eq_refl)
    as (ip & fp & H & _).
  exists ip, fp. exact H.
Defined.

Lemma trimStart_keep (c : Z) (u v : jsstring) :
  is_ws c = false -> trimStart (u ++ c :: v) = trimStart u ++ c :: v.
Proof.
  intros Hc. induction u as [|x u IH]; simpl; [rewrite Hc; reflexivity|].
  destruct (is_ws x); [exact IH|reflexivity].
Qed.

Lemma trimEnd_keep (c : Z) (x rest : jsstring) :
  is_ws c = false -> trimEnd (x ++ c :: rest) = x ++ c :: trimEnd rest.
Proof.
  intros Hc. unfold trimEnd. rewrite rev_app_distr. simpl. rewrite <- app_assoc. simpl.
  rewrite (trimStart_keep c _ _ Hc), rev_app_distr. simpl.
  rewrite rev_involutive, <- app_assoc. reflexivity.
Qed.

Lemma replace_first_here (a b : Z) (x rest : jsstring) :
  a ∉ x -> replace_first a b (x ++ a :: rest) = x ++ b :: rest.
Proof.
  induction x as [|c x IH]; intros Hx; simpl.
  - rewrite Z.eqb_refl. reflexivity.
  - apply not_elem_of_cons in Hx. destruct Hx as [Hc Hx].
    destruct (Z.eqb_spec c a); [congruence|]. rewrite IH by exact Hx. reflexivity.
Qed.

Lemma replace_first_none (a b : Z) (x : jsstring) :
  a ∉ x -> replace_first a b x = x.
Proof.
  induction x as [|c x IH]; intros Hx; simpl; [reflexivity|].
  apply not_elem_of_cons in Hx. destruct Hx as [Hc Hx].
  destruct (Z.eqb_spec c a); [congruence|]. rewrite IH by exact Hx. reflexivity.
Qed.

Lemma digitsOnly_not_elem (c : Z) (s : jsstring) :
  digitsOnly s -> is_digit c = false -> c ∉ s.
Proof. intros Hs Hc. eapply Forall_class_excludes; eassumption. Qed.

Lemma isNaN_round_ratio (neg : bool) (num den : Z) :
  isNaN (round_ratio neg num den) = false.
Proof.
  unfold round_ratio. destruct (num =? 0); [reflexivity|]. cbv zeta.
  match goal with
  | |- isNaN (if ?a then _ else if ?b then _ else _) = _ =>
      destruct a; [reflexivity|destruct b; reflexivity]
  end.
Qed.

Lemma isNaN_round_dec (neg : bool) (s p : Z) : isNaN (round_dec neg s p) = false.
Proof. unfold round_dec. destruct (0 <=? p); apply isNaN_round_ratio. Qed.

(** [parseFloat] on digits, a point, digits and a tail that starts with
    neither a digit nor an exponent mark. *)
Lemma parseFloat_decimal (a b tail : jsstring) :
  digitsOnly a -> digitsOnly b ->
  match tail with
  | x :: _ => is_digit x = false /\ x <> 101 /\ x <> 69
  | [] => True
  end ->
  parseFloat (a ++ 46 :: b ++ tail) =
    match a, b with
    | [], [] => NaN
    | _, _ => round_dec false (digits_value (a ++ b)) (0 - Z.of_nat (length b))
    end.
Proof.
  intros Ha Hb Ht. unfold parseFloat.
  assert (Hhead : exists c r, a ++ 46 :: b ++ tail = c :: r /\
                              (is_digit c = true \/ c = 46)).
  { destruct a as [|c a]; [exists 46, (b ++ tail); auto|].
    apply Forall_cons in Ha. exists c, (a ++ 46 :: b ++ tail). tauto. }
  destruct Hhead as (c & r & E & Hc).
  assert (Hws : is_ws c = false).
  { destruct Hc as [Hc| ->]; [apply digit_not_ws; exact Hc|reflexivity]. }
  assert (H45 : (c =? 45) = false).
  { destruct Hc as [Hc| ->]; [|reflexivity].
    destruct (Z.eqb_spec c 45); [subst; discriminate|reflexivity]. }
  assert (H43 : (c =? 43) = false).
  { destruct Hc as [Hc| ->]; [|reflexivity].
    destruct (Z.eqb_spec c 43); [subst; discriminate|reflexivity]. }
  assert (Hinf : is_prefix (str "Infinity") (c :: r) = false).
  { unfold is_prefix. apply bool_decide_eq_false_2. intros Hp.
    change (take (length (str "Infinity")) (c :: r)) with (c :: take 7 r) in Hp.
    injection Hp as Hp _. destruct Hc as [Hc| ->]; [subst; discriminate|discriminate]. }
  rewrite E, (trimStart_head c r Hws), H45, H43, Hinf. rewrite <- E.
  rewrite (span_digits_all a (46 :: b ++ tail) Ha eq_refl).
  rewrite Z.eqb_refl.
  assert (Hspan : span_digits (b ++ tail) = (b, tail)).
  { apply span_digits_all; [exact Hb|]. destruct tail; [exact I|tauto]. }
  rewrite Hspan.
  assert (Hex : exponent_part tail = 0).
  { destruct tail as [|x tail]; [reflexivity|]. unfold exponent_part.
    destruct Ht as (_ & H1 & H2).
    destruct (Z.eqb_spec x 101); [contradiction|].
    destruct (Z.eqb_spec x 69); [contradiction|]. reflexivity. }
  rewrite Hex. destruct a, b; reflexivity.
Qed.

(** X12. Only the first comma of an amount is read as the decimal point,
    and the number ends before the second: an amount written with
    thousands separators, digits, comma, digits, comma and anything more,
    resolves to the same number as the first two digit groups with a point
    between them ("1,234,567" is read as 1.234). *)
Theorem amount_ends_at_the_second_comma :
  forall a b rest : jsstring,
    digitsOnly a -> digitsOnly b ->
    parseAmount (a ++ [44] ++ b ++ [44] ++ rest) = parseAmount (a ++ [46] ++ b) /\
    (a <> [] ->
     parseAmount (a ++ [44] ++ b ++ [44] ++ rest)
     = Some (round_dec false (digits_value (a ++ b)) (0 - Z.of_nat (length b)))).
Proof.
  intros a b rest Ha Hb.
  assert (H44 : is_digit 44 = false) by reflexivity.
  assert (H46 : is_digit 46 = false) by reflexivity.
  assert (Hl : parseAmount (a ++ [44] ++ b ++ [44] ++ rest)
               = let parsed := parseFloat (a ++ 46 :: b ++ 44 :: trimEnd rest) in
                 if isNaN parsed then None else Some parsed).
  { unfold parseAmount.
    rewrite bool_decide_eq_false_2 by (destruct a; discriminate).
    assert (Ht : trim (a ++ [44] ++ b ++ [44] ++ rest) = a ++ 44 :: b ++ 44 :: trimEnd rest).
    { unfold trim. rewrite trimStart_headOk.
      - change (a ++ [44] ++ b ++ [44] ++ rest) with (a ++ 44 :: b ++ 44 :: rest).
        replace (a ++ 44 :: b ++ 44 :: rest) with ((a ++ 44 :: b) ++ 44 :: rest)
          by (rewrite <- app_assoc; reflexivity).
        rewrite trimEnd_keep by reflexivity. rewrite <- app_assoc. reflexivity.
      - destruct a as [|c a]; [reflexivity|]. apply Forall_cons in Ha.
        simpl. apply digit_not_ws. tauto. }
    cbv zeta. rewrite Ht.
    rewrite bool_decide_eq_false_2 by (destruct a; discriminate).
    rewrite replace_first_here by (apply digitsOnly_not_elem; assumption).
    reflexivity. }
  assert (Hr : parseAmount (a ++ [46] ++ b)
               = let parsed := parseFloat (a ++ 46 :: b ++ []) in
                 if isNaN parsed then None else Some parsed).
  { unfold parseAmount.
    rewrite bool_decide_eq_false_2 by (destruct a; discriminate).
    assert (Hns : noSpace (a ++ [46] ++ b)).
    { apply Forall_app. split; [apply digitsOnly_noSpace; exact Ha|].
      constructor; [reflexivity|apply digitsOnly_noSpace; exact Hb]. }
    cbv zeta. rewrite (trim_noSpace _ Hns).
    rewrite bool_decide_eq_false_2 by (destruct a; discriminate).
    rewrite replace_first_none.
    - rewrite app_nil_r. reflexivity.
    - intros Hin. apply elem_of_app in Hin. destruct Hin as [Hin|Hin].
      + revert Hin. apply digitsOnly_not_elem; assumption.
      + apply elem_of_cons in Hin. destruct Hin as [Hin|Hin]; [discriminate|].
        revert Hin. apply digitsOnly_not_elem; assumption. }
  rewrite Hl, Hr.
  rewrite (parseFloat_decimal a b (44 :: trimEnd rest) Ha Hb)
    by (repeat split; discriminate).
  rewrite (parseFloat_decimal a b [] Ha Hb I).
  split; [reflexivity|]. intros Hne. cbv zeta.
  destruct a as [|c a]; [contradiction|].
  rewrite isNaN_round_dec. reflexivity.
Qed.

Lemma amount_ends_at_the_second_comma_witness :
  parseAmount (str "1,234,567") = parseAmount (str "1.234").
Proof.
  exact (proj1 (amount_ends_at_the_second_comma (str "1") (str "234") (str "567")
                  ltac:(repeat constructor) ltac:(repeat constructor))).
Defined.

(* ===================================================================== *)
(** ** The category leaf *)
(* ===================================================================== *)

Lemma split_nonempty (sep : Z) (s : jsstring) : split sep s <> [].
Proof.
  intros E. apply (f_equal (@length jsstring)) in E. rewrite split_length in E.
  discriminate.
Qed.

Lemma split_none (sep : Z) (s : jsstring) : sep ∉ s -> split sep s = [s].
Proof.
  induction s as [|c s IH]; intros Hs; simpl; [reflexivity|].
  apply not_elem_of_cons in Hs. destruct Hs as [Hc Hs].
  destruct (Z.eqb_spec c sep); [congruence|]. rewrite (IH Hs). reflexivity.
Qed.

Lemma split_sep (sep : Z) (x rest : jsstring) :
  sep ∉ x -> split sep (x ++ sep :: rest) = x :: split sep rest.
Proof.
  induction x as [|c x IH]; intros Hx; simpl.
  - rewrite Z.eqb_refl. reflexivity.
  - apply not_elem_of_cons in Hx. destruct Hx as [Hc Hx].
    destruct (Z.eqb_spec c sep); [congruence|]. rewrite (IH Hx). reflexivity.
Qed.

Lemma last_cons_nonempty {A} (x : A) (l : list A) : l <> [] -> last (x :: l) = last l.
Proof. destruct l; [contradiction|reflexivity]. Qed.

(** The last part of a split is the last part of what follows any
    separator. *)
Lemma last_split (sep : Z) (a b : jsstring) :
  last (split sep (a ++ sep :: b)) = last (split sep b).
Proof.
  induction a as [|c a IH]; simpl.
  - rewrite Z.eqb_refl. apply last_cons_nonempty, split_nonempty.
  - destruct (Z.eqb_spec c sep).
    + rewrite last_cons_nonempty by apply split_nonempty. exact IH.
    + pose proof (split_length sep (a ++ sep :: b)) as Hl.
      rewrite List.filter_app in Hl. simpl in Hl. rewrite Z.eqb_refl in Hl.
      rewrite length_app in Hl. simpl in Hl.
      destruct (split sep (a ++ sep :: b)) as [|p [|q ps]] eqn:E;
        [discriminate|simpl in Hl; lia|].
      rewrite <- IH. reflexivity.
Qed.

Lemma split_parts (sep : Z) (s : jsstring) : Forall (fun p => sep ∉ p) (split sep s).
Proof.
  induction s as [|c s IH]; simpl.
  - constructor; [apply not_elem_of_nil|constructor].
  - destruct (Z.eqb_spec c sep).
    + constructor; [apply not_elem_of_nil|exact IH].
    + destruct (split sep s) as [|p ps].
      * constructor; [|constructor]. intros H. apply elem_of_cons in H.
        destruct H as [H|H]; [congruence|]. revert H. apply not_elem_of_nil.
      * apply Forall_cons in IH. destruct IH as [Hp Hps].
        constructor; [|exact Hps]. intros H. apply elem_of_cons in H.
        destruct H as [H|H]; [congruence|contradiction].
Qed.

Lemma elem_of_trimStart_inv (c : Z) (s : jsstring) : c ∈ trimStart s -> c ∈ s.
Proof.
  destruct (trimStart_split s) as (w & E & _). intros H. rewrite E.
  apply elem_of_app. right. exact H.
Qed.

Lemma elem_of_trim_inv (c : Z) (s : jsstring) : c ∈ trim s -> c ∈ s.
Proof.
  unfold trim, trimEnd. intros H.
  apply list_elem_of_In in H. apply in_rev in H. apply list_elem_of_In in H.
  apply elem_of_trimStart_inv in H.
  apply list_elem_of_In in H. apply in_rev in H. apply list_elem_of_In in H.
  apply elem_of_trimStart_inv in H. exact H.
Qed.

(** X13. The category leaf is the trimmed text after the last [>]: for a
    path followed by [>] and a leaf without [>] it is the trimmed leaf, and
    a category without [>] is its own leaf.  The leaf never contains [>],
    and has no whitespace at either end.  A category that ends with [>]
    has the empty leaf. *)
Theorem category_leaf_is_the_last_segment :
  (forall path leaf : jsstring,
     62 ∉ leaf -> getCategoryLeaf (path ++ [62] ++ leaf) = trim leaf) /\
  (forall category : jsstring,
     62 ∉ category -> getCategoryLeaf category = trim category) /\
  (forall category : jsstring,
     (62 ∉ getCategoryLeaf category) /\
     trim (getCategoryLeaf category) = getCategoryLeaf category) /\
  (forall path : jsstring, getCategoryLeaf (path ++ [62]) = []).
Proof.
  assert (H2 : forall category : jsstring,
             62 ∉ category -> getCategoryLeaf category = trim category).
  { intros s Hs. unfold getCategoryLeaf. cbv zeta. rewrite (split_none 62 s Hs).
    reflexivity. }
  assert (H1 : forall path leaf : jsstring,
             62 ∉ leaf -> getCategoryLeaf (path ++ [62] ++ leaf) = trim leaf).
  { intros path leaf Hl. rewrite <- (H2 leaf Hl). unfold getCategoryLeaf. cbv zeta.
    change (path ++ [62] ++ leaf) with (path ++ 62 :: leaf).
    rewrite last_split. reflexivity. }
  split; [exact H1|]. split; [exact H2|]. split.
  - intros s. split; [|apply trim_idem].
    unfold getCategoryLeaf. cbv zeta. pose proof (split_parts 62 s) as Hp.
    intros Hin. apply elem_of_trim_inv in Hin.
    destruct (last (split 62 s)) as [p|] eqn:E.
    + apply last_Some in E. destruct E as (l' & E). rewrite E in Hp.
      apply Forall_app in Hp. destruct Hp as [_ Hp]. apply Forall_cons in Hp.
      destruct Hp as [Hp _]. exact (Hp Hin).
    + simpl in Hin. revert Hin. apply not_elem_of_nil.
  - intros path. exact (H1 path [] (not_elem_of_nil 62)).
Qed.

Lemma category_leaf_is_the_last_segment_witness :
  getCategoryLeaf (str "Marketing>Online > Ads ") = str "Ads".
Proof.
  exact (proj1 category_leaf_is_the_last_segment (str "Marketing>Online ") (str " Ads ")
           ltac:(intros H; apply list_elem_of_In in H; vm_compute in H; intuition discriminate)).
Defined.

(* ===================================================================== *)
(** ** Date texts *)
(* ===================================================================== *)

Lemma trim_padded (w1 t w2 : jsstring) :
  spaceOnly w1 -> spaceOnly w2 -> t <> [] -> headOk t -> headOk (rev t) ->
  trim (w1 ++ t ++ w2) = t.
Proof.
  intros H1 H2 Hne Ht Hr. unfold trim, trimEnd.
  rewrite (trimStart_spaces w1 _ H1).
  assert (E : trimStart (t ++ w2) = t ++ w2).
  { destruct t as [|c t]; [contradiction|]. apply trimStart_headOk. exact Ht. }
  rewrite E, rev_app_distr.
  rewrite (trimStart_spaces (rev w2) _ (Forall_rev H2)).
  rewrite (trimStart_headOk _ Hr). apply rev_involutive.
Qed.

Lemma digitsOnly_headOk (d rest : jsstring) :
  digitsOnly d -> d <> [] -> headOk (d ++ rest).
Proof.
  intros Hd Hne. destruct d as [|c d]; [contradiction|].
  apply Forall_cons in Hd. simpl. apply digit_not_ws. tauto.
Qed.

(** X14. A text with the shape YYYY-MM-DD is a date for [parseDate]
    whatever its digits are: surrounded by any whitespace it resolves to
    the text itself, trimmed.  Month and day are not checked against the
    calendar ("2025-13-45" resolves to "2025-13-45"). *)
Theorem iso_text_is_returned_unchecked :
  forall tz (w1 y m d w2 : jsstring),
    spaceOnly w1 -> spaceOnly w2 ->
    digitsOnly y -> digitsOnly m -> digitsOnly d ->
    length y = 4%nat -> length m = 2%nat -> length d = 2%nat ->
    parseDate tz (w1 ++ (y ++ [45] ++ m ++ [45] ++ d) ++ w2)
    = Some (y ++ [45] ++ m ++ [45] ++ d).
Proof.
  intros tz w1 y m d w2 H1 H2 Hy Hm Hd Ly Lm Ld.
  set (t := y ++ [45] ++ m ++ [45] ++ d).
  assert (Hne : t <> []) by (unfold t; destruct y; discriminate).
  assert (Hh : headOk t).
  { apply digitsOnly_headOk; [exact Hy|]. destruct y; discriminate. }
  assert (Hr : headOk (rev t)).
  { unfold t. rewrite !rev_app_distr, <- !app_assoc.
    apply digitsOnly_headOk; [apply Forall_rev; exact Hd|].
    destruct d; [discriminate|]. simpl. destruct (rev d); discriminate. }
  unfold parseDate.
  rewrite bool_decide_eq_false_2.
  - cbv zeta. rewrite (trim_padded w1 t w2 H1 H2 Hne Hh Hr).
    unfold isoShape, t. rewrite (iso_date_accepts y m d Hy Hm Hd Ly Lm Ld). reflexivity.
  - intros E. apply app_eq_nil in E. destruct E as [_ E].
    apply app_eq_nil in E. destruct E as [E _]. contradiction.
Qed.

Lemma iso_text_is_returned_unchecked_witness :
  parseDate 0 (str " " ++ (str "2025" ++ [45] ++ str "13" ++ [45] ++ str "45") ++ str "  ")
  = Some (str "2025" ++ [45] ++ str "13" ++ [45] ++ str "45").
Proof.
  apply iso_text_is_returned_unchecked; repeat constructor.
Defined.

(* ===================================================================== *)
(** ** Slash dates as headers *)
(* ===================================================================== *)

Lemma normalize_plain (s : jsstring) :
  noSpace s -> Forall (fun c => undash c = c) s -> normalize s = s.
Proof.
  intros Hs Hu. unfold normalize, collapse_ws, normalize_dashes. fold undash.
  rewrite (trim_noSpace s Hs), (collapse_noSpace s false Hs).
  induction Hu as [|c s Hc _ IH]; simpl; [reflexivity|].
  apply Forall_cons in Hs. destruct Hs as [_ Hs]. rewrite Hc, (IH Hs). reflexivity.
Qed.

(** The characters of a slash date: digits and the slash. *)
Lemma slashText_chars (a b y : jsstring) :
  digitsOnly a -> digitsOnly b -> digitsOnly y ->
  Forall (fun c => is_digit c = true \/ c = 47) (slashText a b y).
Proof.
  intros Ha Hb Hy. unfold slashText.
  assert (H : forall d, digitsOnly d -> Forall (fun c => is_digit c = true \/ c = 47) d).
  { intros d Hd. eapply Forall_impl; [exact Hd|]. intros c Hc. left. exact Hc. }
  apply Forall_app. split; [apply H; exact Ha|].
  constructor; [right; reflexivity|].
  apply Forall_app. split; [apply H; exact Hb|].
  constructor; [right; reflexivity|apply H; exact Hy].
Qed.

Lemma normalize_slashText (a b y : jsstring) :
  digitsOnly a -> digitsOnly b -> digitsOnly y ->
  normalize (slashText a b y) = slashText a b y.
Proof.
  intros Ha Hb Hy. pose proof (slashText_chars a b y Ha Hb Hy) as Hc.
  apply normalize_plain.
  - eapply Forall_impl; [exact Hc|]. intros c [H| ->]; [apply digit_not_ws; exact H|reflexivity].
  - eapply Forall_impl; [exact Hc|]. intros c [H| ->]; [apply undash_digit; exact H|reflexivity].
Qed.

(** A text that starts with a digit has no month in front. *)
Lemma digit_head_no_month (d0 : Z) (rest : jsstring) :
  is_digit d0 = true -> Re.month (d0 :: rest) = None.
Proof.
  intros Hd. destruct (Re.month (d0 :: rest)) as [[m r]|] eqn:E; [exfalso|reflexivity].
  destruct (month_head _ _ _ E) as (a & rest' & Ha & Hl). injection Ha as <- _.
  rewrite (letter_not_digit d0 Hl) in Hd. discriminate.
Qed.

Lemma digit_head_no_week (tz : Z) (d0 : Z) (rest : jsstring) :
  is_digit d0 = true -> normalize (d0 :: rest) = d0 :: rest ->
  parseWeekRange tz (d0 :: rest) = None /\ monthDay (d0 :: rest) = None.
Proof.
  intros Hd Hn. split.
  - unfold parseWeekRange. cbv zeta. rewrite Hn.
    unfold weekRangeBounds, rangePattern1, rangePattern2.
    rewrite (digit_head_no_month d0 rest Hd). reflexivity.
  - unfold monthDay. rewrite (digit_head_no_month d0 rest Hd). reflexivity.
Qed.

(** X15. The header classifier wants two digits in both leading groups of
    a slash date, the date resolver one or two: a header such as 1/2/2025,
    which [parseDate] takes apart as a slash date, is not a date header.
    It ends the scan of [findDateIndices]. *)
Theorem short_slash_header_is_not_a_date :
  forall tz (a b y : jsstring),
    oneOrTwoDigits a -> oneOrTwoDigits b -> digitsOnly y -> length y = 4%nat ->
    (length a = 1 \/ length b = 1)%nat ->
    slashDate (trim (slashText a b y)) = Some (a, b, y) /\
    isValidDateHeader tz (normalize (slashText a b y)) = false /\
    terminator tz (slashText a b y) = true.
Proof.
  intros tz a b y Ha Hb Hy Ly Hshort.
  pose proof (normalize_slashText a b y (proj1 Ha) (proj1 Hb) Hy) as Hn.
  pose proof (slashText_chars a b y (proj1 Ha) (proj1 Hb) Hy) as Hc.
  assert (Hns : noSpace (slashText a b y)).
  { eapply Forall_impl; [exact Hc|]. intros c [H| ->]; [apply digit_not_ws; exact H|reflexivity]. }
  split; [rewrite (trim_noSpace _ Hns); apply slashDate_accepts; assumption|].
  assert (Hhead : exists d0 rest, slashText a b y = d0 :: rest /\ is_digit d0 = true).
  { destruct Ha as [Hd [Hl|Hl]]; destruct a as [|d0 a]; try discriminate;
      apply Forall_cons in Hd; exists d0, (a ++ 47 :: b ++ 47 :: y); tauto. }
  destruct Hhead as (d0 & rest & E & Hd0).
  assert (Hslash : slashShape (slashText a b y) = false).
  { destruct Ha as [Hda La], Hb as [Hdb Lb]. unfold slashText.
    destruct Hshort as [Hs|Hs].
    - destruct a as [|a1 [|a2 a]]; try discriminate.
      apply Forall_cons in Hda. destruct Hda as [H1 _].
      unfold slashShape. simpl. rewrite H1. reflexivity.
    - destruct b as [|b1 [|b2 b]]; try discriminate.
      apply Forall_cons in Hdb. destruct Hdb as [Hb1 _].
      destruct La as [La|La].
      + destruct a as [|a1 [|a2 a]]; try discriminate.
        apply Forall_cons in Hda. destruct Hda as [H1 _].
        unfold slashShape. simpl. rewrite H1. reflexivity.
      + destruct a as [|a1 [|a2 [|a3 a]]]; try discriminate.
        apply Forall_cons in Hda. destruct Hda as [H1 Hda].
        apply Forall_cons in Hda. destruct Hda as [H2 _].
        unfold slashShape. simpl. rewrite H1, H2. simpl. rewrite Hb1. reflexivity. }
  assert (Hiso : isoShape (slashText a b y) = false).
  { destruct (isoShape (slashText a b y)) eqn:Ei; [exfalso|reflexivity].
    apply isoShape_chars in Ei. rewrite Forall_forall in Ei.
    assert (Hin : 47 ∈ slashText a b y) by (unfold slashText; apply elem_of_app; right; left).
    apply Ei in Hin. discriminate. }
  assert (Hall : Re.all_digits (slashText a b y) = false).
  { destruct (Re.all_digits (slashText a b y)) eqn:Ea; [exfalso|reflexivity].
    apply all_digits_inv in Ea. destruct Ea as [_ Ea]. unfold digitsOnly in Ea.
    rewrite Forall_forall in Ea.
    assert (Hin : 47 ∈ slashText a b y) by (unfold slashText; apply elem_of_app; right; left).
    apply Ea in Hin. discriminate. }
  assert (Hv : isValidDateHeader tz (normalize (slashText a b y)) = false).
  { rewrite Hn. unfold isValidDateHeader.
    rewrite bool_decide_eq_false_2 by (rewrite E; discriminate).
    cbv zeta. rewrite Hn. rewrite E in Hn.
    destruct (digit_head_no_week tz d0 rest Hd0 Hn) as [Hw Hm].
    rewrite <- E in Hw, Hm. rewrite Hw. unfold dateFormats. cbn [existsb].
    rewrite Hiso, Hslash, Hall, Hm. reflexivity. }
  split; [exact Hv|]. unfold terminator, blankHeader.
  rewrite Hv, Hn. rewrite bool_decide_eq_false_2 by (rewrite E; discriminate). reflexivity.
Qed.

Lemma short_slash_header_is_not_a_date_witness :
  terminator 0 (slashText (str "1") (str "2") (str "2025")) = true.
Proof.
  refine (proj2 (proj2 (short_slash_header_is_not_a_date 0 (str "1") (str "2") (str "2025")
                          _ _ _ _ _)));
    try (split; [repeat constructor|auto]); try (repeat constructor); auto.
Defined.

Lemma slashShape_accepts (a b y : jsstring) :
  digitsOnly a -> digitsOnly b -> digitsOnly y ->
  length a = 2%nat -> length b = 2%nat -> length y = 4%nat ->
  slashShape (slashText a b y) = true.
Proof.
  intros Ha Hb Hy La Lb Ly. unfold slashShape, slashText.
  rewrite (digitsN_app 2 a _ Ha La). cbv beta iota delta [mbind option_bind].
  unfold Re.char at 1. rewrite Z.eqb_refl.
  rewrite (digitsN_app 2 b _ Hb Lb). cbv beta iota delta [mbind option_bind].
  unfold Re.char at 1. rewrite Z.eqb_refl.
  rewrite <- (app_nil_r y). rewrite (digitsN_app 4 y [] Hy Ly). reflexivity.
Qed.

(** X16. A slash date with two two-digit groups neither of which is a
    month (both zero or above twelve, as 13/13/2025) has the shape of a
    date header, so its column is a date column, but [parseDate] resolves
    it to null in every time zone: the transformer emits no record for any
    cell of that column, without an error. *)
Theorem unresolvable_slash_column_is_silent :
  forall tz (a b y : jsstring),
    digitsOnly a -> digitsOnly b -> digitsOnly y ->
    length a = 2%nat -> length b = 2%nat -> length y = 4%nat ->
    (digits_value a = 0 \/ 12 < digits_value a) ->
    (digits_value b = 0 \/ 12 < digits_value b) ->
    dateHeader tz (slashText a b y) = true /\
    parseWeekRange tz (slashText a b y) = None /\
    parseDate tz (slashText a b y) = None /\
    forall parsed options descr (row : list jsstring) (j : nat),
      headers parsed !! j = Some (slashText a b y) ->
      expandedDates parsed !! j = None ->
      cellRecords tz parsed options descr row j = [].
Proof.
  intros tz a b y Ha Hb Hy La Lb Ly HA HB.
  pose proof (normalize_slashText a b y Ha Hb Hy) as Hn.
  assert (Hhead : exists d0 rest, slashText a b y = d0 :: rest /\ is_digit d0 = true).
  { destruct a as [|d0 a]; [discriminate|].
    apply Forall_cons in Ha. exists d0, (a ++ 47 :: b ++ 47 :: y). tauto. }
  destruct Hhead as (d0 & rest & E & Hd0).
  assert (Hw : parseWeekRange tz (slashText a b y) = None).
  { rewrite E in Hn. rewrite E. apply (digit_head_no_week tz d0 rest Hd0 Hn). }
  assert (Hd : parseDate tz (slashText a b y) = None).
  { assert (Oa : oneOrTwoDigits a) by (split; [exact Ha|right; exact La]).
    assert (Ob : oneOrTwoDigits b) by (split; [exact Hb|right; exact Lb]).
    rewrite (parseDate_slash tz a b y Oa Ob Hy Ly).
    rewrite (slash_candidate y a b Hy Ly Oa Ob), (slash_candidate y b a Hy Ly Ob Oa).
    assert (V1 : validDate (digits_value y) (digits_value a) (digits_value b) = false).
    { unfold validDate. destruct HA as [-> | HA]; [reflexivity|].
      destruct (Z.leb_spec (digits_value a) 12); [lia|].
      rewrite andb_false_r. reflexivity. }
    assert (V2 : validDate (digits_value y) (digits_value b) (digits_value a) = false).
    { unfold validDate. destruct HB as [-> | HB]; [reflexivity|].
      destruct (Z.leb_spec (digits_value b) 12); [lia|].
      rewrite andb_false_r. reflexivity. }
    rewrite V1, V2. reflexivity. }
  split; [|split; [exact Hw|split; [exact Hd|]]].
  - unfold dateHeader, blankHeader. rewrite Hn.
    rewrite bool_decide_eq_false_2 by (rewrite E; discriminate).
    unfold isValidDateHeader. rewrite bool_decide_eq_false_2 by (rewrite E; discriminate).
    cbv zeta. rewrite Hn, Hw. unfold dateFormats. cbn [existsb].
    rewrite (slashShape_accepts a b y Ha Hb Hy La Lb Ly).
    destruct (isoShape _); reflexivity.
  - intros parsed options descr row j Hh Hex. unfold cellRecords.
    destruct (row !! j ≫= parseAmount); [|reflexivity].
    cbv zeta. rewrite Hex, Hh. cbv beta iota delta [mbind option_bind].
    rewrite Hd. reflexivity.
Qed.

Lemma unresolvable_slash_column_is_silent_witness :
  dateHeader (-300) (slashText (str "13") (str "13") (str "2025")) = true /\
  parseDate (-300) (slashText (str "13") (str "13") (str "2025")) = None.
Proof.
  pose proof (unresolvable_slash_column_is_silent (-300) (str "13") (str "13") (str "2025")
                ltac:(repeat constructor) ltac:(repeat constructor)
                ltac:(repeat constructor) eq_refl eq_refl eq_refl
                ltac:(right; reflexivity) ltac:(right; reflexivity))
    as (H1 & _ & H2 & _).
  split; assumption.
Defined.

(* ===================================================================== *)
(** ** Day serials *)
(* ===================================================================== *)

Lemma ltb_scale (a b p : Z) : 0 < p -> (a * p <? b * p) = (a <? b).
Proof.
  intros Hp. destruct (Z.ltb_spec a b), (Z.ltb_spec (a * p) (b * p)); try reflexivity; nia.
Qed.

Lemma eqb_scale (a b p : Z) : 0 < p -> (a * p =? b * p) = (a =? b).
Proof.
  intros Hp. destruct (Z.eqb_spec a b), (Z.eqb_spec (a * p) (b * p)); try reflexivity; nia.
Qed.

(** The last steps of [round_ratio]: rounding [n / d] to an integer
    significand, ties to even.  Scaling both by the same factor changes
    nothing. *)
Lemma round_step_scale (n d p : Z) :
  0 < d -> 0 < p ->
  n * p / (d * p) = n / d /\
  (d * p <? 2 * ((n * p) mod (d * p))) = (d <? 2 * (n mod d)) /\
  (d * p =? 2 * ((n * p) mod (d * p))) = (d =? 2 * (n mod d)).
Proof.
  intros Hd Hp.
  rewrite Z.div_mul_cancel_r by lia.
  rewrite Z.mul_mod_distr_r by lia.
  replace (2 * (n mod d * p)) with (2 * (n mod d) * p) by ring.
  rewrite ltb_scale, eqb_scale by exact Hp. auto.
Qed.

(** [round_ratio] depends on the ratio only: a common power of two in
    numerator and denominator cancels. *)
Lemma round_ratio_scale (neg : bool) (num den j : Z) :
  0 < num -> 0 < den -> 0 <= j ->
  round_ratio neg (num * 2 ^ j) (den * 2 ^ j) = round_ratio neg num den.
Proof.
  intros Hnum Hden Hj.
  assert (Hp : 0 < 2 ^ j) by (apply Z.pow_pos_nonneg; lia).
  remember (2 ^ j) as p eqn:Ep.
  unfold round_ratio.
  destruct (Z.eqb_spec (num * p) 0) as [E|_]; [nia|].
  destruct (Z.eqb_spec num 0) as [E|_]; [lia|].
  assert (He0 : Z.log2 (num * p) - Z.log2 (den * p) - 52
                = Z.log2 num - Z.log2 den - 52).
  { rewrite Ep, !Z.log2_mul_pow2 by lia. lia. }
  rewrite He0. remember (Z.log2 num - Z.log2 den - 52) as e0 eqn:Ee0. clear He0 Ee0.
  assert (Hq0 : (if 0 <=? e0 then num * p / (den * p * 2 ^ e0)
                 else num * p * 2 ^ (- e0) / (den * p))
                = (if 0 <=? e0 then num / (den * 2 ^ e0) else num * 2 ^ (- e0) / den)).
  { destruct (Z.leb_spec 0 e0).
    - replace (den * p * 2 ^ e0) with (den * 2 ^ e0 * p) by ring.
      apply Z.div_mul_cancel_r; [|lia].
      assert (0 < 2 ^ e0) by (apply Z.pow_pos_nonneg; lia). nia.
    - replace (num * p * 2 ^ (- e0)) with (num * 2 ^ (- e0) * p) by ring.
      apply Z.div_mul_cancel_r; lia. }
  rewrite Hq0.
  remember (if 0 <=? e0 then num / (den * 2 ^ e0) else num * 2 ^ (- e0) / den) as q0 eqn:Eq0.
  clear Hq0 Eq0. cbv zeta.
  remember (Z.max (if q0 <? 2 ^ 52 then e0 - 1 else e0) (-1074)) as e eqn:Ee. clear Ee.
  set (n0 := if 0 <=? e then num else num * 2 ^ (- e)).
  set (d0 := if 0 <=? e then den * 2 ^ e else den).
  assert (Hn : (if 0 <=? e then num * p else num * p * 2 ^ (- e)) = n0 * p).
  { unfold n0. destruct (0 <=? e); ring. }
  assert (Hd : (if 0 <=? e then den * p * 2 ^ e else den * p) = d0 * p).
  { unfold d0. destruct (0 <=? e); ring. }
  assert (Hd0 : 0 < d0).
  { unfold d0. destruct (Z.leb_spec 0 e); [|exact Hden].
    assert (0 < 2 ^ e) by (apply Z.pow_pos_nonneg; lia). nia. }
  rewrite Hn, Hd.
  destruct (round_step_scale n0 d0 p Hd0 Hp) as (H1 & H2 & H3).
  rewrite H1, H2, H3. reflexivity.
Qed.

(** A positive integer below 2^53 is a binary64 value, of either sign. *)
Lemma round_ratio_exact (neg : bool) (n : Z) :
  1 <= n < 2 ^ 53 ->
  round_ratio neg n 1 = Finite neg (n * 2 ^ (52 - Z.log2 n)) (Z.log2 n - 52).
Proof.
  intros Hn. unfold round_ratio.
  change (Z.log2 1) with 0.
  pose proof (Z.log2_spec n ltac:(lia)) as [Hlo Hhi].
  pose proof (Z.log2_nonneg n) as Hl0.
  assert (Hl52 : Z.log2 n <= 52).
  { destruct (Z.le_gt_cases (Z.log2 n) 52) as [?|Hgt]; [assumption|].
    assert (2 ^ 53 <= 2 ^ Z.log2 n) by (apply Z.pow_le_mono_r; lia). lia. }
  remember (Z.log2 n) as L eqn:HL. clear HL.
  assert (Hpow : 2 ^ (52 - L) * 2 ^ L = 2 ^ 52).
  { rewrite <- Z.pow_add_r by lia. f_equal. lia. }
  assert (Hp0 : 0 < 2 ^ (52 - L)) by (apply Z.pow_pos_nonneg; lia).
  assert (HP0 : 0 < 2 ^ L) by (apply Z.pow_pos_nonneg; lia).
  replace (2 ^ Z.succ L) with (2 * 2 ^ L) in Hhi by (rewrite Z.pow_succ_r by lia; reflexivity).
  assert (Hm1 : 2 ^ 52 <= n * 2 ^ (52 - L)) by nia.
  assert (Hm2 : n * 2 ^ (52 - L) < 2 ^ 53).
  { change (2 ^ 53) with (2 * 2 ^ 52). nia. }
  cbv zeta.
  destruct (Z.leb_spec 0 (L - 0 - 52)) as [He|He].
  - assert (L = 52) by lia. subst L.
    change (52 - 0 - 52) with 0 in *. change (52 - 52) with 0 in *.
    change (2 ^ 0) with 1 in *. rewrite !Z.mul_1_r in *.
    settle_tests. reflexivity.
  - replace (- (L - 0 - 52)) with (52 - L) by lia.
    replace (L - 0 - 52) with (L - 52) by lia.
    settle_tests.
    replace (- (L - 52)) with (52 - L) by lia.
    settle_tests. reflexivity.
Qed.

Lemma of_Z_pos (n : Z) : 0 < n -> JsNumber.of_Z n = round_ratio false n 1.
Proof.
  intros H. unfold JsNumber.of_Z. rewrite Z.abs_eq by lia.
  destruct (Z.ltb_spec n 0); [lia|reflexivity].
Qed.

(** The product of two positive integers is exact when it is below
    2^53. *)
Lemma fmul_exact (a b : Z) :
  1 <= a -> 1 <= b -> a * b < 2 ^ 53 ->
  fmul (JsNumber.of_Z a) (JsNumber.of_Z b) = JsNumber.of_Z (a * b).
Proof.
  intros Ha Hb Hab.
  assert (Ha53 : a < 2 ^ 53) by nia. assert (Hb53 : b < 2 ^ 53) by nia.
  rewrite (of_Z_exact a) by lia. rewrite (of_Z_exact b) by lia.
  rewrite (of_Z_pos (a * b)) by nia.
  pose proof (Z.log2_nonneg a) as Hla. pose proof (Z.log2_nonneg b) as Hlb.
  pose proof (Z.log2_mul_below a b ltac:(lia) ltac:(lia)) as Hbelow.
  assert (Hl : Z.log2 (a * b) <= 52).
  { destruct (Z.le_gt_cases (Z.log2 (a * b)) 52) as [?|Hgt]; [assumption|].
    pose proof (Z.log2_spec (a * b) ltac:(nia)) as [Hlo _].
    assert (2 ^ 53 <= 2 ^ Z.log2 (a * b)) by (apply Z.pow_le_mono_r; lia). lia. }
  remember (Z.log2 a) as La eqn:E1. remember (Z.log2 b) as Lb eqn:E2. clear E1 E2.
  unfold fmul. cbv zeta.
  destruct (Z.leb_spec 0 (La - 52 + (Lb - 52))) as [He|He]; [lia|].
  cbn [xorb].
  replace (a * 2 ^ (52 - La) * (b * 2 ^ (52 - Lb)))
    with (a * b * 2 ^ (- (La - 52 + (Lb - 52)))).
  - rewrite <- (Z.mul_1_l (2 ^ (- (La - 52 + (Lb - 52))))) at 2.
    apply round_ratio_scale; nia || lia.
  - replace (- (La - 52 + (Lb - 52))) with ((52 - La) + (52 - Lb)) by lia.
    rewrite Z.pow_add_r by lia. ring.
Qed.

Lemma of_Z_signed (x : Z) :
  1 <= Z.abs x < 2 ^ 53 ->
  JsNumber.of_Z x
  = Finite (x <? 0) (Z.abs x * 2 ^ (52 - Z.log2 (Z.abs x))) (Z.log2 (Z.abs x) - 52).
Proof. intros H. unfold JsNumber.of_Z. apply round_ratio_exact. exact H. Qed.

Lemma signed_abs (x p : Z) : signed (x <? 0) (Z.abs x * p) = x * p.
Proof. unfold signed. destruct (Z.ltb_spec x 0); lia. Qed.

Lemma log2_le_52 (x : Z) : 1 <= x < 2 ^ 53 -> 0 <= Z.log2 x <= 52.
Proof.
  intros H. split; [apply Z.log2_nonneg|].
  destruct (Z.le_gt_cases (Z.log2 x) 52) as [?|Hgt]; [assumption|].
  pose proof (Z.log2_spec x ltac:(lia)) as [Hlo _].
  assert (2 ^ 53 <= 2 ^ Z.log2 x) by (apply Z.pow_le_mono_r; lia). lia.
Qed.

(** The sum of two non-zero integers below 2^53 in absolute value is the
    nearest Number to their sum. *)
Lemma fadd_exact (x y : Z) :
  1 <= Z.abs x < 2 ^ 53 -> 1 <= Z.abs y < 2 ^ 53 ->
  fadd (JsNumber.of_Z x) (JsNumber.of_Z y) = JsNumber.of_Z (x + y).
Proof.
  intros Hx Hy. rewrite (of_Z_signed x Hx), (of_Z_signed y Hy).
  pose proof (log2_le_52 _ Hx) as Hlx. pose proof (log2_le_52 _ Hy) as Hly.
  remember (Z.log2 (Z.abs x)) as Lx eqn:E1. remember (Z.log2 (Z.abs y)) as Ly eqn:E2.
  clear E1 E2. unfold fadd. cbv zeta. rewrite !signed_abs.
  set (e := Z.min (Lx - 52) (Ly - 52)).
  assert (He : e <= 0) by (unfold e; lia).
  assert (Hv : x * 2 ^ (52 - Lx) * 2 ^ (Lx - 52 - e) + y * 2 ^ (52 - Ly) * 2 ^ (Ly - 52 - e)
               = (x + y) * 2 ^ (- e)).
  { rewrite <- !Z.mul_assoc, <- !Z.pow_add_r by (unfold e; lia).
    replace (52 - Lx + (Lx - 52 - e)) with (- e) by lia.
    replace (52 - Ly + (Ly - 52 - e)) with (- e) by lia. ring. }
  rewrite Hv.
  assert (Hp : 0 < 2 ^ (- e)) by (apply Z.pow_pos_nonneg; lia).
  destruct (Z.eqb_spec ((x + y) * 2 ^ (- e)) 0) as [E0|E0].
  - assert (Hs : x + y = 0) by nia. rewrite Hs.
    destruct (Z.ltb_spec x 0), (Z.ltb_spec y 0); try reflexivity; lia.
  - assert (Hs : x + y <> 0) by nia.
    assert (Hsign : ((x + y) * 2 ^ (- e) <? 0) = (x + y <? 0)).
    { destruct (Z.ltb_spec ((x + y) * 2 ^ (- e)) 0), (Z.ltb_spec (x + y) 0);
        try reflexivity; nia. }
    rewrite Hsign, Z.abs_mul, (Z.abs_eq (2 ^ (- e))) by lia.
    unfold JsNumber.of_Z.
    destruct (Z.leb_spec 0 e) as [H0|H0].
    + assert (e = 0) by lia. replace (- e) with 0 by lia. replace e with 0 by lia.
      change (2 ^ 0) with 1. rewrite !Z.mul_1_r. reflexivity.
    + rewrite <- (Z.mul_1_l (2 ^ (- e))) at 2.
      apply round_ratio_scale; lia.
Qed.

(** [new Date(x)] for an integer time value. *)
Lemma of_number_of_Z (t : Z) :
  Z.abs t < 2 ^ 53 -> JsDate.of_number (JsNumber.of_Z t) = TimeClip t.
Proof.
  intros Ht. destruct (Z.eq_dec t 0) as [->|Hne]; [reflexivity|].
  rewrite (of_Z_signed t) by lia.
  pose proof (log2_le_52 (Z.abs t) ltac:(lia)) as Hl.
  remember (Z.log2 (Z.abs t)) as L eqn:E. clear E.
  unfold JsDate.of_number, JsNumber.trunc. f_equal.
  assert (Hp : 0 < 2 ^ (52 - L)) by (apply Z.pow_pos_nonneg; lia).
  destruct (Z.leb_spec 0 (L - 52)).
  - assert (L = 52) by lia. subst L. change (2 ^ (52 - 52)) with 1.
    rewrite !Z.mul_1_r. unfold signed. destruct (Z.ltb_spec t 0); lia.
  - replace (- (L - 52)) with (52 - L) by lia. rewrite Z.div_mul by lia.
    unfold signed. destruct (Z.ltb_spec t 0); lia.
Qed.

(** The time value [excelSerialToIso] builds for an integer serial. *)
Lemma excelSerialToIso_integer (n : Z) :
  1 <= n <= lastSerial ->
  excelSerialToIso (JsNumber.of_Z n) = isoOfDay (n - 25569).
Proof.
  intros Hn. unfold lastSerial in Hn. unfold excelSerialToIso. cbv zeta.
  change (24 * 60 * 60 * 1000) with 86400000.
  change (UTC_ms 1899 11 30) with (-2209161600000).
  rewrite (fmul_exact n 86400000) by lia.
  rewrite (fadd_exact (-2209161600000) (n * 86400000)) by lia.
  rewrite of_number_of_Z by lia.
  replace (-2209161600000 + n * 86400000) with ((n - 25569) * msPerDay)
    by (unfold msPerDay; lia).
  unfold TimeClip.
  destruct (Z.leb_spec (Z.abs ((n - 25569) * msPerDay)) 8640000000000000) as [_|H];
    [|unfold msPerDay in H; lia].
  unfold getUTCFullYear, getUTCMonth, getUTCDate.
  cbn [fmap option_fmap option_map].
  unfold YearFromTime, MonthFromTime, DateFromTime. rewrite Day_midnight.
  unfold isoOfDay. destruct (civil_from_days (n - 25569)) as [[y m] d]. reflexivity.
Qed.

(** X17. An integer day serial resolves to the calendar date that many
    days after 1899-12-30, in binary64 arithmetic and for every serial up
    to the last day a [Date] can hold: as a numeric cell through
    [excelSerialToIso], and as a run of digits through [parseDate].  In
    particular the serial of a calendar date resolves to the year, month
    and day of that date. *)
Theorem serial_is_days_since_1899_12_30 :
  (forall n, 1 <= n <= lastSerial ->
             excelSerialToIso (JsNumber.of_Z n) = isoOfDay (n - 25569)) /\
  (forall tz n, 1 <= n <= lastSerial ->
                parseDate tz (digits n) = Some (isoOfDay (n - 25569))) /\
  (forall y m d,
     validDate y m d = true ->
     1 <= days_from_civil y m d + 25569 <= lastSerial ->
     excelSerialToIso (JsNumber.of_Z (days_from_civil y m d + 25569))
     = formatIsoDate (Some y) (Some (m - 1)) (Some d)) /\
  days_from_civil 1899 12 30 + 25569 = 0.
Proof.
  split; [exact excelSerialToIso_integer|]. split; [|split; [|reflexivity]].
  - intros tz n Hn. destruct (digits_digitsOnly n) as [Hd Hne].
    rewrite (parseDate_digits tz (digits n) Hd Hne).
    rewrite (parseInt_digits (digits n) Hd Hne), digits_value_digits by lia.
    cbn [JsNumber.of_intnum]. unfold lastSerial in Hn.
    destruct (truthy_of_Z n ltac:(lia)) as [_ Hp]. rewrite Hp.
    rewrite excelSerialToIso_integer by (unfold lastSerial; lia). reflexivity.
  - intros y m d Hv Hn. rewrite (excelSerialToIso_integer _ Hn).
    replace (days_from_civil y m d + 25569 - 25569) with (days_from_civil y m d) by lia.
    unfold isoOfDay. destruct (civil_roundtrip y m d Hv) as [-> _]. reflexivity.
Qed.

Lemma serial_is_days_since_1899_12_30_witness :
  excelSerialToIso (JsNumber.of_Z 45658) = isoOfDay (45658 - 25569) /\
  isoOfDay (45658 - 25569) = str "2025-01-01".
Proof.
  split; [|vm_compute; reflexivity].
  apply (proj1 serial_is_days_since_1899_12_30). unfold lastSerial. lia.
Defined.

(** *** Serial headers of the years 1900 to 2100 *)

Lemma twoDigits_digits (v : Z) : 0 <= v <= 99 -> digitsOnly (twoDigits v).
Proof.
  intros Hv. unfold twoDigits. constructor; [|constructor; [apply digit_mod10|constructor]].
  unfold is_digit.
  assert (0 <= v / 10 <= 9).
  { pose proof (Z.div_pos v 10 ltac:(lia) ltac:(lia)).
    pose proof (Z.div_lt_upper_bound v 10 10 ltac:(lia) ltac:(lia)). lia. }
  destruct (Z.leb_spec 48 (48 + v / 10)), (Z.leb_spec (48 + v / 10) 57); try reflexivity; lia.
Qed.

Lemma allFrom_spec (P : Z -> bool) (fuel : nat) :
  forall lo, allFrom P lo fuel = true ->
             forall z, lo <= z < lo + Z.of_nat fuel -> P z = true.
Proof.
  induction fuel as [|f IH]; intros lo H z Hz; [lia|].
  cbn [allFrom] in H. apply andb_prop in H. destruct H as [H0 H].
  destruct (Z.eq_dec z lo) as [->|Hne]; [exact H0|].
  apply (IH (lo + 1) H). lia.
Qed.

Lemma digits_year (y : Z) : 1000 <= y <= 9999 -> length (digits y) = 4%nat.
Proof.
  intros Hy.
  assert (H : allFrom (fun y => (length (digits y) =? 4)%nat) 1000 (Z.to_nat 9000) = true)
    by (vm_cast_no_check (eq_refl true)).
  pose proof (allFrom_spec _ _ _ H y ltac:(lia)) as Hb.
  apply Nat.eqb_eq in Hb. exact Hb.
Qed.

(** The days of the serials 2 to [lastSerial2100] are the days of the
    years 1900 to 2100. *)
Lemma serial_years (n : Z) :
  2 <= n <= lastSerial2100 ->
  let '(y, m, d) := civil_from_days (n - 25569) in
  1900 <= y <= 2100 /\ 1 <= m <= 12 /\ 1 <= d <= 31.
Proof.
  intros Hn. unfold lastSerial2100 in Hn.
  assert (H : allFrom (fun n => let '(y, m, d) := civil_from_days (n - 25569) in
                               (1900 <=? y) && (y <=? 2100) && (1 <=? m) && (m <=? 12)
                               && (1 <=? d) && (d <=? 31))
                      2 (Z.to_nat 73414) = true)
    by (vm_cast_no_check (eq_refl true)).
  pose proof (allFrom_spec _ _ _ H n ltac:(lia)) as Hb. cbv beta in Hb.
  destruct (civil_from_days (n - 25569)) as [[y m] d].
  repeat (apply andb_prop in Hb; destruct Hb as [Hb ?]).
  repeat match goal with H : (_ <=? _) = true |- _ => apply Z.leb_le in H end. lia.
Qed.

(** The text of a date with a four-digit year. *)
Lemma isoOfDay_text (z y m d : Z) :
  civil_from_days z = (y, m, d) ->
  1000 <= y <= 9999 -> 1 <= m <= 12 -> 1 <= d <= 31 ->
  isoOfDay z = digits y ++ [45] ++ twoDigits m ++ [45] ++ twoDigits d.
Proof.
  intros E Hy Hm Hd. unfold isoOfDay. rewrite E. unfold formatIsoDate.
  cbn [fmap option_fmap option_map string_of_intnum].
  replace (Z.succ (m - 1)) with m by lia.
  rewrite (padStart0_twoDigits m), (padStart0_twoDigits d) by lia.
  unfold JsString.of_Z. destruct (Z.ltb_spec y 0); [lia|]. reflexivity.
Qed.

(** X18. For an integer serial whose day lies in the years 1900 to 2100
    (serials 2 to 73415), the header conversion and the date resolver
    agree: a numeric header cell is rendered as the ISO date of the
    serial, that text is a date header which [parseDate] returns
    unchanged, and the serial written as text resolves to the same date. *)
Theorem serial_header_round_trip :
  forall tz n,
    2 <= n <= lastSerial2100 ->
    let iso := isoOfDay (n - 25569) in
    convertHeader (CNum (JsNumber.of_Z n)) = iso /\
    isoShape iso = true /\
    dateHeader tz iso = true /\
    parseDate tz iso = Some iso /\
    parseDate tz (digits n) = Some iso.
Proof.
  intros tz n Hn iso.
  pose proof (serial_years n Hn) as Hc. unfold lastSerial2100 in Hn.
  destruct (civil_from_days (n - 25569)) as [[y m] d] eqn:E.
  destruct Hc as (Hy & Hm & Hd).
  assert (Htext : iso = digits y ++ [45] ++ twoDigits m ++ [45] ++ twoDigits d).
  { apply (isoOfDay_text _ y m d E); lia. }
  destruct (digits_digitsOnly y) as [Hdy Hney].
  pose proof (digits_year y ltac:(lia)) as Hly.
  assert (Hiso : Re.iso_date iso = Some (digits y, twoDigits m, twoDigits d)).
  { rewrite Htext. apply iso_date_accepts; try reflexivity; try assumption;
      apply twoDigits_digits; lia. }
  assert (Hshape : isoShape iso = true) by (unfold isoShape; rewrite Hiso; reflexivity).
  assert (Hser : excelSerialToIso (JsNumber.of_Z n) = iso).
  { apply excelSerialToIso_integer. unfold lastSerial. lia. }
  assert (Hne : iso <> []) by (rewrite Htext; destruct (digits y); [contradiction|discriminate]).
  assert (Hns : noSpace iso).
  { apply isoShape_canonical in Hshape. apply Hshape. }
  assert (Hparse : parseDate tz iso = Some iso).
  { unfold parseDate. rewrite bool_decide_eq_false_2 by exact Hne.
    cbv zeta. rewrite (trim_noSpace iso Hns), Hshape. reflexivity. }
  split; [|split; [exact Hshape|split; [|split; [exact Hparse|]]]].
  - unfold convertHeader.
    destruct (truthy_of_Z n ltac:(lia)) as [Ht _]. rewrite Ht. cbv zeta.
    rewrite Hser.
    assert (Htake : take 4 iso = digits y).
    { rewrite Htext, <- Hly. apply take_app_length. }
    rewrite Htake, (parseInt_digits (digits y) Hdy Hney), digits_value_digits by lia.
    destruct (Z.leb_spec 1900 y), (Z.leb_spec y 2100); try lia. reflexivity.
  - assert (Hnorm : normalize iso = iso).
    { apply normalize_plain; [exact Hns|].
      apply isoShape_chars in Hshape. eapply Forall_impl; [exact Hshape|].
      intros c Hc. apply orb_prop in Hc. destruct Hc as [Hc|Hc];
        [apply undash_digit; exact Hc|apply Z.eqb_eq in Hc; subst; reflexivity]. }
    unfold dateHeader, blankHeader. rewrite Hnorm.
    rewrite bool_decide_eq_false_2 by exact Hne.
    unfold isValidDateHeader. rewrite bool_decide_eq_false_2 by exact Hne.
    cbv zeta. rewrite Hnorm. destruct (parseWeekRange tz iso); [reflexivity|].
    unfold dateFormats. cbn [existsb]. rewrite Hshape. reflexivity.
  - destruct (digits_digitsOnly n) as [Hdn Hnen].
    rewrite (parseDate_digits tz (digits n) Hdn Hnen).
    rewrite (parseInt_digits (digits n) Hdn Hnen), digits_value_digits by lia.
    cbn [JsNumber.of_intnum].
    destruct (truthy_of_Z n ltac:(lia)) as [_ Hp]. rewrite Hp, Hser. reflexivity.
Qed.

Lemma serial_header_round_trip_witness :
  convertHeader (CNum (JsNumber.of_Z 45658)) = isoOfDay (45658 - 25569) /\
  parseDate 0 (digits 45658) = Some (isoOfDay (45658 - 25569)).
Proof.
  pose proof (serial_header_round_trip 0 45658 ltac:(unfold lastSerial2100; lia))
    as (H1 & _ & _ & _ & H2).
  split; assumption.
Defined.

(* ===================================================================== *)
(** ** Reading the delimited text back *)
(* ===================================================================== *)

Lemma split_join (sep : Z) (parts : list jsstring) :
  parts <> [] -> Forall (fun p => sep ∉ p) parts ->
  split sep (join [sep] parts) = parts.
Proof.
  intros Hne Hp. induction Hp as [|p ps Hp Hps IH]; [contradiction|].
  destruct ps as [|q ps].
  - simpl. apply split_none. exact Hp.
  - change (join [sep] (p :: q :: ps)) with (p ++ sep :: join [sep] (q :: ps)).
    rewrite (split_sep sep p _ Hp), IH by discriminate. reflexivity.
Qed.

Lemma not_elem_join (c sep : Z) (parts : list jsstring) :
  c <> sep -> Forall (fun p => c ∉ p) parts -> c ∉ join [sep] parts.
Proof.
  intros Hc Hp. induction Hp as [|p ps Hp Hps IH]; [apply not_elem_of_nil|].
  destruct ps as [|q ps]; [exact Hp|].
  change (join [sep] (p :: q :: ps)) with (p ++ sep :: join [sep] (q :: ps)).
  intros Hin. apply elem_of_app in Hin. destruct Hin as [Hin|Hin]; [contradiction|].
  apply elem_of_cons in Hin. destruct Hin as [Hin|Hin]; [contradiction|].
  exact (IH Hin).
Qed.

Lemma outputHeaders_plain : Forall plainField outputHeaders.
Proof.
  unfold outputHeaders. repeat (apply Forall_cons_2; [|]); try apply Forall_nil_2;
    (split; intros H; apply list_elem_of_In in H; vm_compute in H; intuition discriminate).
Qed.

Lemma readBack_table (table : list (list jsstring)) :
  table <> [] -> Forall (fun row => row <> [] /\ Forall plainField row) table ->
  readBack (join [10] (map (join [44]) table)) = table.
Proof.
  intros Hne Ht. unfold readBack. rewrite split_join.
  - rewrite map_map. rewrite <- (map_id table) at 2. apply map_ext_Forall.
    eapply Forall_impl; [exact Ht|]. intros row [Hr Hp]. cbv beta.
    apply split_join; [exact Hr|].
    eapply Forall_impl; [exact Hp|]. intros f Hf. apply Hf.
  - destruct table; [contradiction|discriminate].
  - apply Forall_map. eapply Forall_impl; [exact Ht|]. intros row [_ Hp]. cbv beta.
    apply not_elem_join; [discriminate|].
    eapply Forall_impl; [exact Hp|]. intros f Hf. apply Hf.
Qed.

(** X19. When no written value contains a comma or a line feed, the text
    of [generateCSV] read back the plain way (lines at line feeds, fields
    at commas) is the header row followed by one row of seven values per
    record, the values as written.  For records transformed from a parsed
    grid these are the rows of the workbook sheet. *)
Theorem csv_reads_back :
  forall tz records,
    records <> [] ->
    Forall (fun r => Forall plainField (csvValues tz r)) records ->
    readBack (generateCSV tz records) = outputHeaders :: map (csvValues tz) records /\
    (forall grid parsed options,
       parseArrayData tz grid = inr parsed ->
       records = transformData tz parsed options ->
       readBack (generateCSV tz records) = worksheetData records).
Proof.
  intros tz records Hne Hp.
  assert (H : readBack (generateCSV tz records) = csvTable tz records).
  { unfold generateCSV. destruct records as [|r rs]; [contradiction|].
    apply readBack_table; [discriminate|]. unfold csvTable.
    constructor; [split; [discriminate|exact outputHeaders_plain]|].
    apply Forall_map. eapply Forall_impl; [exact Hp|]. intros row Hrow.
    split; [discriminate|exact Hrow]. }
  split; [exact H|]. intros grid parsed options Hparse ->. rewrite H.
  apply tables_agree. apply transformData_canonical.
  eapply parseArrayData_canonical. exact Hparse.
Qed.

Lemma csv_reads_back_witness :
  readBack (generateCSV 0 (transformData 0 exampleParsed exampleOptions))
  = worksheetData (transformData 0 exampleParsed exampleOptions).
Proof.
  refine (proj2 (csv_reads_back 0 (transformData 0 exampleParsed exampleOptions) _ _)
            exampleGrid exampleParsed exampleOptions _ eq_refl).
  - vm_compute. discriminate.
  - apply Forall_forall. intros r Hr. apply list_elem_of_In in Hr.
    apply Forall_forall. intros f Hf. apply list_elem_of_In in Hf.
    vm_compute in Hr.
    repeat (destruct Hr as [<-|Hr]; [vm_compute in Hf;
      repeat (destruct Hf as [<-|Hf];
              [split; intros H; apply list_elem_of_In in H; vm_compute in H;
               intuition discriminate|]); contradiction|]).
    contradiction.
  - vm_compute. reflexivity.
Defined.

(* ===================================================================== *)
(** ** The upload check and the choice of parser *)
(* ===================================================================== *)

Lemma endsWith_inv (s p : jsstring) : endsWith s p = true -> exists pre, s = pre ++ p.
Proof.
  unfold endsWith. intros H. apply andb_prop in H. destruct H as [_ H].
  apply bool_decide_eq_true_1 in H. exists (take (length s - length p) s).
  rewrite <- H at 2. symmetry. apply take_drop.
Qed.

Lemma last_after_sep (sep : Z) (a x : jsstring) :
  sep ∉ x -> last (split sep (a ++ sep :: x)) = Some x.
Proof. intros Hx. rewrite last_split, (split_none sep x Hx). reflexivity. Qed.

Lemma fileFormat_inv (name : jsstring) (f : FileFormat) :
  fileFormat name = Some f ->
  exists pre ext, name = pre ++ 46 :: ext /\ 46 :: ext ∈ acceptedTypes /\ 46 ∉ ext.
Proof.
  unfold fileFormat. intros H.
  assert (Hno : forall e, e ∈ map str ["csv"; "xlsx"; "xls"]%string -> 46 ∉ e).
  { intros e He Hin. apply list_elem_of_In in He, Hin. vm_compute in He.
    repeat (destruct He as [<-|He]; [vm_compute in Hin; intuition discriminate|]).
    contradiction. }
  destruct (endsWith name (str ".xlsx")) eqn:E1.
  { apply endsWith_inv in E1. destruct E1 as (pre & ->).
    exists pre, (str "xlsx"). split; [reflexivity|]. split.
    - apply list_elem_of_In. vm_compute. tauto.
    - apply Hno. apply list_elem_of_In. vm_compute. tauto. }
  destruct (endsWith name (str ".xls")) eqn:E2.
  { apply endsWith_inv in E2. destruct E2 as (pre & ->).
    exists pre, (str "xls"). split; [reflexivity|]. split.
    - apply list_elem_of_In. vm_compute. tauto.
    - apply Hno. apply list_elem_of_In. vm_compute. tauto. }
  cbn [orb] in H.
  destruct (endsWith name (str ".csv")) eqn:E3; [|discriminate].
  apply endsWith_inv in E3. destruct E3 as (pre & ->).
  exists pre, (str "csv"). split; [reflexivity|]. split.
  - apply list_elem_of_In. vm_compute. tauto.
  - apply Hno. apply list_elem_of_In. vm_compute. tauto.
Qed.

(** X20. Every file name for which [parseFile] has a parser passes the
    type check of the upload component.  The converse fails: the check
    lowers the extension and [parseFile] does not, so a name whose
    extension is csv, xlsx or xls written with an upper-case letter passes
    the check and is then refused as an unsupported format. *)
Theorem upload_check_and_parser_choice :
  (forall (name : jsstring) (size : Z) (f : FileFormat),
     fileFormat name = Some f -> validateFile name size <> Some InvalidFileType) /\
  (forall (base ext : jsstring) (size : Z),
     46 ∉ ext -> 46 :: toLowerCase ext ∈ acceptedTypes -> toLowerCase ext <> ext ->
     validateFile (base ++ [46] ++ ext) size <> Some InvalidFileType /\
     fileFormat (base ++ [46] ++ ext) = None).
Proof.
  assert (Hlow : forall e, 46 :: e ∈ acceptedTypes -> toLowerCase e = e).
  { intros e He. apply list_elem_of_In in He. vm_compute in He.
    repeat (destruct He as [He|He]; [injection He as <-; reflexivity|]). contradiction. }
  assert (Hvalid : forall base ext size,
             46 ∉ ext -> 46 :: toLowerCase ext ∈ acceptedTypes ->
             validateFile (base ++ 46 :: ext) size <> Some InvalidFileType).
  { intros base ext size Hno Hacc. unfold validateFile. cbv zeta.
    rewrite (last_after_sep 46 base ext Hno). cbn [default].
    rewrite bool_decide_eq_true_2 by exact Hacc. cbn [negb].
    destruct (_ <? size); discriminate. }
  split.
  - intros name size f Hf. apply fileFormat_inv in Hf.
    destruct Hf as (pre & ext & -> & Hacc & Hno).
    apply Hvalid; [exact Hno|]. rewrite (Hlow ext Hacc). exact Hacc.
  - intros base ext size Hno Hacc Hup. split; [apply Hvalid; assumption|].
    destruct (fileFormat (base ++ [46] ++ ext)) as [f|] eqn:E; [exfalso|reflexivity].
    apply fileFormat_inv in E. destruct E as (pre & ext' & E & Hacc' & Hno').
    pose proof (last_after_sep 46 base ext Hno) as L1.
    pose proof (last_after_sep 46 pre ext' Hno') as L2.
    change (base ++ 46 :: ext) with (base ++ [46] ++ ext) in L1.
    rewrite E, L2 in L1. injection L1 as <-. apply Hup. apply Hlow. exact Hacc'.
Qed.

Lemma upload_check_and_parser_choice_witness :
  validateFile (str "DATA.CSV") 1000 = None /\ fileFormat (str "DATA.CSV") = None.
Proof.
  split; [vm_compute; reflexivity|].
  refine (proj2 (proj2 upload_check_and_parser_choice (str "DATA") (str "CSV") 1000 _ _ _)).
  - intros H. apply list_elem_of_In in H. vm_compute in H. intuition discriminate.
  - apply list_elem_of_In. vm_compute. tauto.
  - discriminate.
Defined.

(* ===================================================================== *)
(** ** Nothing is lost, and text around an amount *)
(* ===================================================================== *)

(** X21. The converse of the provenance of records: a cell of a data row
    with a non-blank category, in a date column, whose text resolves to an
    amount and whose column has an expansion or a header that resolves to
    a date, does give its record. *)
Theorem every_resolved_cell_gives_a_record :
  forall tz parsed options (row : list jsstring) (cat : jsstring) (j : nat)
         (amt : number) (d : jsstring),
    row ∈ data parsed ->
    row !! categoryIndex parsed = Some cat -> trim cat <> [] ->
    j ∈ dateIndices parsed ->
    row !! j ≫= parseAmount = Some amt ->
    match expandedDates parsed !! j with
    | Some (d0 :: ds) => d = List.last ds d0
    | _ => d <> [] /\ headers parsed !! j ≫= parseDate tz = Some d
    end ->
    {| amount_currency := currency options;
       amount_stringValue := toFixed2 amt;
       date := d;
       parent_id := parentId options;
       parent_type := str "ENTITY";
       description := getCategoryLeaf (trim cat);
       metadata_atlar_category := getCategoryLeaf (trim cat) |}
    ∈ transformData tz parsed options.
Proof.
  intros tz parsed options row cat j amt d Hrow Hcat Hne Hj Ha Hd.
  unfold transformData. apply list_elem_of_In, in_flat_map. exists row.
  split; [apply list_elem_of_In; exact Hrow|].
  unfold rowRecords. rewrite Hcat. cbn [fmap option_fmap option_map].
  destruct (trim cat) as [|c0 cat'] eqn:Ht; [contradiction|]. cbv zeta.
  apply in_flat_map. exists j. split; [apply list_elem_of_In; exact Hj|].
  unfold cellRecords. rewrite Ha. cbv zeta.
  destruct (headers parsed !! j) as [h|] eqn:Hh;
    cbv beta iota delta [mbind option_bind] in Hd |- *.
  - destruct (expandedDates parsed !! j) as [[|d0 ds]|].
    + destruct Hd as [Hd0 Hd]. rewrite Hd. destruct d; [contradiction|]. left. reflexivity.
    + subst d. left. reflexivity.
    + destruct Hd as [Hd0 Hd]. rewrite Hd. destruct d; [contradiction|]. left. reflexivity.
  - destruct (expandedDates parsed !! j) as [[|d0 ds]|].
    + destruct Hd as [_ Hd]. discriminate.
    + subst d. left. reflexivity.
    + destruct Hd as [_ Hd]. discriminate.
Qed.

Lemma every_resolved_cell_gives_a_record_witness :
  record "SEK" "100.50" "2025-01-02" "ENTITY_ID" "ENTITY" "Hosting" "Hosting"
  ∈ transformData 0 exampleParsed exampleOptions.
Proof.
  refine (every_resolved_cell_gives_a_record 0 exampleParsed exampleOptions
            (map str ["R&D>Hosting"; ""; "100,50"; "200"]%string) (str "R&D>Hosting") 2
            (Finite false 7072058789855232 (-46)) (str "2025-01-02") _ _ _ _ _ _).
  - apply list_elem_of_In. vm_compute. tauto.
  - reflexivity.
  - vm_compute. discriminate.
  - apply list_elem_of_In. vm_compute. tauto.
  - vm_compute. reflexivity.
  - vm_compute. split; [discriminate|reflexivity].
Defined.

Lemma digits_value_nonneg (a : jsstring) : digitsOnly a -> 0 <= digits_value a.
Proof.
  unfold digits_value. intros Ha.
  assert (H : forall acc, 0 <= acc ->
                0 <= fold_left (fun acc c => 10 * acc + (c - 48)) a acc).
  { induction Ha as [|c a Hc _ IH]; intros acc Hacc; [exact Hacc|].
    simpl. apply IH. unfold is_digit in Hc. apply andb_prop in Hc.
    destruct Hc as [H1 _]. apply Z.leb_le in H1. lia. }
  apply H. lia.
Qed.

(** [parseFloat] on digits followed by a character that goes on no
    number. *)
Lemma parseFloat_integer (a : jsstring) (x : Z) (rest : jsstring) :
  digitsOnly a -> a <> [] ->
  is_digit x = false -> x <> 46 -> x <> 101 -> x <> 69 ->
  parseFloat (a ++ x :: rest) = JsNumber.of_Z (digits_value a).
Proof.
  intros Ha Hne Hx H46 H101 H69. unfold parseFloat.
  destruct a as [|c a]; [contradiction|].
  assert (Hc : is_digit c = true) by (apply Forall_cons in Ha; tauto).
  assert (E45 : (c =? 45) = false).
  { destruct (Z.eqb_spec c 45); [subst; discriminate|reflexivity]. }
  assert (E43 : (c =? 43) = false).
  { destruct (Z.eqb_spec c 43); [subst; discriminate|reflexivity]. }
  assert (Hinf : forall r, is_prefix (str "Infinity") (c :: r) = false).
  { intros r. unfold is_prefix. apply bool_decide_eq_false_2. intros Hp.
    change (take (length (str "Infinity")) (c :: r)) with (c :: take 7 r) in Hp.
    injection Hp as Hp _. subst. discriminate. }
  change ((c :: a) ++ x :: rest) with (c :: (a ++ x :: rest)).
  rewrite (trimStart_head c _ (digit_not_ws c Hc)), E45, E43, Hinf.
  change (c :: a ++ x :: rest) with ((c :: a) ++ x :: rest).
  rewrite (span_digits_all (c :: a) (x :: rest) Ha Hx).
  destruct (Z.eqb_spec x 46) as [|_]; [contradiction|].
  assert (Hex : exponent_part (x :: rest) = 0).
  { unfold exponent_part.
    destruct (Z.eqb_spec x 101); [contradiction|].
    destruct (Z.eqb_spec x 69); [contradiction|]. reflexivity. }
  rewrite Hex, app_nil_r. cbn [length Z.of_nat]. 
  pose proof (digits_value_nonneg (c :: a) Ha) as Hv.
  unfold round_dec, JsNumber.of_Z. change (0 - 0) with 0. cbn [Z.leb Z.compare].
  change (10 ^ 0) with 1. rewrite Z.mul_1_r, Z.abs_eq by exact Hv.
  destruct (Z.ltb_spec (digits_value (c :: a)) 0); [lia|reflexivity].
Qed.

(** X22. Text around an amount.  After a run of digits, a character that
    is not a digit, a point, a comma or an exponent mark ends the number:
    whatever follows is ignored and the amount is the value of the digits
    ("100 SEK" is 100, and "1 000,50", with a space between the thousands,
    is 1).  Before the number nothing but whitespace is accepted: a text
    whose first character after the whitespace is not a digit, a sign, a
    point, a comma or the letter I of Infinity resolves to null. *)
Theorem amount_text_around_the_number :
  (forall (a : jsstring) (x : Z) (tail : jsstring),
     digitsOnly a -> a <> [] ->
     is_digit x = false -> x <> 46 -> x <> 44 -> x <> 101 -> x <> 69 ->
     headOk (rev (x :: tail)) ->
     parseAmount (a ++ x :: tail) = Some (JsNumber.of_Z (digits_value a))) /\
  (forall (w : jsstring) (x : Z) (tail : jsstring),
     spaceOnly w -> is_ws x = false -> is_digit x = false ->
     x <> 43 -> x <> 45 -> x <> 46 -> x <> 44 -> x <> 73 ->
     parseAmount (w ++ x :: tail) = None).
Proof.
  split.
  - intros a x tail Ha Hne Hx H46 H44 H101 H69 Hlast.
    unfold parseAmount. rewrite bool_decide_eq_false_2 by (destruct a; discriminate).
    assert (Ht : trim (a ++ x :: tail) = a ++ x :: tail).
    { apply trim_fixed; [apply digitsOnly_headOk; assumption|].
      rewrite rev_app_distr. destruct (rev (x :: tail)) as [|z r] eqn:E.
      - apply (f_equal (@length Z)) in E. rewrite length_rev in E. discriminate.
      - exact Hlast. }
    cbv zeta. rewrite Ht. rewrite bool_decide_eq_false_2 by (destruct a; discriminate).
    assert (Hr : replace_first 44 46 (a ++ x :: tail)
                 = a ++ x :: replace_first 44 46 tail).
    { clear Ht Hne. induction Ha as [|c a Hc _ IH]; simpl.
      - destruct (Z.eqb_spec x 44); [contradiction|reflexivity].
      - destruct (Z.eqb_spec c 44); [subst; discriminate|]. rewrite IH. reflexivity. }
    rewrite Hr, (parseFloat_integer a x _ Ha Hne Hx H46 H101 H69).
    unfold JsNumber.of_Z. rewrite isNaN_round_ratio. reflexivity.
  - intros w x tail Hw Hws Hx H43 H45 H46 H44 H73.
    unfold parseAmount. rewrite bool_decide_eq_false_2 by (destruct w; discriminate).
    assert (Ht : trim (w ++ x :: tail) = x :: trimEnd tail).
    { unfold trim. rewrite (trimStart_spaces w _ Hw), (trimStart_head x tail Hws).
      apply (trimEnd_keep x [] tail Hws). }
    cbv zeta. rewrite Ht. rewrite bool_decide_eq_false_2 by discriminate.
    cbn [replace_first]. destruct (Z.eqb_spec x 44) as [|_]; [contradiction|].
    unfold parseFloat. rewrite (trimStart_head x _ Hws).
    destruct (Z.eqb_spec x 45) as [|_]; [contradiction|].
    destruct (Z.eqb_spec x 43) as [|_]; [contradiction|].
    assert (Hinf : is_prefix (str "Infinity") (x :: replace_first 44 46 (trimEnd tail))
                   = false).
    { unfold is_prefix. apply bool_decide_eq_false_2. intros Hp.
      change (take (length (str "Infinity")) (x :: replace_first 44 46 (trimEnd tail)))
        with (x :: take 7 (replace_first 44 46 (trimEnd tail))) in Hp.
      injection Hp as Hp _. contradiction. }
    rewrite Hinf. cbn [span_digits]. rewrite Hx.
    destruct (Z.eqb_spec x 46) as [|_]; [contradiction|]. reflexivity.
Qed.

Lemma amount_text_around_the_number_witness :
  parseAmount (str "1 000,50") = Some (JsNumber.of_Z 1) /\
  parseAmount (str " $100") = None.
Proof.
  split.
  - refine (proj1 amount_text_around_the_number (str "1") 32 (str "000,50") _ _ _ _ _ _ _ _);
      try discriminate; try reflexivity. repeat constructor.
  - refine (proj2 amount_text_around_the_number (str " ") 36 (str "100") _ _ _ _ _ _ _ _);
      try discriminate; try reflexivity. repeat constructor.
Defined.

(* ===================================================================== *)
(** ** Slash dates in every time zone *)
(* ===================================================================== *)

Lemma yearBefore_era (doe : Z) : 1 <= doe < 146097 -> yearBefore doe = true.
Proof.
  intros H.
  assert (Hall : allFrom yearBefore 1 (Z.to_nat 146096) = true)
    by (vm_cast_no_check (eq_refl true)).
  apply (allFrom_spec _ _ _ Hall). lia.
Qed.

(** The year of the day before a day. *)
Lemma civil_year_before (z : Z) :
  fst (fst (civil_from_days (z - 1)))
  = let '(Y, M, D) := civil_from_days z in
    if (M =? 1) && (D =? 1) then Y - 1 else Y.
Proof.
  unfold civil_from_days. cbv zeta.
  replace (z - 1 + 719468) with (z + 719468 - 1) by lia.
  remember (z + 719468) as z' eqn:Ez. clear Ez z.
  pose proof (Z.div_mod z' 146097 ltac:(lia)) as Hdm.
  pose proof (Z.mod_pos_bound z' 146097 ltac:(lia)) as Hb.
  remember (z' / 146097) as era eqn:Ee.
  remember (z' mod 146097) as doe eqn:Ed.
  assert (Hz : z' = doe + era * 146097) by lia. clear Hdm Ee Ed. subst z'.
  replace (doe + era * 146097 - era * 146097) with doe by lia.
  destruct (Z.eq_dec doe 0) as [->|Hne].
  - replace (0 + era * 146097 - 1) with (146096 + (era - 1) * 146097) by lia.
    rewrite Z.div_add by lia. rewrite (Z.div_small 146096 146097) by lia.
    replace (146096 + (era - 1) * 146097 - (0 + (era - 1)) * 146097) with 146096 by lia.
    change (civil_of_doe 146096) with (399, 2, 29).
    change (civil_of_doe 0) with (0, 3, 1). cbn. lia.
  - replace (doe + era * 146097 - 1) with ((doe - 1) + era * 146097) by lia.
    rewrite Z.div_add by lia. rewrite (Z.div_small (doe - 1) 146097) by lia.
    replace (doe - 1 + era * 146097 - (0 + era) * 146097) with (doe - 1) by lia.
    pose proof (yearBefore_era doe ltac:(lia)) as Hq. unfold yearBefore, yearOfDoe in Hq.
    destruct (civil_of_doe (doe - 1)) as [[yoe' m'] d'].
    destruct (civil_of_doe doe) as [[yoe m] d].
    apply Z.eqb_eq in Hq. cbn [fst].
    destruct (m' <=? 2), (m <=? 2), ((m =? 1) && (d =? 1)); lia.
Qed.

Section AnyZone.
Variable tz : Z.
Hypothesis tz_range : -1440 < tz < 1440.

(** A calendar date built at midnight UTC: its local year is the year of
    the date, except west of UTC on 1 January, where it is the year
    before; when the years agree the date is written back as it is. *)
Lemma acceptDate_zone (Y M D : Z) (y : jsstring) :
  validDate Y M D = true -> 0 <= Y <= 9999 -> parseInt y = Some Y ->
  acceptDate tz (TimeClip (MakeDate (MakeDay Y (M - 1) D) 0)) y
  = if oldYearInZone tz M D then None else Some (isoText Y M D).
Proof.
  intros Hv HY Hy.
  destruct (civil_roundtrip Y M D Hv) as [Hciv Hbound].
  assert (HM : 1 <= M <= 12).
  { unfold validDate in Hv. repeat (apply andb_prop in Hv; destruct Hv as [Hv ?]).
    apply Z.leb_le in Hv. match goal with H : (M <=? 12) = true |- _ => apply Z.leb_le in H end.
    lia. }
  rewrite (MakeDay_valid Y M D HM).
  pose proof (civil_year_before (days_from_civil Y M D)) as Hprev. rewrite Hciv in Hprev.
  set (days := days_from_civil Y M D) in *.
  assert (Hera : 0 <= Y / 400 <= 24).
  { pose proof (Z.div_mod Y 400 ltac:(lia)). pose proof (Z.mod_pos_bound Y 400 ltac:(lia)). lia. }
  assert (Hclip : TimeClip (MakeDate days 0) = Some (days * msPerDay)).
  { unfold TimeClip, MakeDate, msPerDay.
    destruct (Z.leb_spec (Z.abs (days * 86400000 + 0)) 8640000000000000);
      [f_equal; lia | lia]. }
  rewrite Hclip. unfold acceptDate, getTime, getFullYear.
  cbv beta iota delta [fmap option_fmap option_map]. rewrite Hy.
  assert (Hday : forall a off, 0 <= off < msPerDay -> Day (a * msPerDay + off) = a).
  { intros a off Hoff. unfold Day. rewrite Z.add_comm, Z.div_add by discriminate.
    rewrite Z.div_small by exact Hoff. lia. }
  assert (Hday0 : Day (days * msPerDay) = days).
  { rewrite <- (Z.add_0_r (days * msPerDay)). apply Hday. unfold msPerDay. lia. }
  assert (Hiso : isoDatePart (days * msPerDay) = isoText Y M D).
  { rewrite isoDatePart_eq; unfold YearFromTime, MonthFromTime, DateFromTime;
      rewrite Hday0, Hciv; cbn [fst snd]; [|lia].
    replace (M - 1 + 1) with M by lia. reflexivity. }
  rewrite Hiso. unfold oldYearInZone.
  destruct (Z.ltb_spec tz 0) as [Hw|He]; cbn [andb].
  - assert (Hlocal : YearFromTime (LocalTime tz (days * msPerDay))
                     = if (M =? 1) && (D =? 1) then Y - 1 else Y).
    { unfold YearFromTime, LocalTime.
      replace (days * msPerDay + tz * msPerMinute)
        with ((days - 1) * msPerDay + (msPerDay + tz * msPerMinute)) by lia.
      rewrite Hday by (unfold msPerDay, msPerMinute; lia). exact Hprev. }
    rewrite Hlocal. destruct ((M =? 1) && (D =? 1)).
    + destruct (Z.eqb_spec (Y - 1) Y); [lia|reflexivity].
    + rewrite Z.eqb_refl. reflexivity.
  - assert (Hlocal : YearFromTime (LocalTime tz (days * msPerDay)) = Y).
    { unfold YearFromTime, LocalTime. rewrite Hday, Hciv; [reflexivity|].
      unfold msPerDay, msPerMinute. lia. }
    rewrite Hlocal, Z.eqb_refl. reflexivity.
Qed.

End AnyZone.

(** X23. Slash dates in a zone at a fixed offset of less than a day from
    UTC.  For [A/B/YYYY] with one or two digits [A], [B] and four digits
    [YYYY]: when month [A], day [B] is a date of the calendar it is the
    result, except west of UTC for 1 January, where the result is null
    (the date built at midnight UTC is still in the old year there); when
    [A] is no month and month [B], day [A] is a date of the calendar, that
    date is the result; when neither is a month the result is null. *)
Theorem slash_date_in_every_zone :
  forall tz (a b y : jsstring),
    -1440 < tz < 1440 ->
    oneOrTwoDigits a -> oneOrTwoDigits b -> digitsOnly y -> length y = 4%nat ->
    let A := digits_value a in
    let B := digits_value b in
    let Y := digits_value y in
    (validDate Y A B = true ->
     parseDate tz (slashText a b y)
     = if oldYearInZone tz A B then None else Some (isoText Y A B)) /\
    (12 < A -> validDate Y B A = true ->
     parseDate tz (slashText a b y) = Some (isoText Y B A)) /\
    (12 < A -> 12 < B -> parseDate tz (slashText a b y) = None).
Proof.
  intros tz a b y Htz Ha Hb Hy Ly A B Y.
  pose proof (digits_value_four y Hy Ly) as HY.
  assert (HyY : parseInt y = Some Y).
  { apply parseInt_digits; [exact Hy | destruct y; discriminate]. }
  assert (Hno : forall M D, 12 < M -> validDate Y M D = false).
  { intros M D HM. unfold validDate.
    replace (M <=? 12) with false by (symmetry; apply Z.leb_gt; lia).
    destruct (1 <=? M); reflexivity. }
  rewrite (parseDate_slash tz a b y Ha Hb Hy Ly).
  rewrite (slash_candidate y a b Hy Ly Ha Hb), (slash_candidate y b a Hy Ly Hb Ha).
  fold A B Y. split; [|split].
  - intros Hv. rewrite Hv, (acceptDate_zone tz Htz Y A B y Hv HY HyY).
    destruct (oldYearInZone tz A B) eqn:Eo; [|reflexivity].
    unfold oldYearInZone in Eo. apply andb_prop in Eo. destruct Eo as [Eo HB1].
    apply andb_prop in Eo. destruct Eo as [Hw HA1].
    apply Z.eqb_eq in HA1, HB1. rewrite HA1, HB1 in *. rewrite Hv.
    rewrite (acceptDate_zone tz Htz Y 1 1 y Hv HY HyY).
    unfold oldYearInZone. rewrite Hw. reflexivity.
  - intros HA Hv. rewrite (Hno A B HA), Hv.
    rewrite (acceptDate_zone tz Htz Y B A y Hv HY HyY).
    unfold oldYearInZone.
    destruct (Z.eqb_spec A 1) as [E|_]; [lia|]. rewrite andb_false_r. reflexivity.
  - intros HA HB. rewrite (Hno A B HA), (Hno B A HB). reflexivity.
Qed.

(** The second of January, and the first, five hours west of UTC. *)
Lemma slash_date_in_every_zone_witness :
  parseDate (-300) (slashText (str "1") (str "2") (str "2025")) = Some (str "2025-01-02") /\
  parseDate (-300) (slashText (str "1") (str "1") (str "2025")) = None.
Proof.
  split.
  - pose proof (slash_date_in_every_zone (-300) (str "1") (str "2") (str "2025") ltac:(lia)
                  ltac:(split; [repeat constructor | left; reflexivity])
                  ltac:(split; [repeat constructor | left; reflexivity])
                  ltac:(repeat constructor) eq_refl) as (H & _).
    rewrite (H ltac:(vm_compute; reflexivity)). vm_compute. reflexivity.
  - pose proof (slash_date_in_every_zone (-300) (str "1") (str "1") (str "2025") ltac:(lia)
                  ltac:(split; [repeat constructor | left; reflexivity])
                  ltac:(split; [repeat constructor | left; reflexivity])
                  ltac:(repeat constructor) eq_refl) as (H & _).
    rewrite (H ltac:(vm_compute; reflexivity)). vm_compute. reflexivity.
Defined.

(* ===================================================================== *)
(** ** Amounts with two decimals *)
(* ===================================================================== *)

(** [round_ratio] on a ratio of moderate size: the result is finite, its
    exponent is at most -7, and its significand is within half a unit of
    the scaled ratio. *)
Lemma round_ratio_near (neg : bool) (num den : Z) :
  0 < num -> 0 < den <= 1024 -> Z.log2 num - Z.log2 den <= 44 ->
  match round_ratio neg num den with
  | Finite s m e =>
      s = neg /\ e <= -7 /\ 0 < m /\ 2 * Z.abs (m * den - num * 2 ^ (- e)) <= den
  | _ => False
  end.
Proof.
  intros Hnum Hden Hlog. unfold round_ratio.
  destruct (Z.eqb_spec num 0) as [E|_]; [lia|].
  pose proof (Z.log2_spec num Hnum) as [HL1 HL2].
  pose proof (Z.log2_spec den ltac:(lia)) as [HD1 HD2].
  pose proof (Z.log2_nonneg num) as HL0. pose proof (Z.log2_nonneg den) as HD0.
  assert (HD10 : Z.log2 den <= 10).
  { destruct (Z.le_gt_cases (Z.log2 den) 10) as [?|Hgt]; [assumption|].
    assert (2 ^ 11 <= 2 ^ Z.log2 den) by (apply Z.pow_le_mono_r; lia). lia. }
  remember (Z.log2 num) as L eqn:EL. remember (Z.log2 den) as D eqn:ED. clear EL ED.
  assert (Hbig : den * 2 ^ 51 < num * 2 ^ (52 + D - L)).
  { assert (H1 : 2 ^ L * 2 ^ (52 + D - L) = 2 ^ 52 * 2 ^ D).
    { rewrite <- !Z.pow_add_r by lia. f_equal. lia. }
    assert (H2 : 0 < 2 ^ (52 + D - L)) by (apply Z.pow_pos_nonneg; lia).
    replace (2 ^ Z.succ D) with (2 * 2 ^ D) in HD2 by (rewrite Z.pow_succ_r by lia; reflexivity).
    change (2 ^ 52) with (2 * 2 ^ 51) in H1.
    assert (H3 : 2 ^ L * 2 ^ (52 + D - L) <= num * 2 ^ (52 + D - L)) by nia.
    nia. }
  remember (L - D - 52) as e0 eqn:Ee0.
  destruct (Z.leb_spec 0 e0) as [H0|H0]; [lia|].
  remember (num * 2 ^ (- e0) / den) as q0 eqn:Eq0. clear Eq0.
  remember (Z.max (if q0 <? 2 ^ 52 then e0 - 1 else e0) (-1074)) as e eqn:Ee.
  assert (He : (e = e0 - 1 \/ e = e0)) by (destruct (q0 <? 2 ^ 52); lia).
  clear Ee.
  destruct (Z.leb_spec 0 e) as [H1|H1]; [lia|].
  assert (HP : 2 ^ (52 + D - L) <= 2 ^ (- e)) by (apply Z.pow_le_mono_r; lia).
  assert (HP0 : 0 < 2 ^ (- e)) by (apply Z.pow_pos_nonneg; lia).
  assert (HP2 : 2 ^ (- e) = 2 * 2 ^ (- (e + 1))).
  { rewrite <- Z.pow_succ_r by lia. f_equal. lia. }
  remember (2 ^ (- e)) as P eqn:EP.
  assert (Hge : den <= num * P) by nia.
  pose proof (Z.div_mod (num * P) den ltac:(lia)) as Hdm.
  pose proof (Z.mod_pos_bound (num * P) den ltac:(lia)) as Hr.
  remember (num * P / den) as q eqn:Eq. remember ((num * P) mod den) as r eqn:Er.
  clear Eq Er.
  assert (Hq : 1 <= q) by nia.
  remember (if (den <? 2 * r) || (den =? 2 * r) && Z.odd q then q + 1 else q) as m eqn:Em.
  assert (Hm : 0 < m /\ 2 * Z.abs (m * den - num * P) <= den).
  { subst m. destruct (Z.ltb_spec den (2 * r)); cbn [orb]; [split; [lia|nia]|].
    destruct (Z.eqb_spec den (2 * r)); cbn [andb];
      [destruct (Z.odd q); split; try lia; nia|split; [lia|nia]]. }
  clear Em. destruct Hm as [Hm0 Hm].
  destruct (Z.eqb_spec m (2 ^ 53)) as [E53|N53].
  - change (2 ^ 52 =? 0) with false. cbv iota.
    destruct (Z.ltb_spec 971 (e + 1)); [lia|].
    split; [reflexivity|]. split; [lia|]. split; [reflexivity|].
    rewrite HP2 in Hm. remember (2 ^ (- (e + 1))) as P' eqn:EP'. subst m.
    replace (num * (2 * P')) with (2 * (num * P')) in Hm by ring.
    remember (num * P') as X eqn:EX. clear - Hm Hden.
    change (2 ^ 53) with 9007199254740992 in Hm. change (2 ^ 52) with 4503599627370496.
    lia.
  - destruct (Z.eqb_spec m 0); [lia|].
    destruct (Z.ltb_spec 971 e); [lia|].
    split; [reflexivity|]. split; [lia|]. split; [exact Hm0|]. subst P. exact Hm.
Qed.

(** *** Decimal digits *)

Lemma digits_fuel_acc (f : nat) :
  forall n acc, digits_fuel f n acc = digits_fuel f n [] ++ acc.
Proof.
  induction f as [|f IH]; intros n acc; [reflexivity|].
  cbn [digits_fuel]. destruct (n <? 10); [reflexivity|].
  rewrite (IH (n / 10) ((48 + n mod 10) :: acc)), (IH (n / 10) [48 + n mod 10]).
  rewrite <- app_assoc. reflexivity.
Qed.

Lemma digits_fuel_S (f : nat) (n : Z) (acc : jsstring) :
  digits_fuel (S f) n acc
  = if n <? 10 then (48 + n mod 10) :: acc
    else digits_fuel f (n / 10) ((48 + n mod 10) :: acc).
Proof. reflexivity. Qed.

(** With enough fuel the digits do not depend on the fuel. *)
Lemma digits_fuel_enough (f : nat) :
  forall f' n, 0 <= n < 10 ^ Z.of_nat (S f) -> n < 10 ^ Z.of_nat (S f') ->
               digits_fuel (S f) n [] = digits_fuel (S f') n [].
Proof.
  induction f as [|f IH]; intros f' n Hn Hn'.
  - change (10 ^ Z.of_nat 1) with 10 in Hn. cbn [digits_fuel].
    destruct (Z.ltb_spec n 10); [reflexivity|lia].
  - rewrite (digits_fuel_S (S f)), (digits_fuel_S f').
    destruct (Z.ltb_spec n 10) as [Hlt|Hge]; [reflexivity|].
    assert (Hdiv : forall g, n < 10 ^ Z.of_nat (S g) -> n / 10 < 10 ^ Z.of_nat g).
    { intros g Hg. rewrite Nat2Z.inj_succ, Z.pow_succ_r in Hg by lia.
      apply Z.div_lt_upper_bound; lia. }
    assert (H1 : 1 <= n / 10) by (apply Z.div_le_lower_bound; lia).
    destruct f' as [|f'].
    { pose proof (Hdiv 0%nat Hn'). change (10 ^ Z.of_nat 0) with 1 in *. lia. }
    rewrite (digits_fuel_acc (S f)), (digits_fuel_acc (S f')). f_equal.
    apply IH; [split; [lia|apply Hdiv; lia]|apply Hdiv; exact Hn'].
Qed.

Lemma digits_fuel_bound (n : Z) : 0 <= n -> n < 10 ^ Z.of_nat (S (Z.to_nat (Z.log2 n))).
Proof.
  intros Hn. destruct (Z.eq_dec n 0) as [->|Hn0]; [reflexivity|].
  pose proof (Z.log2_spec n ltac:(lia)) as [_ Hhi].
  pose proof (Z.log2_nonneg n).
  rewrite Nat2Z.inj_succ, Z2Nat.id by lia.
  eapply Z.lt_le_trans; [exact Hhi|]. apply Z.pow_le_mono_l. lia.
Qed.

Lemma digits_small (n : Z) : 0 <= n < 10 -> digits n = [48 + n].
Proof.
  intros Hn. unfold digits. cbn [digits_fuel].
  destruct (Z.ltb_spec n 10); [|lia]. rewrite Z.mod_small by lia. reflexivity.
Qed.

Lemma digits_step (n : Z) : 10 <= n -> digits n = digits (n / 10) ++ [48 + n mod 10].
Proof.
  intros Hn. unfold digits at 1. rewrite digits_fuel_S.
  destruct (Z.ltb_spec n 10); [lia|].
  assert (H1 : 1 <= n / 10) by (apply Z.div_le_lower_bound; lia).
  assert (Hl : 3 <= Z.log2 n).
  { apply Z.log2_le_pow2; [lia|]. change (2 ^ 3) with 8. lia. }
  destruct (Z.to_nat (Z.log2 n)) as [|g] eqn:Eg; [lia|].
  rewrite digits_fuel_acc. f_equal. unfold digits.
  apply digits_fuel_enough.
  - split; [lia|]. rewrite <- Eg, Z2Nat.id by lia.
    pose proof (Z.log2_spec n ltac:(lia)) as [_ Hhi].
    rewrite Z.pow_succ_r in Hhi by lia.
    assert (Hp : 2 ^ Z.log2 n <= 10 ^ Z.log2 n) by (apply Z.pow_le_mono_l; lia).
    apply Z.div_lt_upper_bound; lia.
  - apply digits_fuel_bound. lia.
Qed.

(** The digits of a number of cents, padded to three digits and cut
    before the last two. *)
Lemma fixed_split (v : Z) :
  0 <= v ->
  let ds0 := if v =? 0 then [48] else digits v in
  let ds := repeat 48 (3 - length ds0) ++ ds0 in
  take (length ds - 2) ds ++ [46] ++ drop (length ds - 2) ds
  = digits (v / 100) ++ [46] ++ twoDigits (v mod 100).
Proof.
  intros Hv.
  assert (E0 : (if v =? 0 then [48] else digits v) = digits v).
  { destruct (Z.eqb_spec v 0) as [->|]; reflexivity. }
  rewrite E0. cbv zeta. unfold twoDigits.
  destruct (Z.lt_ge_cases v 10) as [H10|H10].
  - rewrite (digits_small v) by lia. cbn [length repeat app Nat.sub take drop].
    rewrite (Z.div_small v 100), (Z.mod_small v 100) by lia.
    rewrite (Z.div_small v 10), (Z.mod_small v 10) by lia.
    rewrite digits_small by lia. reflexivity.
  - destruct (Z.lt_ge_cases v 100) as [H100|H100].
    + rewrite (digits_step v H10).
      assert (Hq : 0 <= v / 10 < 10) by (Z.div_mod_to_equations; lia).
      rewrite (digits_small (v / 10) Hq). cbn [length repeat app Nat.sub take drop].
      rewrite (Z.div_small v 100), (Z.mod_small v 100) by lia.
      rewrite digits_small by lia. reflexivity.
    + rewrite (digits_step v H10).
      assert (Hq : 10 <= v / 10) by (Z.div_mod_to_equations; lia).
      rewrite (digits_step (v / 10) Hq).
      replace (v / 10 / 10) with (v / 100) by (Z.div_mod_to_equations; lia).
      replace ((v mod 100) / 10) with ((v / 10) mod 10) by (Z.div_mod_to_equations; lia).
      replace ((v mod 100) mod 10) with (v mod 10) by (Z.div_mod_to_equations; lia).
      destruct (digits_digitsOnly (v / 100)) as [_ Hne].
      remember (digits (v / 100)) as hi eqn:Ehi.
      assert (Hhi : (1 <= length hi)%nat) by (destruct hi; [contradiction|simpl; lia]).
      remember (48 + (v / 10) mod 10) as d1 eqn:E1. remember (48 + v mod 10) as d0 eqn:E2.
      assert (Hlen : (3 - length ((hi ++ [d1]) ++ [d0]) = 0)%nat).
      { rewrite !length_app. cbn [length]. lia. }
      rewrite Hlen. cbn [repeat app].
      replace ((hi ++ [d1]) ++ [d0]) with (hi ++ [d1; d0])
        by (rewrite <- app_assoc; reflexivity).
      replace (length (hi ++ [d1; d0]) - 2)%nat
        with (length hi) by (rewrite length_app; cbn [length]; lia).
      rewrite take_app_length, drop_app_length. reflexivity.
Qed.

(** [toFixed(2)] of the Number nearest to a number of cents, of either
    sign. *)
Lemma toFixed2_cents (neg : bool) (num den v : Z) :
  0 <= num -> 0 < den <= 1024 -> num * 100 = v * den -> v < 10 ^ 14 ->
  toFixed2 (round_ratio neg num den)
  = (if neg && negb (v =? 0) then [45] else [])
    ++ digits (v / 100) ++ [46] ++ twoDigits (v mod 100).
Proof.
  intros Hnum Hden Hv Hlt.
  destruct (Z.eq_dec num 0) as [->|Hn0].
  { assert (v = 0) by nia. subst v. destruct neg; reflexivity. }
  assert (Hv0 : 0 < v) by nia.
  assert (Hlog : Z.log2 num - Z.log2 den <= 44).
  { pose proof (Z.log2_spec den ltac:(lia)) as [_ HD].
    pose proof (Z.log2_nonneg den) as HD0.
    assert (Hn : num < 2 ^ (Z.log2 den + 41)).
    { rewrite Z.pow_add_r by lia. rewrite Z.pow_succ_r in HD by lia.
      change (10 ^ 14) with 100000000000000 in Hlt.
      change (2 ^ 41) with 2199023255552.
      assert (num * 100 < 100000000000000 * den) by nia.
      remember (2 ^ Z.log2 den) as p. nia. }
    apply Z.log2_lt_pow2 in Hn; lia. }
  pose proof (round_ratio_near neg num den ltac:(lia) Hden Hlog) as Hr.
  destruct (round_ratio neg num den) as [| |s m e]; try contradiction.
  destruct Hr as (-> & He & Hm & Hb).
  assert (HP : 128 <= 2 ^ (- e)).
  { change 128 with (2 ^ 7). apply Z.pow_le_mono_r; lia. }
  remember (2 ^ (- e)) as P eqn:EP.
  assert (HT : -50 <= 100 * m - v * P <= 50).
  { assert (E : 100 * (m * den - num * P) = den * (100 * m - v * P)).
    { replace (100 * (m * den - num * P)) with (100 * m * den - (num * 100) * P) by ring.
      rewrite Hv. ring. }
    remember (m * den - num * P) as Y. remember (100 * m - v * P) as T.
    clear - E Hb Hden. nia. }
  unfold toFixed2. cbv zeta.
  destruct (Z.leb_spec 0 e) as [?|_]; [lia|].
  rewrite <- EP.
  destruct (Z.eqb_spec m 0) as [?|_]; [lia|].
  destruct (Z.eqb_spec v 0) as [?|_]; [lia|].
  change (10 ^ 14) with 100000000000000 in Hlt.
  destruct (Z.leb_spec (P * 10 ^ 21) m) as [Hbig|_].
  { change (10 ^ 21) with 1000000000000000000000 in Hbig. nia. }
  assert (Hn : (200 * m + P) / (2 * P) = v).
  { symmetry. apply (Z.div_unique (200 * m + P) (2 * P) v (200 * m + P - 2 * P * v)); lia. }
  rewrite Hn. rewrite <- (fixed_split v ltac:(lia)). reflexivity.
Qed.

(** *** Plain amounts *)

(** [parseFloat] on an optional sign, digits and an optional point with
    digits. *)
Lemma parseFloat_plain (sg : jsstring) (neg : bool) (a frac b : jsstring) :
  (sg = [] /\ neg = false) \/ (sg = [45] /\ neg = true) \/ (sg = [43] /\ neg = false) ->
  (frac = [] /\ b = []) \/ frac = 46 :: b ->
  digitsOnly a -> a <> [] -> digitsOnly b ->
  parseFloat (sg ++ a ++ frac)
  = round_dec neg (digits_value (a ++ b)) (0 - Z.of_nat (length b)).
Proof.
  intros Hsg Hfrac Ha Hne Hb.
  destruct a as [|c a]; [contradiction|].
  assert (Hc : is_digit c = true) by (apply Forall_cons in Ha; tauto).
  assert (E45 : (c =? 45) = false).
  { destruct (Z.eqb_spec c 45); [subst; discriminate|reflexivity]. }
  assert (E43 : (c =? 43) = false).
  { destruct (Z.eqb_spec c 43); [subst; discriminate|reflexivity]. }
  assert (Hinf : forall r, is_prefix (str "Infinity") (c :: r) = false).
  { intros r. unfold is_prefix. apply bool_decide_eq_false_2. intros Hp.
    change (take (length (str "Infinity")) (c :: r)) with (c :: take 7 r) in Hp.
    injection Hp as Hp _. subst. discriminate. }
  assert (Hbody :
    (if is_prefix (str "Infinity") ((c :: a) ++ frac) then Infinity neg
     else
       let '(ip, r1) := span_digits ((c :: a) ++ frac) in
       let '(fp, r2) :=
         match r1 with
         | x :: r => if x =? 46 then span_digits r else ([], r1)
         | [] => ([], r1)
         end in
       match ip, fp with
       | [], [] => NaN
       | _, _ =>
           round_dec neg (digits_value (ip ++ fp)) (exponent_part r2 - Z.of_nat (length fp))
       end)
    = round_dec neg (digits_value ((c :: a) ++ b)) (0 - Z.of_nat (length b))).
  { change ((c :: a) ++ frac) with (c :: (a ++ frac)) at 1. rewrite Hinf.
    destruct Hfrac as [[-> ->]| ->].
    - rewrite (span_digits_all (c :: a) [] Ha I). reflexivity.
    - rewrite (span_digits_all (c :: a) (46 :: b) Ha eq_refl).
      rewrite Z.eqb_refl.
      pose proof (span_digits_all b [] Hb I) as Hs. rewrite app_nil_r in Hs.
      rewrite Hs. reflexivity. }
  unfold parseFloat.
  destruct Hsg as [[-> ->]|[[-> ->]|[-> ->]]].
  - change ([] ++ (c :: a) ++ frac) with (c :: (a ++ frac)).
    rewrite (trimStart_head c _ (digit_not_ws c Hc)), E45, E43. exact Hbody.
  - change ([45] ++ (c :: a) ++ frac) with (45 :: ((c :: a) ++ frac)).
    rewrite (trimStart_head 45 _ eq_refl). change (45 =? 45) with true. exact Hbody.
  - change ([43] ++ (c :: a) ++ frac) with (43 :: ((c :: a) ++ frac)).
    rewrite (trimStart_head 43 _ eq_refl). change (43 =? 45) with false.
    change (43 =? 43) with true. exact Hbody.
Qed.

Lemma parseAmount_plain (sg : jsstring) (neg : bool) (a frac b : jsstring) :
  (sg = [] /\ neg = false) \/ (sg = [45] /\ neg = true) \/ (sg = [43] /\ neg = false) ->
  (frac = [] /\ b = []) \/ frac = 44 :: b \/ frac = 46 :: b ->
  digitsOnly a -> a <> [] -> digitsOnly b ->
  parseAmount (sg ++ a ++ frac)
  = Some (round_dec neg (digits_value (a ++ b)) (0 - Z.of_nat (length b))).
Proof.
  intros Hsg Hfrac Ha Hne Hb.
  assert (Hsgc : Forall (fun c => is_ws c = false /\ c <> 44) sg).
  { destruct Hsg as [[-> _]|[[-> _]|[-> _]]]; repeat constructor; discriminate. }
  assert (Hac : Forall (fun c => is_ws c = false /\ c <> 44) a).
  { eapply Forall_impl; [exact Ha|]. intros c Hc. split; [apply digit_not_ws; exact Hc|].
    intros ->. discriminate. }
  assert (Hbc : noSpace b) by (apply digitsOnly_noSpace; exact Hb).
  assert (Hfc : noSpace frac).
  { destruct Hfrac as [[-> _]|[-> | ->]]; [constructor| |]; constructor; auto. }
  assert (Hns : noSpace (sg ++ a ++ frac)).
  { apply Forall_app. split; [eapply Forall_impl; [exact Hsgc|]; intros c Hc; apply Hc|].
    apply Forall_app. split; [eapply Forall_impl; [exact Hac|]; intros c Hc; apply Hc|].
    exact Hfc. }
  assert (Hnn : sg ++ a ++ frac <> []).
  { destruct sg; [|discriminate]. destruct a; [contradiction|discriminate]. }
  assert (H44 : 44 ∉ sg ++ a).
  { intros Hin. apply elem_of_app in Hin.
    destruct Hin as [Hin|Hin];
      [rewrite Forall_forall in Hsgc; apply Hsgc in Hin
      |rewrite Forall_forall in Hac; apply Hac in Hin]; destruct Hin as [_ Hin];
      contradiction. }
  unfold parseAmount. rewrite bool_decide_eq_false_2 by exact Hnn. cbv zeta.
  rewrite (trim_noSpace _ Hns). rewrite bool_decide_eq_false_2 by exact Hnn.
  assert (Hrep : exists frac', replace_first 44 46 (sg ++ a ++ frac) = sg ++ a ++ frac' /\
                               ((frac' = [] /\ b = []) \/ frac' = 46 :: b)).
  { destruct Hfrac as [[-> ->]|[-> | ->]].
    - exists []. split; [|left; auto]. rewrite app_nil_r. apply replace_first_none. exact H44.
    - exists (46 :: b). split; [|right; reflexivity].
      rewrite app_assoc, (replace_first_here 44 46 (sg ++ a) b H44), <- app_assoc.
      reflexivity.
    - exists (46 :: b). split; [|right; reflexivity]. apply replace_first_none.
      rewrite app_assoc. intros Hin. apply elem_of_app in Hin.
      destruct Hin as [Hin|Hin]; [contradiction|].
      apply elem_of_cons in Hin. destruct Hin as [Hin|Hin]; [discriminate|].
      revert Hin. apply digitsOnly_not_elem; [exact Hb|reflexivity]. }
  destruct Hrep as (frac' & -> & Hfrac').
  rewrite (parseFloat_plain sg neg a frac' b Hsg Hfrac' Ha Hne Hb).
  rewrite isNaN_round_dec. reflexivity.
Qed.

Lemma digit_value (c : Z) : is_digit c = true -> 0 <= c - 48 <= 9.
Proof.
  unfold is_digit. intros H. apply andb_prop in H. destruct H as [H1 H2].
  apply Z.leb_le in H1, H2. lia.
Qed.

(** A digit string without leading zero is the decimal text of its
    value. *)
Lemma digits_value_snoc (a : jsstring) (c : Z) :
  digits_value (a ++ [c]) = 10 * digits_value a + (c - 48).
Proof. rewrite digits_value_app. reflexivity. Qed.

Lemma digits_value_pos (a : jsstring) :
  digitsOnly a -> a <> [] -> head a <> Some 48 -> 1 <= digits_value a.
Proof.
  induction a as [|c a IH] using rev_ind; intros Ha Hne Hh; [contradiction|].
  apply Forall_app in Ha. destruct Ha as [Ha Hc].
  apply Forall_cons in Hc. destruct Hc as [Hc _]. apply digit_value in Hc.
  rewrite digits_value_snoc.
  destruct a as [|c0 a].
  - change (digits_value []) with 0. simpl in Hh.
    assert (c <> 48) by (intros ->; apply Hh; reflexivity). lia.
  - assert (1 <= digits_value (c0 :: a)) by (apply IH; [exact Ha|discriminate|exact Hh]).
    lia.
Qed.

Lemma digits_of_value (a : jsstring) :
  digitsOnly a -> a <> [] -> head a <> Some 48 \/ a = [48] ->
  digits (digits_value a) = a.
Proof.
  intros Ha Hne [Hh| ->]; [|reflexivity].
  revert Ha Hne Hh.
  induction a as [|c a IH] using rev_ind; intros Ha Hne Hh; [contradiction|].
  apply Forall_app in Ha. destruct Ha as [Ha Hc].
  apply Forall_cons in Hc. destruct Hc as [Hc _]. apply digit_value in Hc.
  rewrite digits_value_snoc.
  destruct a as [|c0 a].
  - change (digits_value []) with 0. rewrite digits_small by lia.
    replace (48 + (10 * 0 + (c - 48))) with c by lia. reflexivity.
  - assert (Hp : 1 <= digits_value (c0 :: a))
      by (apply digits_value_pos; [exact Ha|discriminate|exact Hh]).
    rewrite digits_step by lia.
    replace ((10 * digits_value (c0 :: a) + (c - 48)) / 10) with (digits_value (c0 :: a))
      by (Z.div_mod_to_equations; lia).
    replace ((10 * digits_value (c0 :: a) + (c - 48)) mod 10) with (c - 48)
      by (Z.div_mod_to_equations; lia).
    rewrite IH by (try exact Ha; try discriminate; exact Hh).
    replace (48 + (c - 48)) with c by lia. reflexivity.
Qed.

(** X24. Plain amounts are written exactly.  For an amount text made of
    an optional sign, digits below 10^12 and at most two decimals after a
    comma or a point, binary64 rounding does not show: the amount text of
    the record is the sign (minus only, and none for zero), the integer
    part without leading zeros (the digits as given, when they have none),
    a point, and the decimals filled with zeros to two. *)
Theorem plain_amounts_are_written_exactly :
  forall (sg a frac b : jsstring) (neg : bool),
    (sg = [] /\ neg = false) \/ (sg = [45] /\ neg = true) \/ (sg = [43] /\ neg = false) ->
    (frac = [] /\ b = []) \/ frac = 44 :: b \/ frac = 46 :: b ->
    digitsOnly a -> a <> [] -> digitsOnly b -> (length b <= 2)%nat ->
    digits_value a < 10 ^ 12 ->
    exists x,
      parseAmount (sg ++ a ++ frac) = Some x /\
      toFixed2 x
      = (if neg && negb (digits_value (a ++ b) =? 0) then [45] else [])
        ++ digits (digits_value a) ++ [46] ++ b ++ repeat 48 (2 - length b) /\
      (head a <> Some 48 \/ a = [48] -> digits (digits_value a) = a).
Proof.
  intros sg a frac b neg Hsg Hfrac Ha Hne Hb Hlen HA.
  eexists. split; [apply (parseAmount_plain sg neg a frac b); assumption|].
  split; [|apply digits_of_value; assumption].
  pose proof (digits_value_nonneg a Ha) as HA0.
  change (10 ^ 12) with 1000000000000 in HA.
  rewrite digits_value_app. remember (digits_value a) as A eqn:EA. clear EA.
  unfold round_dec.
  destruct b as [|c1 [|c2 [|c3 b]]]; [| | |simpl in Hlen; lia]; cbn [length fold_left].
  - change (0 <=? 0 - Z.of_nat 0) with true. cbv iota. change (10 ^ (0 - Z.of_nat 0)) with 1.
    rewrite (toFixed2_cents neg (A * 1) 1 (100 * A))
      by (try change (10 ^ 14) with 100000000000000; lia).
    replace (100 * A / 100) with A by (Z.div_mod_to_equations; lia).
    replace ((100 * A) mod 100) with 0 by (Z.div_mod_to_equations; lia).
    replace (100 * A =? 0) with (A =? 0)
      by (destruct (Z.eqb_spec A 0), (Z.eqb_spec (100 * A) 0); try reflexivity; lia).
    reflexivity.
  - apply Forall_cons in Hb. destruct Hb as [H1 _]. apply digit_value in H1.
    change (0 <=? 0 - Z.of_nat 1) with false. cbv iota.
    change (10 ^ (- (0 - Z.of_nat 1))) with 10.
    rewrite (toFixed2_cents neg (10 * A + (c1 - 48)) 10 (10 * (10 * A + (c1 - 48))))
      by (try change (10 ^ 14) with 100000000000000; lia).
    replace (10 * (10 * A + (c1 - 48)) / 100) with A by (Z.div_mod_to_equations; lia).
    replace ((10 * (10 * A + (c1 - 48))) mod 100) with (10 * (c1 - 48))
      by (Z.div_mod_to_equations; lia).
    replace (10 * (10 * A + (c1 - 48)) =? 0) with (10 * A + (c1 - 48) =? 0)
      by (destruct (Z.eqb_spec (10 * A + (c1 - 48)) 0),
                   (Z.eqb_spec (10 * (10 * A + (c1 - 48))) 0); try reflexivity; lia).
    unfold twoDigits.
    replace (10 * (c1 - 48) / 10) with (c1 - 48) by (Z.div_mod_to_equations; lia).
    replace ((10 * (c1 - 48)) mod 10) with 0 by (Z.div_mod_to_equations; lia).
    replace (48 + (c1 - 48)) with c1 by lia. reflexivity.
  - apply Forall_cons in Hb. destruct Hb as [H1 Hb].
    apply Forall_cons in Hb. destruct Hb as [H2 _].
    apply digit_value in H1, H2.
    change (0 <=? 0 - Z.of_nat 2) with false. cbv iota.
    change (10 ^ (- (0 - Z.of_nat 2))) with 100.
    rewrite (toFixed2_cents neg (10 * (10 * A + (c1 - 48)) + (c2 - 48)) 100
               (10 * (10 * A + (c1 - 48)) + (c2 - 48)))
      by (try change (10 ^ 14) with 100000000000000; lia).
    replace ((10 * (10 * A + (c1 - 48)) + (c2 - 48)) / 100) with A
      by (Z.div_mod_to_equations; lia).
    replace ((10 * (10 * A + (c1 - 48)) + (c2 - 48)) mod 100) with (10 * (c1 - 48) + (c2 - 48))
      by (Z.div_mod_to_equations; lia).
    unfold twoDigits.
    replace ((10 * (c1 - 48) + (c2 - 48)) / 10) with (c1 - 48) by (Z.div_mod_to_equations; lia).
    replace ((10 * (c1 - 48) + (c2 - 48)) mod 10) with (c2 - 48)
      by (Z.div_mod_to_equations; lia).
    replace (48 + (c1 - 48)) with c1 by lia. replace (48 + (c2 - 48)) with c2 by lia.
    reflexivity.
Qed.

Lemma plain_amounts_are_written_exactly_witness :
  exists x, parseAmount (str "-1234,5") = Some x /\ toFixed2 x = str "-1234.50".
Proof.
  destruct (plain_amounts_are_written_exactly [45] (str "1234") (44 :: str "5") (str "5") true
              ltac:(right; left; split; reflexivity) ltac:(right; left; reflexivity)
              ltac:(repeat constructor) ltac:(discriminate) ltac:(repeat constructor)
              ltac:(simpl; lia) ltac:(vm_compute; reflexivity)) as (x & H1 & H2 & _).
  exists x. split; [exact H1|]. rewrite H2. vm_compute. reflexivity.
Defined.
(* ===================================================================== *)
(** ** Week ranges across a daylight-saving change *)
(* ===================================================================== *)

(** For a zone without transitions the zoned functions are the functions
    at a constant offset. *)
Lemma zoned_UTC_fixed (tz lt : Z) : Zoned.UTC (fixedZone tz) lt = JsDate.UTC tz lt.
Proof.
  unfold Zoned.UTC, Zoned.possibleInstants, Zoned.LocalTime, Zoned.offsetAt.
  cbn [fixedZone baseOffset transitions map List.filter Zoned.offsetFrom].
  replace (lt - tz * msPerMinute + tz * msPerMinute =? lt) with true
    by (symmetry; apply Z.eqb_eq; lia).
  reflexivity.
Qed.

Lemma zoned_of_local_fixed (tz : Z) (y m d : intnum) :
  Zoned.of_local (fixedZone tz) y m d = JsDate.of_local tz y m d.
Proof.
  unfold Zoned.of_local, JsDate.of_local.
  destruct y as [y|], m as [m|], d as [d|]; try reflexivity.
  cbv beta iota delta [mbind option_bind]. rewrite zoned_UTC_fixed. reflexivity.
Qed.

Lemma zoned_setDate_fixed (tz : Z) (d : Date) (dt : intnum) :
  Zoned.setDate (fixedZone tz) d dt = JsDate.setDate tz d dt.
Proof.
  unfold Zoned.setDate, JsDate.setDate.
  destruct d as [t|], dt as [v|]; try reflexivity.
  cbv beta iota zeta delta [mbind option_bind]. rewrite zoned_UTC_fixed. reflexivity.
Qed.

Lemma zoned_weekRangeLoop_fixed (tz : Z) (fuel : nat) :
  forall d end_,
    Zoned.weekRangeLoop (fixedZone tz) fuel d end_ = weekRangeLoop tz fuel d end_.
Proof.
  induction fuel as [|f IH]; intros d end_; [reflexivity|].
  cbn [Zoned.weekRangeLoop weekRangeLoop].
  destruct (JsDate.le d end_); [|reflexivity].
  rewrite zoned_setDate_fixed, IH. reflexivity.
Qed.

Lemma zoned_parseWeekRange_fixed (tz : Z) (s : jsstring) :
  Zoned.parseWeekRange (fixedZone tz) s = parseWeekRange tz s.
Proof.
  unfold Zoned.parseWeekRange, parseWeekRange. cbv zeta.
  destruct (weekRangeBounds (normalize s)) as [[[[sm sd] em] ed]|]; [|reflexivity].
  destruct sm as [sm|]; [|reflexivity]. destruct em as [em|]; [|reflexivity].
  rewrite !zoned_of_local_fixed, zoned_weekRangeLoop_fixed. reflexivity.
Qed.

Lemma zoned_isValidDateHeader_fixed (tz : Z) (h : jsstring) :
  Zoned.isValidDateHeader (fixedZone tz) h = isValidDateHeader tz h.
Proof.
  unfold Zoned.isValidDateHeader, isValidDateHeader.
  rewrite zoned_parseWeekRange_fixed. reflexivity.
Qed.

Lemma zoned_scanHeaders_fixed (tz : Z) (hs : list jsstring) :
  forall i, Zoned.scanHeaders (fixedZone tz) i hs = scanHeaders tz i hs.
Proof.
  induction hs as [|h rest IH]; intros i; [reflexivity|].
  cbn [Zoned.scanHeaders scanHeaders].
  rewrite zoned_isValidDateHeader_fixed, zoned_parseWeekRange_fixed, !IH. reflexivity.
Qed.

Lemma zoned_parseArrayData_fixed (tz : Z) (grid : list (list cell)) :
  Zoned.parseArrayData (fixedZone tz) grid = parseArrayData tz grid.
Proof.
  unfold Zoned.parseArrayData, parseArrayData, Zoned.findDateIndices, findDateIndices.
  destruct grid as [|row0 rows]; [reflexivity|]. cbv zeta.
  destruct (findCategoryIndex (map convertHeader row0)) as [c|]; [|reflexivity].
  rewrite zoned_scanHeaders_fixed. reflexivity.
Qed.

(** C3, on the code.  The loop of [parseWeekRange] steps through local
    midnights and compares time values.  In Africa/Cairo the midnight of
    25 April 2025 does not exist: [setDate] lands on 01:00 and the later
    steps stay there, so on the 27th the loop variable is after [end]
    (midnight) and the end date is not pushed.  "Apr 21 - Apr 27" expands
    to the six dates 2025-04-21 .. 2025-04-26, and the record of a cell of
    that column is dated 2025-04-26, in whatever zone it is transformed.
    At the constant offset of Cairo's winter the same header gives the
    seven dates; for a zone without transitions the zoned parser is the
    parser at a constant offset. *)
Theorem week_range_loses_its_end_date :
  Zoned.parseWeekRange cairo (str "Apr 21 - Apr 27")
    = Some (map str ["2025-04-21"; "2025-04-22"; "2025-04-23"; "2025-04-24";
                     "2025-04-25"; "2025-04-26"]%string) /\
  (exists parsed,
     Zoned.parseArrayData cairo aprilGrid = inr parsed /\
     forall tz,
       transformData tz parsed exampleOptions =
         [ record "SEK" "10.00" "2025-04-26" "ENTITY_ID" "ENTITY" "Office" "Office" ]) /\
  Zoned.parseWeekRange (fixedZone 120) (str "Apr 21 - Apr 27")
    = Some (map str ["2025-04-21"; "2025-04-22"; "2025-04-23"; "2025-04-24";
                     "2025-04-25"; "2025-04-26"; "2025-04-27"]%string) /\
  (forall tz s, Zoned.parseWeekRange (fixedZone tz) s = parseWeekRange tz s) /\
  (forall tz grid, Zoned.parseArrayData (fixedZone tz) grid = parseArrayData tz grid).
Proof.
  split; [vm_compute; reflexivity|].
  split.
  { eexists. split; [vm_compute; reflexivity|]. intros tz. vm_compute. reflexivity. }
  split; [vm_compute; reflexivity|].
  split; [exact zoned_parseWeekRange_fixed|exact zoned_parseArrayData_fixed].
Qed.

(* ===================================================================== *)
(** ** The two serializers *)
(* ===================================================================== *)

Lemma worksheetData_readBack (tz : Z) (records : list TransformedRow) :
  records <> [] ->
  csvTable tz records = worksheetData records ->
  Forall (fun r => Forall plainField (recordValues r)) records ->
  readBack (generateCSV tz records) = worksheetData records.
Proof.
  intros Hne Htable Hp. unfold generateCSV.
  destruct records as [|r rs]; [contradiction|]. rewrite Htable.
  apply readBack_table; [discriminate|]. unfold worksheetData.
  constructor; [split; [discriminate|exact outputHeaders_plain]|].
  apply Forall_map. eapply Forall_impl; [exact Hp|]. intros row Hrow.
  split; [discriminate|exact Hrow].
Qed.

(** C8 (as the code has it).  For the records the Row Transformer
    produces from a parsed grid, the rows of values handed to the two
    serializers are the same: header row first, then one row per record
    with the seven values in the same order.  Passing each date through
    [parseDate] in [generateCSV] changes none of them.  The CSV text is
    these rows joined by commas and line feeds, unquoted, and the workbook
    is built from the same rows; for an empty record list both are empty.
    When no value of a record contains a comma or a line feed, the text
    read back (lines at line feeds, fields at commas) is the rows of the
    sheet.  The same holds for the records of the multi-entity
    transformer, whatever its input. *)
Theorem csv_and_excel_rows_agree :
  forall tz grid parsed options,
    parseArrayData tz grid = inr parsed ->
    let records := transformData tz parsed options in
    csvTable tz records = worksheetData records /\
    Forall (fun r => normalizedDate tz r = date r) records /\
    match records with
    | [] => generateCSV tz records = [] /\ generateExcel records = None
    | _ => generateCSV tz records = join [10] (map (join [44]) (worksheetData records)) /\
           generateExcel records = Some (worksheetData records)
    end /\
    (records <> [] ->
     Forall (fun r => Forall plainField (recordValues r)) records ->
     readBack (generateCSV tz records) = worksheetData records) /\
    (forall parsedMulti,
       let recordsMulti := Multi.transformDataMulti tz parsedMulti in
       csvTable tz recordsMulti = worksheetData recordsMulti /\
       (recordsMulti <> [] ->
        Forall (fun r => Forall plainField (recordValues r)) recordsMulti ->
        readBack (generateCSV tz recordsMulti) = worksheetData recordsMulti)).
Proof.
  intros tz grid parsed options Hparse records.
  destruct (tables_agree tz records) as [Hnorm Htable].
  { apply transformData_canonical. eapply parseArrayData_canonical. exact Hparse. }
  split; [exact Htable|]. split; [exact Hnorm|]. split; [|split].
  - destruct records as [|r rs] eqn:Hrec; [split; reflexivity|].
    unfold generateCSV, generateExcel. rewrite Htable. split; reflexivity.
  - intros Hne Hp. apply worksheetData_readBack; assumption.
  - intros parsedMulti recordsMulti.
    assert (Hm : csvTable tz recordsMulti = worksheetData recordsMulti)
      by (apply tables_agree, transformDataMulti_canonical).
    split; [exact Hm|]. intros Hne Hp. apply worksheetData_readBack; assumption.
Qed.

(** The example grid: the tables agree, and so does the text read back. *)
Lemma csv_and_excel_rows_agree_witness :
  parseArrayData 0 exampleGrid = inr exampleParsed /\
  csvTable 0 (transformData 0 exampleParsed exampleOptions)
  = worksheetData (transformData 0 exampleParsed exampleOptions) /\
  readBack (generateCSV 0 (transformData 0 exampleParsed exampleOptions))
  = worksheetData (transformData 0 exampleParsed exampleOptions).
Proof.
  assert (H : parseArrayData 0 exampleGrid = inr exampleParsed)
    by (vm_compute; reflexivity).
  split; [exact H|].
  destruct (csv_and_excel_rows_agree 0 exampleGrid exampleParsed exampleOptions H)
    as (H1 & _ & _ & H4 & _).
  split; [exact H1|]. apply H4; clear H H1 H4.
  - vm_compute. discriminate.
  - apply Forall_forall. intros r Hr. apply list_elem_of_In in Hr.
    apply Forall_forall. intros f Hf. apply list_elem_of_In in Hf.
    vm_compute in Hr.
    repeat (destruct Hr as [<-|Hr]; [vm_compute in Hf;
      repeat (destruct Hf as [<-|Hf];
              [split; intros E; apply list_elem_of_In in E; vm_compute in E;
               intuition discriminate|]); contradiction|]).
    contradiction.
Defined.

(** C8, the claim as written fails: for the category "Costs>Rent,
    utilities" the record's description and category are "Rent,
    utilities"; the sheet row has seven cells, the CSV line has nine
    comma-separated columns, and the text read back is not the rows of the
    sheet. *)
Lemma comma_in_a_value_splits_the_csv_row :
  exists parsed,
    parseArrayData 0 commaGrid = inr parsed /\
    let records := transformData 0 parsed exampleOptions in
    records = [ record "SEK" "100.00" "2025-01-01" "ENTITY_ID" "ENTITY"
                       "Rent, utilities" "Rent, utilities" ] /\
    generateCSV 0 records
    = str "amount.currency,amount.stringValue,date,parent.id,parent.type,description,metadata.atlar.category"
      ++ [10] ++ str "SEK,100.00,2025-01-01,ENTITY_ID,ENTITY,Rent, utilities,Rent, utilities" /\
    map length (worksheetData records) = [7; 7]%nat /\
    map length (readBack (generateCSV 0 records)) = [7; 9]%nat /\
    readBack (generateCSV 0 records) <> worksheetData records.
Proof.
  eexists. split; [vm_compute; reflexivity|].
  cbv zeta. split; [vm_compute; reflexivity|]. split; [vm_compute; reflexivity|].
  split; [vm_compute; reflexivity|]. split; [vm_compute; reflexivity|].
  vm_compute. discriminate.
Qed.
